(** * Iris tracker: signal extraction and gesture-phase state machine

    A shallow embedding of [src/iris-tracker.js] (class [IrisTracker]).  The
    file holds the class twice; the second copy has the same extractors,
    histories and blink detector and no gesture phases, so the first copy
    is the one embedded.

    - JavaScript numbers are IEEE-754 binary64 values; they are modelled by
      Rocq's primitive floats, which are binary64 with the same rounding
      (round to nearest, ties to even).  [Math.sqrt] is the correctly rounded
      square root and [Math.pow(d, 2)] is read as the correctly rounded
      product [d * d].
    - Frame counters ([blinkFrameCounter], [leftGazeFrames], ...) hold small
      integers, on which binary64 arithmetic is exact; they are modelled by
      [Z].
    - The tracker object is one mutable session; every method becomes a
      function from session to session.  DOM side effects ([triggerFlash],
      [showBlinkAlert], the instruction overlay) are recorded in an event
      log carried by the session.
    - Reading a field of [undefined] throws a [TypeError]; the extractors
      return [option], with [None] standing for that exception. *)

From Stdlib Require Import ZArith List Bool Floats Lia.
From stdpp Require Import base list.
Import ListNotations.

Set Warnings "-inexact-float".

Local Open Scope Z_scope.

(** ** Numbers *)

(** The arithmetic [getCenter] needs, as an interface; the numbers of the
    program are its binary64 instance. *)
Class Arith (N : Type) := {
  zero : N;
  add : N -> N -> N;
  mul : N -> N -> N;
  div : N -> N -> N;
  of_nat : nat -> N
}.

#[export] Instance float_arith : Arith float := {|
  zero := 0%float;
  add := PrimFloat.add;
  mul := PrimFloat.mul;
  div := PrimFloat.div;
  of_nat n := PrimFloat.of_uint63 (Uint63.of_Z (Z.of_nat n))
|}.

(** ** Data model *)

(** A landmark [{x, y}]; normalized coordinates on input, pixels once scaled. *)
Record Point (N : Type) := mkPoint { x : N; y : N }.
Arguments mkPoint {N} _ _.
Arguments x {N} _.
Arguments y {N} _.

Abbreviation Landmark := (Point float).

(** The gaze ratio [{h, v}]. *)
Record GazeRatio := mkGaze { h : float; v : float }.

(** ** JavaScript library functions *)
Module JS.
Local Open Scope float_scope.

(** [Math.sqrt]. *)
Definition Math_sqrt (a : float) : float := PrimFloat.sqrt a.

(** [Math.pow(d, 2)]. *)
Definition Math_pow2 (d : float) : float := d * d.

(** One step of [Math.min(...args)]: a NaN argument makes the result NaN,
    [-0] is smaller than [+0], otherwise the smaller number is kept. *)
Definition min_step (lowest number : float) : float :=
  if is_nan lowest || is_nan number then nan
  else if is_zero number && is_zero lowest && get_sign number then number
  else if number <? lowest then number
  else lowest.

Definition Math_min (args : list float) : float :=
  fold_left min_step args infinity.

(** One step of [Math.max(...args)], symmetric: [+0] is larger than [-0]. *)
Definition max_step (highest number : float) : float :=
  if is_nan highest || is_nan number then nan
  else if is_zero number && is_zero highest && negb (get_sign number) then number
  else if highest <? number then number
  else highest.

Definition Math_max (args : list float) : float :=
  fold_left max_step args neg_infinity.
End JS.
Import JS.

(** ** Geometry primitives *)

(** [distance(p1, p2)]. *)
Definition distance (p1 p2 : Landmark) : float :=
  Math_sqrt (Math_pow2 (x p2 - x p1) + Math_pow2 (y p2 - y p1))%float.

(** [getCenter(landmarks, width, height)]:
    [landmarks.reduce((sum, lm) => sum + lm.x, 0) / landmarks.length * width],
    and the same for [y] with [height]. *)
Definition getCenter {N} `{Arith N} (landmarks : list (Point N)) (width height : N)
  : Point N :=
  {| x := mul (div (fold_left (fun sum lm => add sum (x lm)) landmarks zero)
                   (of_nat (length landmarks))) width;
     y := mul (div (fold_left (fun sum lm => add sum (y lm)) landmarks zero)
                   (of_nat (length landmarks))) height |}.

(** [lm => ({x: lm.x * width, y: lm.y * height})], the conversion of a
    normalized landmark to pixel coordinates. *)
Definition toPixels {N} `{Arith N} (width height : N) (lm : Point N) : Point N :=
  {| x := mul (x lm) width; y := mul (y lm) height |}.

(** ** Feature extractors *)

(** [calculateEAR(eyeLandmarks, width, height)].  [points[i]] past the end
    of the array is [undefined], and [distance] then throws. *)
Definition calculateEAR (eyeLandmarks : list Landmark) (width height : float)
  : option float :=
  let points := map (toPixels width height) eyeLandmarks in
  p1 ← points !! 1%nat; p5 ← points !! 5%nat;
  let v1 := distance p1 p5 in
  p2 ← points !! 2%nat; p4 ← points !! 4%nat;
  let v2 := distance p2 p4 in
  p0 ← points !! 0%nat; p3 ← points !! 3%nat;
  let h := distance p0 p3 in
  let ear := ((v1 + v2) / (2.0 * h))%float in
  Some ear.

(** [calculateGazeRatio(irisLandmarks, eyeLandmarks, width, height)]. *)
Definition calculateGazeRatio (irisLandmarks eyeLandmarks : list Landmark)
    (width height : float) : GazeRatio :=
  let irisCenter := getCenter irisLandmarks width height in
  let eyePoints := map (toPixels width height) eyeLandmarks in
  let minX := Math_min (map x eyePoints) in
  let maxX := Math_max (map x eyePoints) in
  let minY := Math_min (map y eyePoints) in
  let maxY := Math_max (map y eyePoints) in
  let eyeWidth := (maxX - minX)%float in
  let eyeHeight := (maxY - minY)%float in
  if (0 <? eyeWidth)%float && (0 <? eyeHeight)%float then
    let horizontalRatio := ((x irisCenter - minX) / eyeWidth)%float in
    let verticalRatio := ((y irisCenter - minY) / eyeHeight)%float in
    {| h := horizontalRatio; v := verticalRatio |}
  else {| h := 0.5; v := 0.5 |}.

(** [calculatePupilSize(irisLandmarks, width, height)]. *)
Definition calculatePupilSize (irisLandmarks : list Landmark) (width height : float)
  : option float :=
  let points := map (toPixels width height) irisLandmarks in
  p0 ← points !! 0%nat; p2 ← points !! 2%nat;
  let hDist := distance p0 p2 in
  p1 ← points !! 1%nat; p3 ← points !! 3%nat;
  let vDist := distance p1 p3 in
  let diameter := ((hDist + vDist) / 2)%float in
  Some diameter.

(** ** The tracker session *)

(** Side effects of a frame that leave the tracker object: the flash fired
    when a phase completes, the instruction overlay shown by
    [advanceToPhase], and the blink alert. *)
Inductive Event :=
| Flash
| PhaseAdvanced (phase : Z)
| BlinkAlert.

(** The mutable fields of [IrisTracker] that frame processing reads or
    writes, with the constructor's names. *)
Record Session := mkSession {
  blinkCount : Z;
  earHistory : list float;
  blinkFrameCounter : Z;
  gazeHistory : list GazeRatio;
  pupilSizeHistory : list float;
  currentPhase : Z;
  phaseCompleted : list bool;
  leftGazeFrames : Z;
  rightGazeFrames : Z;
  events : list Event
}.

(** The constants set once by the constructor. *)
Definition maxEarHistory : nat := 100.
Definition EAR_THRESHOLD : float := 0.21.
Definition BLINK_CONSEC_FRAMES : Z := 2.
Definition maxGazeHistory : nat := 5.
Definition maxPupilHistory : nat := 30.
Definition leftGazeThreshold : float := 0.65.
Definition leftGazeRequired : Z := 10.
Definition rightGazeThreshold : float := 0.35.
Definition rightGazeRequired : Z := 10.
Definition LEFT_IRIS : list nat := [469; 470; 471; 472]%nat.
Definition RIGHT_IRIS : list nat := [474; 475; 476; 477]%nat.
Definition LEFT_EYE : list nat := [33; 160; 158; 133; 153; 144]%nat.
Definition RIGHT_EYE : list nat := [362; 385; 387; 263; 373; 380]%nat.

(** The session built by [constructor()]. *)
Definition newSession : Session := {|
  blinkCount := 0;
  earHistory := [];
  blinkFrameCounter := 0;
  gazeHistory := [];
  pupilSizeHistory := [];
  currentPhase := 0;
  phaseCompleted := [false; false; false; false];
  leftGazeFrames := 0;
  rightGazeFrames := 0;
  events := []
|}.

(** Field assignments. *)
Definition set_blinkCount (n : Z) (s : Session) : Session :=
  mkSession n (earHistory s) (blinkFrameCounter s) (gazeHistory s)
    (pupilSizeHistory s) (currentPhase s) (phaseCompleted s)
    (leftGazeFrames s) (rightGazeFrames s) (events s).
Definition set_earHistory (l : list float) (s : Session) : Session :=
  mkSession (blinkCount s) l (blinkFrameCounter s) (gazeHistory s)
    (pupilSizeHistory s) (currentPhase s) (phaseCompleted s)
    (leftGazeFrames s) (rightGazeFrames s) (events s).
Definition set_blinkFrameCounter (n : Z) (s : Session) : Session :=
  mkSession (blinkCount s) (earHistory s) n (gazeHistory s)
    (pupilSizeHistory s) (currentPhase s) (phaseCompleted s)
    (leftGazeFrames s) (rightGazeFrames s) (events s).
Definition set_gazeHistory (l : list GazeRatio) (s : Session) : Session :=
  mkSession (blinkCount s) (earHistory s) (blinkFrameCounter s) l
    (pupilSizeHistory s) (currentPhase s) (phaseCompleted s)
    (leftGazeFrames s) (rightGazeFrames s) (events s).
Definition set_pupilSizeHistory (l : list float) (s : Session) : Session :=
  mkSession (blinkCount s) (earHistory s) (blinkFrameCounter s) (gazeHistory s)
    l (currentPhase s) (phaseCompleted s)
    (leftGazeFrames s) (rightGazeFrames s) (events s).
Definition set_currentPhase (p : Z) (s : Session) : Session :=
  mkSession (blinkCount s) (earHistory s) (blinkFrameCounter s) (gazeHistory s)
    (pupilSizeHistory s) p (phaseCompleted s)
    (leftGazeFrames s) (rightGazeFrames s) (events s).
Definition set_phaseCompleted (l : list bool) (s : Session) : Session :=
  mkSession (blinkCount s) (earHistory s) (blinkFrameCounter s) (gazeHistory s)
    (pupilSizeHistory s) (currentPhase s) l
    (leftGazeFrames s) (rightGazeFrames s) (events s).
Definition set_leftGazeFrames (n : Z) (s : Session) : Session :=
  mkSession (blinkCount s) (earHistory s) (blinkFrameCounter s) (gazeHistory s)
    (pupilSizeHistory s) (currentPhase s) (phaseCompleted s)
    n (rightGazeFrames s) (events s).
Definition set_rightGazeFrames (n : Z) (s : Session) : Session :=
  mkSession (blinkCount s) (earHistory s) (blinkFrameCounter s) (gazeHistory s)
    (pupilSizeHistory s) (currentPhase s) (phaseCompleted s)
    (leftGazeFrames s) n (events s).
Definition emit (e : Event) (s : Session) : Session :=
  mkSession (blinkCount s) (earHistory s) (blinkFrameCounter s) (gazeHistory s)
    (pupilSizeHistory s) (currentPhase s) (phaseCompleted s)
    (leftGazeFrames s) (rightGazeFrames s) (events s ++ [e]).

(** [a[i]] read as a condition: an index past the end gives [undefined],
    which is falsy. *)
Definition flagAt (a : list bool) (i : nat) : bool := default false (a !! i).

(** [a[i] = b].  Inside the array the entry is replaced; past its end
    JavaScript grows the array, the skipped entries being holes, which read
    as falsy. *)
Definition assignAt (a : list bool) (i : nat) (b : bool) : list bool :=
  if decide (i < length a)%nat then <[i := b]> a
  else a ++ replicate (i - length a) false ++ [b].

(** ** Bounded histories *)

(** [hist.push(value); if (hist.length > max) hist.shift();], the statement
    pair used for each of the three histories. *)
Definition pushBounded {A} (max : nat) (hist : list A) (value : A) : list A :=
  let hist := hist ++ [value] in
  if (max <? length hist)%nat then tail hist else hist.

(** ** Blink detector *)

(** [detectBlink(ear)]: the returned flag [isBlinking] and the session after
    the call.  (The wall-clock [lastBlinkTime] is not modelled.) *)
Definition detectBlink (s : Session) (ear : float) : bool * Session :=
  if (ear <? EAR_THRESHOLD)%float then
    (false, set_blinkFrameCounter (blinkFrameCounter s + 1) s)
  else if BLINK_CONSEC_FRAMES <=? blinkFrameCounter s then
    (true, set_blinkFrameCounter 0 (set_blinkCount (blinkCount s + 1) s))
  else
    (false, set_blinkFrameCounter 0 s).

(** ** Gesture phases *)

(** [triggerFlash()]. *)
Definition triggerFlash (s : Session) : Session := emit Flash s.

(** [advanceToPhase(phase)]: the phase is switched at once; the overlay
    texts and their timers are presentation and are kept as one event. *)
Definition advanceToPhase (phase : Z) (s : Session) : Session :=
  emit (PhaseAdvanced phase) (set_currentPhase phase s).

(** [showFinalMessage()], run by a timer 16 s after phase 2 starts. *)
Definition showFinalMessage (s : Session) : Session := set_currentPhase 3 s.

(** [detectLeftGaze(gazePoint)]. *)
Definition detectLeftGaze (s : Session) (gazePoint : GazeRatio) : Session :=
  if negb (currentPhase s =? 0) || flagAt (phaseCompleted s) 0 then s
  else if (leftGazeThreshold <? h gazePoint)%float then
    let s := set_leftGazeFrames (leftGazeFrames s + 1) s in
    if leftGazeRequired <=? leftGazeFrames s then
      let s := triggerFlash s in
      let s := set_phaseCompleted (assignAt (phaseCompleted s) 0 true) s in
      let s := set_leftGazeFrames 0 s in
      advanceToPhase 1 s
    else s
  else
    if 0 <? leftGazeFrames s then
      set_leftGazeFrames (Z.max 0 (leftGazeFrames s - 2)) s
    else s.

(** [detectRightGaze(gazePoint)]. *)
Definition detectRightGaze (s : Session) (gazePoint : GazeRatio) : Session :=
  if negb (currentPhase s =? 1) || flagAt (phaseCompleted s) 1 then s
  else if (h gazePoint <? rightGazeThreshold)%float then
    let s := set_rightGazeFrames (rightGazeFrames s + 1) s in
    if rightGazeRequired <=? rightGazeFrames s then
      let s := triggerFlash s in
      let s := set_phaseCompleted (assignAt (phaseCompleted s) 1 true) s in
      let s := set_rightGazeFrames 0 s in
      advanceToPhase 2 s
    else s
  else
    if 0 <? rightGazeFrames s then
      set_rightGazeFrames (Z.max 0 (rightGazeFrames s - 2)) s
    else s.

(** ** The per-frame pipeline *)

(** [estimateGazePoint(leftGaze, rightGaze)]: the smoothed ratio carried by
    the returned gaze point, and the session with the new gaze history.
    (The fields [x] and [y] of the gaze point, the ratio mapped to the
    screen, only position the pointer and are not modelled.) *)
Definition estimateGazePoint (s : Session) (leftGaze rightGaze : GazeRatio)
  : GazeRatio * Session :=
  let avgH := ((h leftGaze + h rightGaze) / 2)%float in
  let avgV := ((v leftGaze + v rightGaze) / 2)%float in
  let s := set_gazeHistory
             (pushBounded maxGazeHistory (gazeHistory s) {| h := avgH; v := avgV |}) s in
  let n := of_nat (length (gazeHistory s)) in
  if (0 <? length (gazeHistory s))%nat then
    let avgH := (fold_left (fun sum g => sum + h g) (gazeHistory s) 0 / n)%float in
    let avgV := (fold_left (fun sum g => sum + v g) (gazeHistory s) 0 / n)%float in
    ({| h := avgH; v := avgV |}, s)
  else ({| h := avgH; v := avgV |}, s).

(** How a frame ends: normally, or by a [TypeError] raised on a missing
    landmark, with the session as it was when the exception left. *)
Inductive Outcome :=
| Done (s : Session)
| Thrown (s : Session).

Definition sessionOf (o : Outcome) : Session :=
  match o with Done s | Thrown s => s end.

(** [indices.map(idx => landmarks[idx])], [None] when an entry is
    [undefined] (the consumers read [.x] of every entry first). *)
Definition pick (indices : list nat) (landmarks : list Landmark)
  : option (list Landmark) :=
  mapM (fun idx => landmarks !! idx) indices.

(** [processEyeTracking(landmarks)], with the canvas size as [width] and
    [height]. *)
Definition processEyeTracking (s : Session) (landmarks : list Landmark)
    (width height : float) : Outcome :=
  match pick LEFT_EYE landmarks, pick RIGHT_EYE landmarks with
  | Some leftEye, Some rightEye =>
    match calculateEAR leftEye width height, calculateEAR rightEye width height with
    | Some earLeft, Some earRight =>
      let earAvg := ((earLeft + earRight) / 2)%float in
      let s := set_earHistory (pushBounded maxEarHistory (earHistory s) earAvg) s in
      let '(isBlinking, s) := detectBlink s earAvg in
      let s := if isBlinking then emit BlinkAlert s else s in
      match pick LEFT_IRIS landmarks, pick RIGHT_IRIS landmarks with
      | Some leftIris, Some rightIris =>
        let leftGaze := calculateGazeRatio leftIris leftEye width height in
        let rightGaze := calculateGazeRatio rightIris rightEye width height in
        let '(gazePoint, s) := estimateGazePoint s leftGaze rightGaze in
        let s := detectLeftGaze s gazePoint in
        let s := detectRightGaze s gazePoint in
        match calculatePupilSize leftIris width height,
              calculatePupilSize rightIris width height with
        | Some leftPupilSize, Some rightPupilSize =>
          let avgPupilSize := ((leftPupilSize + rightPupilSize) / 2)%float in
          Done (set_pupilSizeHistory
                  (pushBounded maxPupilHistory (pupilSizeHistory s) avgPupilSize) s)
        | _, _ => Thrown s
        end
      | _, _ => Thrown s
      end
    | _, _ => Thrown s
    end
  | _, _ => Thrown s
  end.

(** What can happen to a session: a frame is processed, the final-message
    timer fires, or one of the detectors is called on its own. *)
Inductive step : Session -> Session -> Prop :=
| step_frame s landmarks width height :
    step s (sessionOf (processEyeTracking s landmarks width height))
| step_final s :
    step s (showFinalMessage s)
| step_blink s ear :
    step s (snd (detectBlink s ear))
| step_left s gazePoint :
    step s (detectLeftGaze s gazePoint)
| step_right s gazePoint :
    step s (detectRightGaze s gazePoint).

(** Sessions reached from [s0] by any number of steps. *)
Inductive reachable (s0 : Session) : Session -> Prop :=
| reach_refl : reachable s0 s0
| reach_step s s' : reachable s0 s -> step s s' -> reachable s0 s'.

(** ** Runs of the detectors over a sequence of frames *)

(** The blink detector fed a sequence of EAR samples: the flag returned on
    each frame, and the final session. *)
Fixpoint feedBlink (s : Session) (ears : list float) : list bool * Session :=
  match ears with
  | [] => ([], s)
  | ear :: rest =>
      let '(isBlinking, s) := detectBlink s ear in
      let '(flags, s) := feedBlink s rest in
      (isBlinking :: flags, s)
  end.

(** The gaze detectors called on a sequence of gaze points, in the order of
    [processEyeTracking]: left, then right. *)
Definition detectGaze (s : Session) (gazePoint : GazeRatio) : Session :=
  detectRightGaze (detectLeftGaze s gazePoint) gazePoint.

Definition feedLeft (s : Session) (gs : list GazeRatio) : Session :=
  fold_left detectLeftGaze gs s.

Definition feedRight (s : Session) (gs : list GazeRatio) : Session :=
  fold_left detectRightGaze gs s.

Definition feedGaze (s : Session) (gs : list GazeRatio) : Session :=
  fold_left detectGaze gs s.

(** A bounded history after pushing [values] one by one. *)
Definition pushAll {A} (max : nat) (hist : list A) (values : list A) : list A :=
  fold_left (pushBounded max) values hist.

(** ** The circle trail *)

(** The trail canvas of phase 2: whether [trailCtx] is set,
    [lastTrailPoint] ([null] until the first point), and the line segments
    stroked so far, oldest first. *)
Record Trail := mkTrail {
  trailCtx : bool;
  lastTrailPoint : option (Point float);
  strokes : list (Point float * Point float)
}.

(** The trail fields as the constructor leaves them, and once
    [initTrailCanvas()] has found its canvas. *)
Definition newTrail : Trail := mkTrail false None [].
Definition initTrailCanvas (t : Trail) : Trail :=
  mkTrail true (lastTrailPoint t) (strokes t).

(** [addTrailPoint(gazePoint)], on the screen position of the gaze point. *)
Definition addTrailPoint (t : Trail) (gazePoint : Point float) : Trail :=
  if negb (trailCtx t) then t
  else
    let currentPoint := {| x := x gazePoint; y := y gazePoint |} in
    let drawn :=
      match lastTrailPoint t with
      | Some last => strokes t ++ [(last, currentPoint)]
      | None => strokes t
      end in
    mkTrail (trailCtx t) (Some currentPoint) drawn.

(** [addTrailPoint] called on the gaze points of successive frames. *)
Definition feedTrail (t : Trail) (gazePoints : list (Point float)) : Trail :=
  fold_left addTrailPoint gazePoints t.

(** * Vocabulary of the properties *)

(** ** Phases *)

(** The phase is the current one and is not completed yet. *)
Definition leftActive (s : Session) : Prop :=
  currentPhase s = 0 /\ flagAt (phaseCompleted s) 0 = false.
Definition rightActive (s : Session) : Prop :=
  currentPhase s = 1 /\ flagAt (phaseCompleted s) 1 = false.

(** The gaze predicates of the two phases, as the detectors test them. *)
Definition lookingLeft (g : GazeRatio) : bool := (leftGazeThreshold <? h g)%float.
Definition lookingRight (g : GazeRatio) : bool := (h g <? rightGazeThreshold)%float.

(** The session right after a phase has completed: flag set, counter back
    to 0, next phase current, the flash and the advance in the event log. *)
Definition leftCompleted (s : Session) : Session :=
  mkSession (blinkCount s) (earHistory s) (blinkFrameCounter s) (gazeHistory s)
    (pupilSizeHistory s) 1 (assignAt (phaseCompleted s) 0 true)
    0 (rightGazeFrames s) (events s ++ [Flash; PhaseAdvanced 1]).
Definition rightCompleted (s : Session) : Session :=
  mkSession (blinkCount s) (earHistory s) (blinkFrameCounter s) (gazeHistory s)
    (pupilSizeHistory s) 2 (assignAt (phaseCompleted s) 1 true)
    (leftGazeFrames s) 0 (events s ++ [Flash; PhaseAdvanced 2]).

(** The three bounded histories. *)
Definition histories (s : Session) : list float * list GazeRatio * list float :=
  (earHistory s, gazeHistory s, pupilSizeHistory s).

(** The fields the gaze detectors read and write. *)
Definition phaseState (s : Session) : Z * list bool * Z * Z :=
  (currentPhase s, phaseCompleted s, leftGazeFrames s, rightGazeFrames s).

(** Both sustain counters are at least 0 and below the required count. *)
Definition countersInRange (s : Session) : Prop :=
  0 <= leftGazeFrames s < leftGazeRequired /\
  0 <= rightGazeFrames s < rightGazeRequired.

(** ** Runs of samples below the blink threshold *)

(** The test of [detectBlink]: the sample is strictly below the threshold.
    A NaN sample is not below it. *)
Definition belowThreshold (ear : float) : bool := (ear <? EAR_THRESHOLD)%float.

(** The lengths of the maximal runs of consecutive [true] entries (samples
    below the threshold), in order of appearance. *)
Fixpoint maximalRuns (below : list bool) : list nat :=
  match below with
  | [] => []
  | false :: rest => maximalRuns rest
  | true :: rest =>
      let runs := maximalRuns rest in
      match rest with
      | true :: _ =>
          match runs with
          | n :: runs => S n :: runs
          | [] => [1%nat]
          end
      | _ => 1%nat :: runs
      end
  end.

(** The length of the run of [true] entries at the front of a list, and of
    the run at its end: the run that is still open when the sequence stops. *)
Fixpoint leadingRun (below : list bool) : nat :=
  match below with
  | true :: rest => S (leadingRun rest)
  | _ => 0%nat
  end.

Definition trailingRun (below : list bool) : nat := leadingRun (rev below).

(** The number of runs of length at least [BLINK_CONSEC_FRAMES] = 2. *)
Definition longRuns (runs : list nat) : nat :=
  length (List.filter (Nat.leb 2) runs).

(** The number of frames on which the detector returned [true]. *)
Definition blinkEvents (flags : list bool) : nat :=
  length (List.filter id flags).

(** ** The extractors in the words of the specification *)

(** The closed form of the EAR: each landmark is scaled by (width, height);
    [v1] is the Euclidean distance between points 1 and 5, [v2] between
    points 2 and 4, [h] between points 0 and 3; the result is
    [(v1 + v2) / (2 * h)]. *)
Definition closedFormEAR (p0 p1 p2 p3 p4 p5 : Landmark) (width height : float)
  : float :=
  let scaled p := mkPoint (x p * width)%float (y p * height)%float in
  let euclid a b :=
    PrimFloat.sqrt ((x b - x a) * (x b - x a) + (y b - y a) * (y b - y a))%float in
  let v1 := euclid (scaled p1) (scaled p5) in
  let v2 := euclid (scaled p2) (scaled p4) in
  let h := euclid (scaled p0) (scaled p3) in
  ((v1 + v2) / (2 * h))%float.

(** The centroid: the arithmetic mean of the [x] and of the [y] coordinates
    of the points. *)
Definition centroid {N} `{Arith N} (points : list (Point N)) : Point N :=
  {| x := div (fold_left (fun sum p => add sum (x p)) points zero)
              (of_nat (length points));
     y := div (fold_left (fun sum p => add sum (y p)) points zero)
              (of_nat (length points)) |}.

(** The bounding box of the scaled eye points, as [calculateGazeRatio]
    computes it. *)
Definition eyeMinX (eyeLandmarks : list Landmark) (width height : float) : float :=
  Math_min (map x (map (toPixels width height) eyeLandmarks)).
Definition eyeMaxX (eyeLandmarks : list Landmark) (width height : float) : float :=
  Math_max (map x (map (toPixels width height) eyeLandmarks)).
Definition eyeMinY (eyeLandmarks : list Landmark) (width height : float) : float :=
  Math_min (map y (map (toPixels width height) eyeLandmarks)).
Definition eyeMaxY (eyeLandmarks : list Landmark) (width height : float) : float :=
  Math_max (map y (map (toPixels width height) eyeLandmarks)).
Definition eyeWidth (eyeLandmarks : list Landmark) (width height : float) : float :=
  (eyeMaxX eyeLandmarks width height - eyeMinX eyeLandmarks width height)%float.
Definition eyeHeight (eyeLandmarks : list Landmark) (width height : float) : float :=
  (eyeMaxY eyeLandmarks width height - eyeMinY eyeLandmarks width height)%float.

(** The gaze ratio: the neutral value when [eyeWidth <= 0] or
    [eyeHeight <= 0]; otherwise the position of the iris centre in the
    bounding box, the iris centre being the centroid of the scaled iris
    points. *)
Definition computeGazeRatio (irisLandmarks eyeLandmarks : list Landmark)
    (width height : float) : GazeRatio :=
  let irisCenter := centroid (map (toPixels width height) irisLandmarks) in
  if (eyeWidth eyeLandmarks width height <=? 0)%float
     || (eyeHeight eyeLandmarks width height <=? 0)%float
  then {| h := 0.5; v := 0.5 |}
  else {| h := ((x irisCenter - eyeMinX eyeLandmarks width height)
                / eyeWidth eyeLandmarks width height)%float;
          v := ((y irisCenter - eyeMinY eyeLandmarks width height)
                / eyeHeight eyeLandmarks width height)%float |}.

(** ** Sample inputs *)

(** An iris of four landmarks around (0.36, 0.45), the eye of six landmarks
    around it, and the same eye closed to a single point. *)
Definition sampleIris : list Landmark :=
  [mkPoint 0.37 0.45; mkPoint 0.36 0.44; mkPoint 0.35 0.45; mkPoint 0.36 0.46]%float.

Definition sampleEye : list Landmark :=
  [mkPoint 0.33 0.45; mkPoint 0.345 0.44; mkPoint 0.365 0.44;
   mkPoint 0.39 0.45; mkPoint 0.365 0.46; mkPoint 0.345 0.46]%float.

Definition collapsedEye : list Landmark :=
  [mkPoint 0.36 0.45; mkPoint 0.36 0.45; mkPoint 0.36 0.45;
   mkPoint 0.36 0.45; mkPoint 0.36 0.45; mkPoint 0.36 0.45]%float.

(** [sampleEye] with a corner whose [x] is NaN. *)
Definition nanEye : list Landmark :=
  [mkPoint nan 0.45; mkPoint 0.345 0.44; mkPoint 0.365 0.44;
   mkPoint 0.39 0.45; mkPoint 0.365 0.46; mkPoint 0.345 0.46]%float.

(** Synthetic eye geometry in pixels: corners at (0,0) and (10,0), lids 2
    above and 2 below at x = 3 and x = 7, so [v1 = v2 = 4] and [h = 10]. *)
Definition syntheticEye : list Landmark :=
  [mkPoint 0 0; mkPoint 3 (-2); mkPoint 7 (-2);
   mkPoint 10 0; mkPoint 7 2; mkPoint 3 2]%float.

(** A frame of [n] landmarks, all at the centre of the image. *)
Definition flatFrame (n : nat) : list Landmark :=
  repeat (mkPoint 0.5 0.5)%float n.

(** A gaze point looking left ([h = 0.7]) and one looking straight. *)
Definition gazeLeft : GazeRatio := {| h := 0.7; v := 0.5 |}.
Definition gazeCenter : GazeRatio := {| h := 0.5; v := 0.5 |}.

(** ** Numbers *)

(** The sign bit of a binary64 value is clear (NaN has none). *)
Definition signNonneg (f : spec_float) : Prop :=
  match f with
  | S754_zero s | S754_infinity s | S754_finite s _ _ => s = false
  | S754_nan => True
  end.

(** ** The gesture log *)

(** An event of the gesture phases (anything but a blink alert). *)
Definition isGestureEvent (e : Event) : bool :=
  match e with
  | BlinkAlert => false
  | _ => true
  end.

(** The events of the gesture phases in the log, in order. *)
Definition gestureEvents (s : Session) : list Event :=
  List.filter isGestureEvent (events s).

(** What the gesture phases keep of a session: the phase state and the
    gesture events. *)
Definition trackView (s : Session) : (Z * list bool * Z * Z) * list Event :=
  (phaseState s, gestureEvents s).

(** The shape of the phase state along a session: the flags of DrawCircle
    and of the final phase are never set; the log holds the flash and the
    advance of each completed phase, in order; a sustain counter is 0 before
    its phase starts and after it completes; the current phase agrees with
    the flags. *)
Definition viewInvariant (view : (Z * list bool * Z * Z) * list Event) : Prop :=
  let '((phase, flags, leftFrames, rightFrames), log) := view in
  exists f0 f1 : bool,
    flags = [f0; f1; false; false] /\
    log = (if f0 then [Flash; PhaseAdvanced 1] else [])
          ++ (if f1 then [Flash; PhaseAdvanced 2] else []) /\
    (leftFrames <> 0 -> f0 = false) /\
    (rightFrames <> 0 -> f0 = true /\ f1 = false) /\
    ((phase = 0 /\ f0 = false /\ f1 = false /\ rightFrames = 0) \/
     (phase = 1 /\ f0 = true /\ f1 = false) \/
     (phase = 2 /\ f0 = true /\ f1 = true) \/
     (phase = 3 /\ (f1 = true -> f0 = true))).

Definition gestureInvariant (s : Session) : Prop := viewInvariant (trackView s).

(** A gaze point looking right ([h = 0.3]). *)
Definition gazeRight : GazeRatio := {| h := 0.3; v := 0.5 |}.

(** ** Frames *)

(** The session a frame leaves behind, however the frame ends. *)
Definition afterFrame (s : Session) (landmarks : list Landmark)
    (width height : float) : Session :=
  sessionOf (processEyeTracking s landmarks width height).

(** A frame as [processEyeTracking] sees it: the landmarks of the face and
    the canvas size at that moment. *)
Record Frame := mkFrame {
  frameLandmarks : list Landmark;
  frameWidth : float;
  frameHeight : float
}.

(** [processEyeTracking] called on the frames of a run, one after the
    other. *)
Definition processFrames (s : Session) (frames : list Frame) : Session :=
  fold_left
    (fun s frame =>
       afterFrame s (frameLandmarks frame) (frameWidth frame) (frameHeight frame))
    frames s.

(** The three values [processEyeTracking] pushes for a frame: [earAvg], the
    unsmoothed [{h: avgH, v: avgV}] handed to [gazeHistory.push], and
    [avgPupilSize]. *)
Definition earOfFrame (frame : Frame) : option float :=
  leftEye ← pick LEFT_EYE (frameLandmarks frame);
  rightEye ← pick RIGHT_EYE (frameLandmarks frame);
  earLeft ← calculateEAR leftEye (frameWidth frame) (frameHeight frame);
  earRight ← calculateEAR rightEye (frameWidth frame) (frameHeight frame);
  Some ((earLeft + earRight) / 2)%float.

Definition gazeOfFrame (frame : Frame) : option GazeRatio :=
  leftEye ← pick LEFT_EYE (frameLandmarks frame);
  rightEye ← pick RIGHT_EYE (frameLandmarks frame);
  leftIris ← pick LEFT_IRIS (frameLandmarks frame);
  rightIris ← pick RIGHT_IRIS (frameLandmarks frame);
  let leftGaze :=
    calculateGazeRatio leftIris leftEye (frameWidth frame) (frameHeight frame) in
  let rightGaze :=
    calculateGazeRatio rightIris rightEye (frameWidth frame) (frameHeight frame) in
  Some {| h := (h leftGaze + h rightGaze) / 2;
          v := (v leftGaze + v rightGaze) / 2 |}%float.

Definition pupilOfFrame (frame : Frame) : option float :=
  leftIris ← pick LEFT_IRIS (frameLandmarks frame);
  rightIris ← pick RIGHT_IRIS (frameLandmarks frame);
  leftPupilSize ← calculatePupilSize leftIris (frameWidth frame) (frameHeight frame);
  rightPupilSize ← calculatePupilSize rightIris (frameWidth frame) (frameHeight frame);
  Some ((leftPupilSize + rightPupilSize) / 2)%float.

(** A buffer of capacity [capacity] that holds the last values pushed:
    exactly [capacity] of them, the most recent ones in push order, once
    more than [capacity] have been pushed, and all of them before. *)
Definition keepsLast {A} (capacity : nat) (pushed buffer : list A) : Prop :=
  ((capacity < length pushed)%nat ->
   length buffer = capacity /\
   buffer = drop (length pushed - capacity) pushed) /\
  ((length pushed <= capacity)%nat -> buffer = pushed).

(** A full frame of the landmark model, all landmarks at the centre. *)
Definition flatFullFrame : Frame := mkFrame (flatFrame 478) 640 480.

(** ** Blink alerts *)

Definition isBlinkAlert (e : Event) : bool :=
  match e with
  | BlinkAlert => true
  | _ => false
  end.

(** How many times [showBlinkAlert] has been called. *)
Definition blinkAlerts (s : Session) : nat :=
  length (List.filter isBlinkAlert (events s)).

(** What the blink detector keeps of a session. *)
Definition blinkView (s : Session) : Z * Z * nat :=
  (blinkCount s, blinkFrameCounter s, blinkAlerts s).

(** ** History steps *)

(** A history after a frame: as before, or with one more value pushed. *)
Definition historyStep {A} (max : nat) (before after : list A) : Prop :=
  after = before \/ exists value, after = pushBounded max before value.


(** ** Polylines *)

(** The segments joining [p] to the first of [ps] and each of [ps] to the
    next. *)
Fixpoint segmentsFrom (p : Point float) (ps : list (Point float))
  : list (Point float * Point float) :=
  match ps with
  | [] => []
  | q :: rest => (p, q) :: segmentsFrom q rest
  end.

(** The polyline through [ps], continued from [start] when there is one. *)
Definition polyline (start : option (Point float)) (ps : list (Point float))
  : list (Point float * Point float) :=
  match start, ps with
  | Some p, _ => segmentsFrom p ps
  | None, [] => []
  | None, p :: rest => segmentsFrom p rest
  end.

(** ** Proof steps on sessions *)

Ltac open_session :=
  unfold leftCompleted, rightCompleted, advanceToPhase, showFinalMessage,
    triggerFlash, emit, set_blinkCount, set_earHistory, set_blinkFrameCounter,
    set_gazeHistory, set_pupilSizeHistory, set_currentPhase, set_phaseCompleted,
    set_leftGazeFrames, set_rightGazeFrames in *.

Ltac session_eq :=
  repeat match goal with s : Session |- _ => destruct s end;
  open_session; cbn in *; subst; try rewrite <- !app_assoc; cbn;
  try reflexivity; try (f_equal; lia).

Ltac open_detector :=
  unfold detectLeftGaze, detectRightGaze, leftActive, rightActive,
    lookingLeft, lookingRight, leftGazeRequired, rightGazeRequired in *;
  repeat match goal with H : _ /\ _ |- _ => destruct H end.

Ltac split_invariant := split; [|split; [|split; [|split]]].

Ltac index_bounds :=
  repeat match goal with
         | H : _ /\ _ |- _ => destruct H
         | H : Forall _ (_ :: _) |- _ => apply Forall_cons in H
         | H : Forall _ [] |- _ => clear H
         | H : Exists _ (_ :: _) |- _ => apply Exists_cons in H; destruct H as [H|H]
         | H : Exists _ [] |- _ => apply Exists_nil in H; destruct H
         end.

(** * Properties *)

(** ** Binary64 facts *)

Section Binary64.
Local Open Scope float_scope.

Lemma binary_round_aux_sign sx mx ex lx :
  match binary_round_aux prec emax sx mx ex lx with
  | S754_zero s | S754_infinity s | S754_finite s _ _ => s = sx
  | S754_nan => True
  end.
Proof.
  unfold binary_round_aux.
  destruct (shr_fexp prec emax mx ex lx) as [mrs e'].
  destruct (shr_fexp prec emax _ e' loc_Exact) as [mrs' e''].
  destruct (shr_m mrs'); [reflexivity| |exact I].
  destruct (Z.leb _ _); reflexivity.
Qed.

Lemma SF64mul_self_nonneg f : signNonneg (SF64mul f f).
Proof.
  destruct f as [s|s| |s m e]; cbn; try (destruct s; reflexivity); try exact I.
  pose proof (binary_round_aux_sign (xorb s s) (Z.pos (m * m)) (e + e) loc_Exact) as H.
  unfold signNonneg.
  destruct (binary_round_aux _ _ _ _ _ _); try exact I;
    rewrite H; destruct s; reflexivity.
Qed.

Lemma SF64add_nonneg a b :
  signNonneg a -> signNonneg b -> signNonneg (SF64add a b).
Proof.
  destruct a as [sa|sa| |sa ma ea], b as [sb|sb| |sb mb eb]; cbn;
    intros Ha Hb; subst; try exact I; try reflexivity.
  unfold SF64add, SFadd, binary_normalize, cond_Zopp.
  destruct (shl_align ma ea _) as [m1 e1], (shl_align mb eb _) as [m2 e2].
  cbn [fst].
  change (Z.pos m1 + Z.pos m2)%Z with (Z.pos (m1 + m2)).
  unfold binary_round.
  destruct (shl_align _ _ _) as [mz ez].
  pose proof (binary_round_aux_sign false (Z.pos mz) ez loc_Exact) as H.
  destruct (binary_round_aux _ _ _ _ _ _); try exact I; exact H.
Qed.

Lemma SF64sqrt_nonneg a : signNonneg a -> signNonneg (SF64sqrt a).
Proof.
  destruct a as [s|s| |s m e]; cbn; intros Ha; subst; try exact I; try reflexivity.
  destruct (SFsqrt_core_binary prec emax (Z.pos m) e) as [[mz ez] lz].
  pose proof (binary_round_aux_sign false mz ez lz) as H.
  destruct (binary_round_aux _ _ _ _ _ _); try exact I; exact H.
Qed.

(** A distance is never [-0]: it is [+0], positive, [+Infinity] or NaN. *)
Lemma distance_nonneg p q : signNonneg (Prim2SF (distance p q)).
Proof.
  unfold distance, Math_sqrt, Math_pow2.
  rewrite sqrt_spec, add_spec, !mul_spec.
  apply SF64sqrt_nonneg, SF64add_nonneg; apply SF64mul_self_nonneg.
Qed.

Lemma nonneg_zero (f : float) :
  signNonneg (Prim2SF f) -> (f =? 0) = true -> f = 0.
Proof.
  rewrite FloatAxioms.eqb_spec. intros Hs Heq. apply Prim2SF_inj.
  change (Prim2SF 0) with (S754_zero false) in *.
  destruct (Prim2SF f) as [s|s| |s m e]; cbn in *; subst;
    try discriminate; try reflexivity.
Qed.

Lemma div_positive_by_zero (f : float) : (0 <? f) = true -> f / 0 = infinity.
Proof.
  rewrite ltb_spec. intros Hlt. apply Prim2SF_inj. rewrite div_spec.
  change (Prim2SF 0) with (S754_zero false) in *.
  change (Prim2SF infinity) with (S754_infinity false).
  destruct (Prim2SF f) as [s|s| |s m e]; cbn in *; try discriminate;
    destruct s; try discriminate; reflexivity.
Qed.

Lemma div_zero_by_zero (f : float) : (f =? 0) = true -> f / 0 = nan.
Proof.
  rewrite FloatAxioms.eqb_spec. intros Heq. apply Prim2SF_inj. rewrite div_spec.
  change (Prim2SF 0) with (S754_zero false) in *.
  change (Prim2SF nan) with S754_nan.
  destruct (Prim2SF f) as [s|s| |s m e]; cbn in *; try discriminate;
    try reflexivity; destruct s; discriminate.
Qed.

(** Dividing a number without sign bit by [+0] never gives a finite
    number. *)
Lemma div_nonneg_by_zero (f : float) :
  signNonneg (Prim2SF f) -> f / 0 = infinity \/ f / 0 = nan.
Proof.
  intros Hsign.
  assert (Hsf : SF64div (Prim2SF f) (S754_zero false) = S754_infinity false
                \/ SF64div (Prim2SF f) (S754_zero false) = S754_nan).
  { destruct (Prim2SF f) as [s|s| |s m e]; cbn in Hsign |- *; subst; auto. }
  destruct Hsf as [Hsf|Hsf]; [left|right];
    apply Prim2SF_inj; rewrite div_spec; exact Hsf.
Qed.

Lemma leb_zero_not_positive (f : float) : (f <=? 0) = true -> (0 <? f) = false.
Proof.
  rewrite leb_spec, ltb_spec.
  change (Prim2SF 0) with (S754_zero false) in *.
  destruct (Prim2SF f) as [s|s| |s m e]; cbn; try reflexivity;
    destruct s; try reflexivity; discriminate.
Qed.

Lemma nan_not_positive (f : float) : is_nan f = true -> (0 <? f) = false.
Proof.
  unfold is_nan. rewrite FloatAxioms.eqb_spec, ltb_spec.
  change (Prim2SF 0) with (S754_zero false) in *.
  destruct (Prim2SF f) as [s|s| |s m e]; cbn; try reflexivity; try discriminate.
  - destruct s; discriminate.
  - destruct s; cbn; rewrite Z.compare_refl, Pos.compare_cont_refl; discriminate.
Qed.

(** Every binary64 value is positive, at most zero, or NaN. *)
Lemma positive_or_not (f : float) :
  (0 <? f) = true \/ (f <=? 0) = true \/ is_nan f = true.
Proof.
  unfold is_nan. rewrite FloatAxioms.eqb_spec, ltb_spec, leb_spec.
  change (Prim2SF 0) with (S754_zero false) in *.
  destruct (Prim2SF f) as [s|s| |s m e]; cbn; try destruct s; auto.
Qed.

(** The difference of a finite number with itself is [+0]. *)
Lemma sub_self_finite (a : float) : is_finite a = true -> a - a = 0.
Proof.
  unfold is_finite, is_nan, is_infinity.
  rewrite !FloatAxioms.eqb_spec, abs_spec.
  change (Prim2SF infinity) with (S754_infinity false).
  intros Hfin. apply Prim2SF_inj. rewrite sub_spec.
  change (Prim2SF 0) with (S754_zero false).
  destruct (Prim2SF a) as [s|s| |s m e]; cbn in Hfin.
  - destruct s; reflexivity.
  - destruct s; discriminate.
  - discriminate.
  - unfold SF64sub, SFsub. rewrite Z.sub_diag. reflexivity.
Qed.

(** Two points with the same finite coordinates are at distance [+0]. *)
Lemma distance_coincident (p q : Landmark) :
  is_finite (x p) = true -> is_finite (y p) = true ->
  x q = x p -> y q = y p -> distance p q = 0.
Proof.
  intros Hx Hy Hqx Hqy. unfold distance, Math_sqrt, Math_pow2.
  rewrite Hqx, Hqy, (sub_self_finite _ Hx), (sub_self_finite _ Hy).
  reflexivity.
Qed.

(** 0.65 < h excludes h < 0.35: a gaze point that looks left does not look
    right. *)
Lemma lookingLeft_not_right g : lookingLeft g = true -> lookingRight g = false.
Proof.
  unfold lookingLeft, lookingRight. rewrite !ltb_spec.
  remember (Prim2SF leftGazeThreshold) as L eqn:HL. vm_compute in HL. subst L.
  remember (Prim2SF rightGazeThreshold) as R eqn:HR. vm_compute in HR. subst R.
  unfold SFltb, SFcompare.
  destruct (Prim2SF (h g)) as [s|s| |s m e]; try (destruct s);
    try discriminate; try reflexivity.
  destruct (Z.compare_spec (-53) e) as [He|He|He];
    destruct (Z.compare_spec e (-54)) as [He'|He'|He'];
    try lia; try discriminate; try reflexivity.
Qed.

End Binary64.

(** ** Bounded histories *)

Section BoundedHistory.
Context {A : Type}.
Implicit Types (hist values : list A) (max : nat).

Lemma pushBounded_length max hist value :
  (length hist <= max)%nat -> (length (pushBounded max hist value) <= max)%nat.
Proof.
  intros Hle. unfold pushBounded.
  destruct (Nat.ltb_spec max (length (hist ++ [value]))) as [Hgt|Hfit]; [|exact Hfit].
  rewrite length_app in Hgt. cbn in Hgt.
  destruct hist as [|a t]; cbn in *; [lia|].
  rewrite length_app. cbn. lia.
Qed.

(** One push keeps the last [max] entries of the extended history. *)
Lemma pushBounded_drop max hist value :
  (length hist <= max)%nat ->
  pushBounded max hist value
  = drop (length (hist ++ [value]) - max) (hist ++ [value]).
Proof.
  intros Hle. unfold pushBounded.
  rewrite length_app. cbn [length].
  destruct (Nat.ltb_spec max (length hist + 1)) as [Hgt|Hfit].
  - replace (length hist + 1 - max)%nat with 1%nat by lia.
    destruct hist; reflexivity.
  - replace (length hist + 1 - max)%nat with 0%nat by lia. reflexivity.
Qed.

Lemma pushAll_drop max values : forall hist,
  (length hist <= max)%nat ->
  pushAll max hist values
  = drop (length (hist ++ values) - max) (hist ++ values).
Proof.
  induction values as [|value rest IH]; intros hist Hle.
  - cbn. rewrite app_nil_r.
    replace (length hist - max)%nat with 0%nat by lia. reflexivity.
  - change (pushAll max hist (value :: rest))
      with (pushAll max (pushBounded max hist value) rest).
    rewrite IH by (apply pushBounded_length; exact Hle).
    rewrite pushBounded_drop by exact Hle.
    set (k := (length (hist ++ [value]) - max)%nat).
    assert (Hk : (k <= length (hist ++ [value]))%nat) by (subst k; lia).
    replace (hist ++ value :: rest) with ((hist ++ [value]) ++ rest)
      by (rewrite <- app_assoc; reflexivity).
    rewrite <- (drop_app_le (hist ++ [value]) rest k Hk).
    rewrite drop_drop. f_equal.
    rewrite !length_app, length_drop, !length_app. cbn [length]. 
    rewrite length_app in Hk. cbn [length] in Hk.
    subst k. rewrite length_app. cbn [length]. lia.
Qed.

End BoundedHistory.

(** The statement pair as a list function, for every capacity [max]:
    starting from the empty history, after more than [max] pushes the
    history has exactly [max] entries, the last [max] pushed values in push
    order; after at most [max] pushes it holds all pushed values in push
    order. *)
Theorem history_keeps_last_values (A : Type) (max : nat) (values : list A) :
  ((max < length values)%nat ->
     length (pushAll max [] values) = max /\
     pushAll max [] values = drop (length values - max) values) /\
  ((length values <= max)%nat ->
     length (pushAll max [] values) = length values /\
     pushAll max [] values = values).
Proof.
  pose proof (pushAll_drop max values [] (Nat.le_0_l max)) as Hdrop.
  cbn [app] in Hdrop.
  split; intros Hlen; rewrite Hdrop.
  - split; [|reflexivity]. rewrite length_drop. lia.
  - replace (length values - max)%nat with 0%nat by lia. split; reflexivity.
Qed.

Lemma history_keeps_last_values_witness :
  pushAll maxGazeHistory [] [1; 2; 3; 4; 5; 6; 7]%float = [3; 4; 5; 6; 7]%float
  /\ pushAll maxGazeHistory [] [1; 2; 3]%float = [1; 2; 3]%float.
Proof.
  split.
  - destruct (history_keeps_last_values float maxGazeHistory
                [1; 2; 3; 4; 5; 6; 7]%float) as [Hfull _].
    destruct Hfull as [_ Hlast]; [vm_compute; lia | exact Hlast].
  - destruct (history_keeps_last_values float maxGazeHistory
                [1; 2; 3]%float) as [_ Hpart].
    destruct Hpart as [_ Hall]; [vm_compute; lia | exact Hall].
Defined.

(** ** The histories in the frame pipeline *)

(** The gaze history is filled through [pushBounded] with the average of
    the two eyes. *)
Lemma estimateGazePoint_history s leftGaze rightGaze :
  gazeHistory (snd (estimateGazePoint s leftGaze rightGaze))
  = pushBounded maxGazeHistory (gazeHistory s)
      {| h := (h leftGaze + h rightGaze) / 2; v := (v leftGaze + v rightGaze) / 2 |}.
Proof.
  unfold estimateGazePoint.
  destruct (Nat.ltb _ _); reflexivity.
Qed.

Lemma detectBlink_histories s ear :
  histories (snd (detectBlink s ear)) = histories s.
Proof.
  unfold detectBlink.
  destruct (PrimFloat.ltb _ _); [reflexivity|].
  destruct (Z.leb _ _); reflexivity.
Qed.

Lemma detectLeftGaze_histories s g :
  histories (detectLeftGaze s g) = histories s.
Proof.
  unfold detectLeftGaze.
  destruct (negb _ || _); [reflexivity|].
  destruct (PrimFloat.ltb _ _).
  - destruct (Z.leb _ _); reflexivity.
  - destruct (Z.ltb _ _); reflexivity.
Qed.

Lemma detectRightGaze_histories s g :
  histories (detectRightGaze s g) = histories s.
Proof.
  unfold detectRightGaze.
  destruct (negb _ || _); [reflexivity|].
  destruct (PrimFloat.ltb _ _).
  - destruct (Z.leb _ _); reflexivity.
  - destruct (Z.ltb _ _); reflexivity.
Qed.

(** A frame processed to its end has pushed one value on each history. *)
Lemma processEyeTracking_histories s landmarks width height s' :
  processEyeTracking s landmarks width height = Done s' ->
  exists earAvg gazeAvg avgPupilSize,
    earHistory s' = pushBounded maxEarHistory (earHistory s) earAvg /\
    gazeHistory s' = pushBounded maxGazeHistory (gazeHistory s) gazeAvg /\
    pupilSizeHistory s'
    = pushBounded maxPupilHistory (pupilSizeHistory s) avgPupilSize.
Proof.
  unfold processEyeTracking.
  destruct (pick LEFT_EYE landmarks) as [leftEye|]; [|discriminate].
  destruct (pick RIGHT_EYE landmarks) as [rightEye|]; [|discriminate].
  destruct (calculateEAR leftEye width height) as [earLeft|]; [|discriminate].
  destruct (calculateEAR rightEye width height) as [earRight|]; [|discriminate].
  set (earAvg := ((earLeft + earRight) / 2)%float).
  set (s1 := set_earHistory _ s).
  pose proof (detectBlink_histories s1 earAvg) as Hblink.
  destruct (detectBlink s1 earAvg) as [isBlinking s2]. cbn [snd] in Hblink.
  set (s3 := if isBlinking then emit BlinkAlert s2 else s2).
  assert (H3 : histories s3 = histories s1).
  { subst s3. destruct isBlinking; exact Hblink. }
  destruct (pick LEFT_IRIS landmarks) as [leftIris|]; [|discriminate].
  destruct (pick RIGHT_IRIS landmarks) as [rightIris|]; [|discriminate].
  set (leftGaze := calculateGazeRatio leftIris leftEye width height).
  set (rightGaze := calculateGazeRatio rightIris rightEye width height).
  pose proof (estimateGazePoint_history s3 leftGaze rightGaze) as Hgaze.
  assert (Hother : earHistory (snd (estimateGazePoint s3 leftGaze rightGaze))
                   = earHistory s3 /\
                   pupilSizeHistory (snd (estimateGazePoint s3 leftGaze rightGaze))
                   = pupilSizeHistory s3).
  { unfold estimateGazePoint. destruct (Nat.ltb _ _); split; reflexivity. }
  destruct (estimateGazePoint s3 leftGaze rightGaze) as [gazePoint s4].
  cbn [snd] in Hgaze, Hother. destruct Hother as [Hear Hpupil].
  pose proof (detectLeftGaze_histories s4 gazePoint) as Hleft.
  pose proof (detectRightGaze_histories (detectLeftGaze s4 gazePoint) gazePoint)
    as Hright.
  set (s6 := detectRightGaze (detectLeftGaze s4 gazePoint) gazePoint) in *.
  destruct (calculatePupilSize leftIris width height) as [leftPupilSize|];
    [|discriminate].
  destruct (calculatePupilSize rightIris width height) as [rightPupilSize|];
    [|discriminate].
  intros [= <-].
  unfold histories in *.
  injection H3 as He3 Hg3 Hp3. injection Hleft as He5 Hg5 Hp5.
  injection Hright as He6 Hg6 Hp6.
  exists earAvg, {| h := (h leftGaze + h rightGaze) / 2;
                    v := (v leftGaze + v rightGaze) / 2 |},
         ((leftPupilSize + rightPupilSize) / 2)%float.
  cbn [earHistory gazeHistory pupilSizeHistory set_pupilSizeHistory].
  repeat split; congruence.
Qed.

(** A frame with all 478 landmarks is processed to its end.  A frame that
    stops before the iris landmarks throws after the EAR has been pushed
    and the blink detector has run. *)
Lemma processEyeTracking_full_frame :
  exists s', processEyeTracking newSession (flatFrame 478) 640%float 480%float
             = Done s'
             /\ length (earHistory s') = 1%nat
             /\ length (gazeHistory s') = 1%nat
             /\ length (pupilSizeHistory s') = 1%nat.
Proof. eexists. vm_compute. repeat split. Qed.

Lemma processEyeTracking_short_frame :
  exists s', processEyeTracking newSession (flatFrame 400) 640%float 480%float
             = Thrown s'
             /\ length (earHistory s') = 1%nat
             /\ length (gazeHistory s') = 0%nat.
Proof. eexists. vm_compute. repeat split. Qed.

(** ** Gaze detectors: one call *)

Lemma detectLeftGaze_inert s g :
  currentPhase s <> 0 \/ flagAt (phaseCompleted s) 0 = true ->
  detectLeftGaze s g = s.
Proof.
  intros Hguard. unfold detectLeftGaze.
  destruct Hguard as [Hphase|Hflag].
  - apply Z.eqb_neq in Hphase. rewrite Hphase. reflexivity.
  - rewrite Hflag, orb_true_r. reflexivity.
Qed.

Lemma detectRightGaze_inert s g :
  currentPhase s <> 1 \/ flagAt (phaseCompleted s) 1 = true ->
  detectRightGaze s g = s.
Proof.
  intros Hguard. unfold detectRightGaze.
  destruct Hguard as [Hphase|Hflag].
  - apply Z.eqb_neq in Hphase. rewrite Hphase. reflexivity.
  - rewrite Hflag, orb_true_r. reflexivity.
Qed.

Lemma detectLeftGaze_count s g :
  leftActive s -> lookingLeft g = true -> leftGazeFrames s + 1 < leftGazeRequired ->
  detectLeftGaze s g = set_leftGazeFrames (leftGazeFrames s + 1) s.
Proof.
  intros Hact Hlook Hfew. open_detector.
  rewrite H, H0, Hlook. cbn [Z.eqb negb orb set_leftGazeFrames leftGazeFrames].
  destruct (Z.leb_spec 10 (leftGazeFrames s + 1)); [lia|reflexivity].
Qed.

Lemma detectLeftGaze_fire s g :
  leftActive s -> lookingLeft g = true -> leftGazeRequired <= leftGazeFrames s + 1 ->
  detectLeftGaze s g = leftCompleted s.
Proof.
  intros Hact Hlook Hfew. open_detector.
  rewrite H, H0, Hlook. cbn [Z.eqb negb orb set_leftGazeFrames leftGazeFrames].
  destruct (Z.leb_spec 10 (leftGazeFrames s + 1)); [|lia].
  session_eq.
Qed.

Lemma detectLeftGaze_decay s g :
  leftActive s -> lookingLeft g = false -> 0 <= leftGazeFrames s ->
  detectLeftGaze s g = set_leftGazeFrames (Z.max 0 (leftGazeFrames s - 2)) s.
Proof.
  intros Hact Hlook Hpos. open_detector.
  rewrite H, H0, Hlook. cbn [Z.eqb negb orb].
  destruct (Z.ltb_spec 0 (leftGazeFrames s)); [reflexivity|].
  replace (leftGazeFrames s) with 0 by lia. session_eq.
Qed.

Lemma detectRightGaze_count s g :
  rightActive s -> lookingRight g = true -> rightGazeFrames s + 1 < rightGazeRequired ->
  detectRightGaze s g = set_rightGazeFrames (rightGazeFrames s + 1) s.
Proof.
  intros Hact Hlook Hfew. open_detector.
  rewrite H, H0, Hlook. cbn [Z.eqb negb orb set_rightGazeFrames rightGazeFrames].
  destruct (Z.leb_spec 10 (rightGazeFrames s + 1)); [lia|reflexivity].
Qed.

Lemma detectRightGaze_fire s g :
  rightActive s -> lookingRight g = true -> rightGazeRequired <= rightGazeFrames s + 1 ->
  detectRightGaze s g = rightCompleted s.
Proof.
  intros Hact Hlook Hfew. open_detector.
  rewrite H, H0, Hlook. cbn [Z.eqb negb orb set_rightGazeFrames rightGazeFrames].
  destruct (Z.leb_spec 10 (rightGazeFrames s + 1)); [|lia].
  session_eq.
Qed.

Lemma detectRightGaze_decay s g :
  rightActive s -> lookingRight g = false -> 0 <= rightGazeFrames s ->
  detectRightGaze s g = set_rightGazeFrames (Z.max 0 (rightGazeFrames s - 2)) s.
Proof.
  intros Hact Hlook Hpos. open_detector.
  rewrite H, H0, Hlook. cbn [Z.eqb negb orb].
  destruct (Z.ltb_spec 0 (rightGazeFrames s)); [reflexivity|].
  replace (rightGazeFrames s) with 0 by lia. session_eq.
Qed.

Lemma flagAt_assignAt_same (a : list bool) (i : nat) :
  flagAt (assignAt a i true) i = true.
Proof.
  unfold flagAt, assignAt. destruct (decide (i < length a)%nat) as [Hin|Hout].
  - rewrite list_lookup_insert_eq by exact Hin. reflexivity.
  - rewrite lookup_app_r by lia.
    rewrite lookup_app_r by (rewrite length_replicate; lia).
    rewrite length_replicate, Nat.sub_diag. reflexivity.
Qed.

Lemma flagAt_assignAt_keep (a : list bool) (i j : nat) :
  flagAt a i = true -> flagAt (assignAt a j true) i = true.
Proof.
  unfold flagAt, assignAt. intros Hset.
  destruct (a !! i) as [b|] eqn:Hi; [cbn in Hset; subst b|discriminate].
  destruct (decide (j < length a)%nat) as [Hin|Hout].
  - destruct (decide (j = i)) as [->|Hne].
    + rewrite list_lookup_insert_eq by exact Hin. reflexivity.
    + rewrite list_lookup_insert_ne by exact Hne. rewrite Hi. reflexivity.
  - rewrite lookup_app_l by (eapply lookup_lt_Some; exact Hi).
    rewrite Hi. reflexivity.
Qed.

(** ** Gaze detectors: runs of qualifying frames *)

Lemma feedLeft_snoc s gs g :
  feedLeft s (gs ++ [g]) = detectLeftGaze (feedLeft s gs) g.
Proof. unfold feedLeft. rewrite fold_left_app. reflexivity. Qed.

Lemma feedRight_snoc s gs g :
  feedRight s (gs ++ [g]) = detectRightGaze (feedRight s gs) g.
Proof. unfold feedRight. rewrite fold_left_app. reflexivity. Qed.

Lemma feedLeft_app s gs1 gs2 :
  feedLeft s (gs1 ++ gs2) = feedLeft (feedLeft s gs1) gs2.
Proof. unfold feedLeft. apply fold_left_app. Qed.

Lemma feedRight_app s gs1 gs2 :
  feedRight s (gs1 ++ gs2) = feedRight (feedRight s gs1) gs2.
Proof. unfold feedRight. apply fold_left_app. Qed.

(** While the counter stays below the required count, qualifying frames
    only count up. *)
Lemma feedLeft_counting gs : forall s,
  leftActive s ->
  Forall (fun g => lookingLeft g = true) gs ->
  leftGazeFrames s + Z.of_nat (length gs) < leftGazeRequired ->
  feedLeft s gs = set_leftGazeFrames (leftGazeFrames s + Z.of_nat (length gs)) s.
Proof.
  induction gs as [|g gs IH] using rev_ind; intros s Hact Hall Hfew.
  - cbn. session_eq.
  - rewrite length_app in *. cbn [length] in *.
    apply Forall_app in Hall as [Hgs Hg]. apply Forall_inv in Hg.
    rewrite feedLeft_snoc, IH by (try assumption; lia).
    rewrite detectLeftGaze_count; try assumption.
    + session_eq.
    + cbn. lia.
Qed.

Lemma feedRight_counting gs : forall s,
  rightActive s ->
  Forall (fun g => lookingRight g = true) gs ->
  rightGazeFrames s + Z.of_nat (length gs) < rightGazeRequired ->
  feedRight s gs = set_rightGazeFrames (rightGazeFrames s + Z.of_nat (length gs)) s.
Proof.
  induction gs as [|g gs IH] using rev_ind; intros s Hact Hall Hfew.
  - cbn. session_eq.
  - rewrite length_app in *. cbn [length] in *.
    apply Forall_app in Hall as [Hgs Hg]. apply Forall_inv in Hg.
    rewrite feedRight_snoc, IH by (try assumption; lia).
    rewrite detectRightGaze_count; try assumption.
    + session_eq.
    + cbn. lia.
Qed.

(** The frame on which the counter reaches the required count completes
    the phase. *)
Lemma feedLeft_completes gs s :
  leftActive s ->
  Forall (fun g => lookingLeft g = true) gs ->
  gs <> [] ->
  leftGazeFrames s + Z.of_nat (length gs) = leftGazeRequired ->
  feedLeft s gs = leftCompleted s.
Proof.
  intros Hact Hall Hne Hlen.
  destruct (exists_last Hne) as (gs' & g & ->).
  rewrite length_app in Hlen. cbn [length] in Hlen.
  apply Forall_app in Hall as [Hgs Hg]. apply Forall_inv in Hg.
  rewrite feedLeft_snoc, feedLeft_counting by (try assumption; lia).
  rewrite detectLeftGaze_fire; try assumption.
  - session_eq.
  - cbn. lia.
Qed.

Lemma feedRight_completes gs s :
  rightActive s ->
  Forall (fun g => lookingRight g = true) gs ->
  gs <> [] ->
  rightGazeFrames s + Z.of_nat (length gs) = rightGazeRequired ->
  feedRight s gs = rightCompleted s.
Proof.
  intros Hact Hall Hne Hlen.
  destruct (exists_last Hne) as (gs' & g & ->).
  rewrite length_app in Hlen. cbn [length] in Hlen.
  apply Forall_app in Hall as [Hgs Hg]. apply Forall_inv in Hg.
  rewrite feedRight_snoc, feedRight_counting by (try assumption; lia).
  rewrite detectRightGaze_fire; try assumption.
  - session_eq.
  - cbn. lia.
Qed.

(** Equality with a threshold does not satisfy a gaze predicate. *)
Lemma lookingLeft_strict g : h g = leftGazeThreshold -> lookingLeft g = false.
Proof. unfold lookingLeft. intros ->. reflexivity. Qed.

Lemma lookingRight_strict g : h g = rightGazeThreshold -> lookingRight g = false.
Proof. unfold lookingRight. intros ->. reflexivity. Qed.

(** C2: phase LookLeft active (current phase 0, completion flag false),
    sustain counter 0, and every fed frame has [h > leftGazeThreshold]
    (0.65).  Before the 10th frame nothing fires: the phase is still 0, the
    flag false, the counter equals the number of frames, no event is
    emitted.  On the 10th frame the trigger fires (events [Flash] and the
    advance), the flag is set, the counter is back to 0 and the current
    phase is 1 (LookRight).  A frame with [h] equal to the threshold does
    not qualify: it leaves the counter at 0; the same strictness holds for
    the right detector and [rightGazeThreshold]. *)
Theorem look_left_completes_on_tenth_frame (s : Session) (gs : list GazeRatio) :
  currentPhase s = 0 ->
  flagAt (phaseCompleted s) 0 = false ->
  leftGazeFrames s = 0 ->
  Forall (fun g => (leftGazeThreshold <? h g)%float = true) gs ->
  ((length gs < 10)%nat ->
     currentPhase (feedLeft s gs) = 0 /\
     flagAt (phaseCompleted (feedLeft s gs)) 0 = false /\
     leftGazeFrames (feedLeft s gs) = Z.of_nat (length gs) /\
     events (feedLeft s gs) = events s) /\
  (length gs = 10%nat ->
     currentPhase (feedLeft s gs) = 1 /\
     flagAt (phaseCompleted (feedLeft s gs)) 0 = true /\
     leftGazeFrames (feedLeft s gs) = 0 /\
     events (feedLeft s gs) = events s ++ [Flash; PhaseAdvanced 1]) /\
  (forall g, h g = leftGazeThreshold -> detectLeftGaze s g = s) /\
  (forall r g, rightActive r -> rightGazeFrames r = 0 ->
     h g = rightGazeThreshold -> detectRightGaze r g = r).
Proof.
  intros Hphase Hflag Hzero Hall.
  assert (Hact : leftActive s) by (split; assumption).
  repeat split.
  - rewrite feedLeft_counting by (try assumption; unfold leftGazeRequired; lia).
    exact Hphase.
  - rewrite feedLeft_counting by (try assumption; unfold leftGazeRequired; lia).
    exact Hflag.
  - rewrite feedLeft_counting by (try assumption; unfold leftGazeRequired; lia).
    cbn. lia.
  - rewrite feedLeft_counting by (try assumption; unfold leftGazeRequired; lia).
    reflexivity.
  - rewrite feedLeft_completes; try assumption; try reflexivity.
    + intros ->. discriminate.
    + unfold leftGazeRequired. lia.
  - rewrite feedLeft_completes; try assumption.
    + apply flagAt_assignAt_same.
    + intros ->. discriminate.
    + unfold leftGazeRequired. lia.
  - rewrite feedLeft_completes; try assumption; try reflexivity.
    + intros ->. discriminate.
    + unfold leftGazeRequired. lia.
  - rewrite feedLeft_completes; try assumption; try reflexivity.
    + intros ->. discriminate.
    + unfold leftGazeRequired. lia.
  - intros g Heq.
    rewrite detectLeftGaze_decay by first [assumption | apply lookingLeft_strict; exact Heq | lia].
    rewrite Hzero. session_eq.
  - intros r g Hr Hr0 Heq.
    rewrite detectRightGaze_decay by first [assumption | apply lookingRight_strict; exact Heq | lia].
    rewrite Hr0. session_eq.
Qed.

(** The scenario of the specification: [h = 0.7] held for 10 frames from a
    fresh session. *)
Lemma look_left_completes_on_tenth_frame_witness :
  currentPhase (feedLeft newSession (repeat gazeLeft 10)) = 1
  /\ currentPhase (feedLeft newSession (repeat gazeLeft 9)) = 0.
Proof.
  split.
  - destruct (look_left_completes_on_tenth_frame newSession
                (repeat gazeLeft 10)) as (_ & Hten & _).
    + reflexivity.
    + reflexivity.
    + reflexivity.
    + repeat constructor.
    + destruct Hten as [Hphase _]; [reflexivity | exact Hphase].
  - destruct (look_left_completes_on_tenth_frame newSession
                (repeat gazeLeft 9)) as (Hnine & _).
    + reflexivity.
    + reflexivity.
    + reflexivity.
    + repeat constructor.
    + destruct Hnine as [Hphase _]; [vm_compute; reflexivity | exact Hphase].
Defined.

(** ** Gaze detectors: the two calls of a frame *)

(** While LookLeft is active and the right counter is 0, the right
    detector, called after the left one with the same gaze point, changes
    nothing: it is inert until the left phase completes, and on the frame
    that completes it the gaze point does not look right. *)
Lemma detectGaze_looking_left s g :
  leftActive s -> lookingLeft g = true -> rightGazeFrames s = 0 ->
  0 <= leftGazeFrames s ->
  detectGaze s g = detectLeftGaze s g.
Proof.
  intros Hact Hlook Hright Hpos. unfold detectGaze.
  destruct (Z.lt_ge_cases (leftGazeFrames s + 1) leftGazeRequired) as [Hfew|Hfull].
  - rewrite detectLeftGaze_count by assumption.
    apply detectRightGaze_inert. left. destruct Hact as [Hphase _].
    cbn. rewrite Hphase. discriminate.
  - rewrite detectLeftGaze_fire by assumption.
    destruct (flagAt (phaseCompleted (leftCompleted s)) 1) eqn:Hflag.
    + apply detectRightGaze_inert. right. exact Hflag.
    + rewrite detectRightGaze_decay.
      * cbn. rewrite Hright. session_eq.
      * split; [reflexivity | exact Hflag].
      * apply lookingLeft_not_right, Hlook.
      * cbn. lia.
Qed.

Lemma feedGaze_looking_left gs : forall s,
  leftActive s -> leftGazeFrames s = 0 -> rightGazeFrames s = 0 ->
  Forall (fun g => lookingLeft g = true) gs ->
  (length gs <= 10)%nat ->
  feedGaze s gs = feedLeft s gs.
Proof.
  induction gs as [|g gs IH] using rev_ind; intros s Hact Hzero Hright Hall Hlen;
    [reflexivity|].
  rewrite length_app in Hlen. cbn [length] in Hlen.
  apply Forall_app in Hall as [Hgs Hg]. apply Forall_inv in Hg.
  unfold feedGaze. rewrite fold_left_app. cbn [fold_left].
  fold (feedGaze s gs). rewrite IH by (try assumption; lia).
  rewrite feedLeft_snoc.
  rewrite feedLeft_counting
    by (try assumption; rewrite Hzero; unfold leftGazeRequired; lia).
  apply detectGaze_looking_left; try assumption.
  - cbn. lia.
Qed.

(** ** Gaze detectors: a dropout frame *)

Lemma feedLeft_dropout s qs g :
  leftActive s -> leftGazeFrames s = 0 ->
  Forall (fun q => lookingLeft q = true) qs -> length qs = 9%nat ->
  lookingLeft g = false ->
  feedLeft s (qs ++ [g]) = set_leftGazeFrames 7 s.
Proof.
  intros Hact Hzero Hall Hlen Hfail.
  rewrite feedLeft_snoc.
  rewrite feedLeft_counting by (try assumption; unfold leftGazeRequired; lia).
  rewrite detectLeftGaze_decay by first [assumption | cbn; lia].
  rewrite Hzero, Hlen. session_eq.
Qed.

Lemma feedRight_dropout s qs g :
  rightActive s -> rightGazeFrames s = 0 ->
  Forall (fun q => lookingRight q = true) qs -> length qs = 9%nat ->
  lookingRight g = false ->
  feedRight s (qs ++ [g]) = set_rightGazeFrames 7 s.
Proof.
  intros Hact Hzero Hall Hlen Hfail.
  rewrite feedRight_snoc.
  rewrite feedRight_counting by (try assumption; unfold rightGazeRequired; lia).
  rewrite detectRightGaze_decay by first [assumption | cbn; lia].
  rewrite Hzero, Hlen. session_eq.
Qed.

Lemma snoc_cons {A} (l1 : list A) (a : A) (l2 : list A) :
  l1 ++ a :: l2 = (l1 ++ [a]) ++ l2.
Proof. rewrite <- app_assoc. reflexivity. Qed.

(** C3: for the active, not yet completed phase, a frame on which the gaze
    predicate fails changes nothing but the sustain counter, which goes from
    [c] to [max 0 (c - 2)]: down by exactly 2, stopping at 0, so 0 stays 0
    and a counter above 2 stays positive.  Consequently, from counter 0,
    after 9 qualifying frames and 1 failing frame the counter is 7; with
    fewer than 3 further qualifying frames the phase is still active and no
    event has been emitted, and the 3rd further qualifying frame (frame 13)
    completes the phase.  Both detectors behave so. *)
Theorem gaze_dropout_decays_by_two
    (s : Session) (g : GazeRatio) (qs1 qs2 : list GazeRatio) :
  (leftActive s -> lookingLeft g = false ->
     (0 <= leftGazeFrames s ->
        detectLeftGaze s g
        = set_leftGazeFrames (Z.max 0 (leftGazeFrames s - 2)) s) /\
     (leftGazeFrames s = 0 ->
      Forall (fun q => lookingLeft q = true) qs1 -> length qs1 = 9%nat ->
      Forall (fun q => lookingLeft q = true) qs2 ->
        leftGazeFrames (feedLeft s (qs1 ++ [g])) = 7 /\
        ((length qs2 < 3)%nat ->
           leftActive (feedLeft s (qs1 ++ g :: qs2)) /\
           leftGazeFrames (feedLeft s (qs1 ++ g :: qs2)) = 7 + Z.of_nat (length qs2) /\
           events (feedLeft s (qs1 ++ g :: qs2)) = events s) /\
        (length qs2 = 3%nat ->
           length (qs1 ++ g :: qs2) = 13%nat /\
           feedLeft s (qs1 ++ g :: qs2) = leftCompleted s))) /\
  (rightActive s -> lookingRight g = false ->
     (0 <= rightGazeFrames s ->
        detectRightGaze s g
        = set_rightGazeFrames (Z.max 0 (rightGazeFrames s - 2)) s) /\
     (rightGazeFrames s = 0 ->
      Forall (fun q => lookingRight q = true) qs1 -> length qs1 = 9%nat ->
      Forall (fun q => lookingRight q = true) qs2 ->
        rightGazeFrames (feedRight s (qs1 ++ [g])) = 7 /\
        ((length qs2 < 3)%nat ->
           rightActive (feedRight s (qs1 ++ g :: qs2)) /\
           rightGazeFrames (feedRight s (qs1 ++ g :: qs2)) = 7 + Z.of_nat (length qs2) /\
           events (feedRight s (qs1 ++ g :: qs2)) = events s) /\
        (length qs2 = 3%nat ->
           length (qs1 ++ g :: qs2) = 13%nat /\
           feedRight s (qs1 ++ g :: qs2) = rightCompleted s))).
Proof.
  split; intros Hact Hfail; (split; [intros Hpos | intros Hzero Hq1 Hlen Hq2]).
  - apply detectLeftGaze_decay; assumption.
  - assert (Hrun : feedLeft s (qs1 ++ g :: qs2)
                   = feedLeft (set_leftGazeFrames 7 s) qs2).
    { rewrite (snoc_cons qs1 g qs2), feedLeft_app.
      rewrite feedLeft_dropout by assumption. reflexivity. }
    rewrite Hrun, feedLeft_dropout by assumption.
    split; [reflexivity|]. split; intros Hmore.
    + rewrite feedLeft_counting
        by first [assumption | cbn; unfold leftGazeRequired; lia].
      repeat split; try apply Hact.
    + split; [rewrite length_app; cbn [length]; lia|].
      rewrite feedLeft_completes; try assumption.
      * session_eq.
      * intros ->. discriminate.
      * cbn. unfold leftGazeRequired. lia.
  - apply detectRightGaze_decay; assumption.
  - assert (Hrun : feedRight s (qs1 ++ g :: qs2)
                   = feedRight (set_rightGazeFrames 7 s) qs2).
    { rewrite (snoc_cons qs1 g qs2), feedRight_app.
      rewrite feedRight_dropout by assumption. reflexivity. }
    rewrite Hrun, feedRight_dropout by assumption.
    split; [reflexivity|]. split; intros Hmore.
    + rewrite feedRight_counting
        by first [assumption | cbn; unfold rightGazeRequired; lia].
      repeat split; try apply Hact.
    + split; [rewrite length_app; cbn [length]; lia|].
      rewrite feedRight_completes; try assumption.
      * session_eq.
      * intros ->. discriminate.
      * cbn. unfold rightGazeRequired. lia.
Qed.

(** The scenario of the specification on a fresh session: nine frames at
    [h = 0.7], one at [h = 0.5], three more at [h = 0.7]. *)
Lemma gaze_dropout_decays_by_two_witness :
  leftGazeFrames
    (feedLeft newSession (repeat gazeLeft 9 ++ [gazeCenter]))
  = 7
  /\ feedLeft newSession
       (repeat gazeLeft 9
          ++ gazeCenter :: repeat gazeLeft 3)
     = leftCompleted newSession.
Proof.
  destruct (gaze_dropout_decays_by_two newSession gazeCenter
              (repeat gazeLeft 9)
              (repeat gazeLeft 3)) as [Hleft _].
  destruct Hleft as [_ Hrun].
  - split; reflexivity.
  - reflexivity.
  - destruct Hrun as (Hseven & _ & Hdone).
    + reflexivity.
    + repeat constructor.
    + reflexivity.
    + repeat constructor.
    + split; [exact Hseven|]. destruct Hdone as [_ Hdone]; [reflexivity | exact Hdone].
Defined.

(** ** What a step can do to the phase state *)

Lemma phaseState_eq s1 s2 :
  phaseState s1 = phaseState s2 ->
  currentPhase s1 = currentPhase s2 /\ phaseCompleted s1 = phaseCompleted s2 /\
  leftGazeFrames s1 = leftGazeFrames s2 /\ rightGazeFrames s1 = rightGazeFrames s2.
Proof. unfold phaseState. intros [= -> -> -> ->]. repeat split. Qed.

Lemma detectBlink_phaseState s ear :
  phaseState (snd (detectBlink s ear)) = phaseState s.
Proof.
  unfold detectBlink.
  destruct (PrimFloat.ltb _ _); [reflexivity|].
  destruct (Z.leb _ _); reflexivity.
Qed.

Lemma estimateGazePoint_phaseState s leftGaze rightGaze :
  phaseState (snd (estimateGazePoint s leftGaze rightGaze)) = phaseState s.
Proof.
  unfold estimateGazePoint.
  destruct (Nat.ltb _ _); reflexivity.
Qed.

(** The detectors read nothing but the phase state and the gaze point. *)
Lemma detectLeftGaze_phaseState s1 s2 g :
  phaseState s1 = phaseState s2 ->
  phaseState (detectLeftGaze s1 g) = phaseState (detectLeftGaze s2 g).
Proof.
  intros Heq. apply phaseState_eq in Heq as (Hp & Hc & Hl & Hr).
  unfold detectLeftGaze. rewrite Hp, Hc.
  destruct (negb _ || _); [unfold phaseState; congruence|].
  destruct (PrimFloat.ltb _ _).
  - cbn [leftGazeFrames set_leftGazeFrames]. rewrite Hl.
    destruct (Z.leb _ _); unfold phaseState; cbn; congruence.
  - rewrite Hl. destruct (Z.ltb _ _); unfold phaseState; cbn; congruence.
Qed.

Lemma detectRightGaze_phaseState s1 s2 g :
  phaseState s1 = phaseState s2 ->
  phaseState (detectRightGaze s1 g) = phaseState (detectRightGaze s2 g).
Proof.
  intros Heq. apply phaseState_eq in Heq as (Hp & Hc & Hl & Hr).
  unfold detectRightGaze. rewrite Hp, Hc.
  destruct (negb _ || _); [unfold phaseState; congruence|].
  destruct (PrimFloat.ltb _ _).
  - cbn [rightGazeFrames set_rightGazeFrames]. rewrite Hr.
    destruct (Z.leb _ _); unfold phaseState; cbn; congruence.
  - rewrite Hr. destruct (Z.ltb _ _); unfold phaseState; cbn; congruence.
Qed.

(** A frame leaves the phase state alone, or passes it through the two
    detectors, left then right, with one gaze point. *)
Lemma processEyeTracking_phaseState s landmarks width height :
  phaseState (sessionOf (processEyeTracking s landmarks width height)) = phaseState s
  \/ exists g,
       phaseState (sessionOf (processEyeTracking s landmarks width height))
       = phaseState (detectGaze s g).
Proof.
  unfold processEyeTracking.
  destruct (pick LEFT_EYE landmarks) as [leftEye|]; [|left; reflexivity].
  destruct (pick RIGHT_EYE landmarks) as [rightEye|]; [|left; reflexivity].
  destruct (calculateEAR leftEye width height) as [earLeft|]; [|left; reflexivity].
  destruct (calculateEAR rightEye width height) as [earRight|]; [|left; reflexivity].
  set (s1 := set_earHistory _ s).
  pose proof (detectBlink_phaseState s1 ((earLeft + earRight) / 2)%float) as Hblink.
  destruct (detectBlink s1 _) as [isBlinking s2]. cbn [snd] in Hblink.
  set (s3 := if isBlinking then emit BlinkAlert s2 else s2).
  assert (H3 : phaseState s3 = phaseState s).
  { subst s3. destruct isBlinking; exact Hblink. }
  destruct (pick LEFT_IRIS landmarks) as [leftIris|]; [|left; exact H3].
  destruct (pick RIGHT_IRIS landmarks) as [rightIris|]; [|left; exact H3].
  set (leftGaze := calculateGazeRatio leftIris leftEye width height).
  set (rightGaze := calculateGazeRatio rightIris rightEye width height).
  pose proof (estimateGazePoint_phaseState s3 leftGaze rightGaze) as Hgaze.
  destruct (estimateGazePoint s3 leftGaze rightGaze) as [gazePoint s4].
  cbn [snd] in Hgaze.
  right. exists gazePoint.
  assert (H4 : phaseState (detectRightGaze (detectLeftGaze s4 gazePoint) gazePoint)
               = phaseState (detectGaze s gazePoint)).
  { unfold detectGaze. apply detectRightGaze_phaseState, detectLeftGaze_phaseState.
    congruence. }
  destruct (calculatePupilSize leftIris width height); [|exact H4].
  destruct (calculatePupilSize rightIris width height); exact H4.
Qed.

(** A property of the phase state kept by both detectors and by the
    final-message timer is kept by every step. *)
Lemma step_phase_invariant (P : Z * list bool * Z * Z -> Prop) :
  (forall s g, P (phaseState s) -> P (phaseState (detectLeftGaze s g))) ->
  (forall s g, P (phaseState s) -> P (phaseState (detectRightGaze s g))) ->
  (forall s, P (phaseState s) -> P (phaseState (showFinalMessage s))) ->
  forall s s', step s s' -> P (phaseState s) -> P (phaseState s').
Proof.
  intros Hleft Hright Hfinal s s' Hstep HP.
  destruct Hstep as [s landmarks width height|s|s ear|s g|s g].
  - destruct (processEyeTracking_phaseState s landmarks width height) as [->|[g ->]].
    + exact HP.
    + unfold detectGaze. apply Hright, Hleft, HP.
  - apply Hfinal, HP.
  - rewrite detectBlink_phaseState. exact HP.
  - apply Hleft, HP.
  - apply Hright, HP.
Qed.

Lemma reachable_phase_invariant (P : Z * list bool * Z * Z -> Prop) :
  (forall s g, P (phaseState s) -> P (phaseState (detectLeftGaze s g))) ->
  (forall s g, P (phaseState s) -> P (phaseState (detectRightGaze s g))) ->
  (forall s, P (phaseState s) -> P (phaseState (showFinalMessage s))) ->
  forall s0 s, reachable s0 s -> P (phaseState s0) -> P (phaseState s).
Proof.
  intros Hleft Hright Hfinal s0 s Hreach HP.
  induction Hreach as [|s s' _ IH Hstep]; [exact HP|].
  eapply step_phase_invariant; eassumption.
Qed.

(** ** Completed phases *)

Lemma flag_kept_by_detectLeftGaze i s g :
  flagAt (phaseCompleted s) i = true ->
  flagAt (phaseCompleted (detectLeftGaze s g)) i = true.
Proof.
  intros Hset. unfold detectLeftGaze.
  destruct (negb _ || _); [exact Hset|].
  destruct (PrimFloat.ltb _ _).
  - destruct (Z.leb _ _); [|exact Hset].
    cbn. apply flagAt_assignAt_keep, Hset.
  - destruct (Z.ltb _ _); exact Hset.
Qed.

Lemma flag_kept_by_detectRightGaze i s g :
  flagAt (phaseCompleted s) i = true ->
  flagAt (phaseCompleted (detectRightGaze s g)) i = true.
Proof.
  intros Hset. unfold detectRightGaze.
  destruct (negb _ || _); [exact Hset|].
  destruct (PrimFloat.ltb _ _).
  - destruct (Z.leb _ _); [|exact Hset].
    cbn. apply flagAt_assignAt_keep, Hset.
  - destruct (Z.ltb _ _); exact Hset.
Qed.

Lemma flag_kept_by_reachable i s s' :
  reachable s s' ->
  flagAt (phaseCompleted s) i = true -> flagAt (phaseCompleted s') i = true.
Proof.
  intros Hreach.
  apply (reachable_phase_invariant
           (fun ps => flagAt (snd (fst (fst ps))) i = true)); try assumption.
  - intros r g. apply flag_kept_by_detectLeftGaze.
  - intros r g. apply flag_kept_by_detectRightGaze.
  - intros r Hset. exact Hset.
Qed.

(** C6: when a phase is not the current one, or its completion flag is
    true, a call of that phase's detector returns the session as it was,
    whatever the gaze point: the sustain counters, the completion flags, the
    blink state, the current phase and the event log are all unchanged, so
    no further trigger is emitted.  A completion flag that is true stays
    true in every session reached later, by frames, detector calls or the
    final-message timer. *)
Theorem completed_phase_is_inert (s : Session) (g : GazeRatio) :
  (currentPhase s <> 0 \/ flagAt (phaseCompleted s) 0 = true ->
     detectLeftGaze s g = s) /\
  (currentPhase s <> 1 \/ flagAt (phaseCompleted s) 1 = true ->
     detectRightGaze s g = s) /\
  (forall s' i, reachable s s' ->
     flagAt (phaseCompleted s) i = true -> flagAt (phaseCompleted s') i = true).
Proof.
  split; [apply detectLeftGaze_inert|].
  split; [apply detectRightGaze_inert|].
  intros s' i. apply flag_kept_by_reachable.
Qed.

(** After LookLeft has completed, a frame that still looks left changes
    nothing through the left detector. *)
Lemma completed_phase_is_inert_witness :
  detectLeftGaze (leftCompleted newSession) gazeLeft
  = leftCompleted newSession.
Proof.
  destruct (completed_phase_is_inert (leftCompleted newSession)
              gazeLeft) as [Hleft _].
  apply Hleft. right. reflexivity.
Defined.

(** ** Range of the sustain counters *)

Lemma detectLeftGaze_range s g :
  countersInRange s -> countersInRange (detectLeftGaze s g).
Proof.
  unfold countersInRange, detectLeftGaze, leftGazeRequired, rightGazeRequired.
  intros [Hl Hr].
  destruct (negb _ || _); [split; assumption|].
  destruct (PrimFloat.ltb _ _).
  - cbn [leftGazeFrames set_leftGazeFrames].
    destruct (Z.leb_spec 10 (leftGazeFrames s + 1)); cbn; lia.
  - destruct (Z.ltb_spec 0 (leftGazeFrames s)); cbn; lia.
Qed.

Lemma detectRightGaze_range s g :
  countersInRange s -> countersInRange (detectRightGaze s g).
Proof.
  unfold countersInRange, detectRightGaze, leftGazeRequired, rightGazeRequired.
  intros [Hl Hr].
  destruct (negb _ || _); [split; assumption|].
  destruct (PrimFloat.ltb _ _).
  - cbn [rightGazeFrames set_rightGazeFrames].
    destruct (Z.leb_spec 10 (rightGazeFrames s + 1)); cbn; lia.
  - destruct (Z.ltb_spec 0 (rightGazeFrames s)); cbn; lia.
Qed.

Lemma reachable_range s0 s :
  reachable s0 s -> countersInRange s0 -> countersInRange s.
Proof.
  intros Hreach.
  apply (reachable_phase_invariant
           (fun ps => 0 <= snd (fst ps) < leftGazeRequired /\
                      0 <= snd ps < rightGazeRequired)); try assumption.
  - intros r g. apply detectLeftGaze_range.
  - intros r g. apply detectRightGaze_range.
  - intros r Hr. exact Hr.
Qed.

(** C9: in every session reached from a new one (by frames, detector calls
    or the final-message timer), and again after one more call of either
    gaze detector, both sustain counters are integers in [0, 10): at least 0
    and strictly below the required count.  A session whose counters are in
    that range keeps them there through any call of either detector. *)
Theorem sustain_counters_in_range (s : Session) (g : GazeRatio) :
  (reachable newSession s ->
     0 <= leftGazeFrames s < leftGazeRequired /\
     0 <= rightGazeFrames s < rightGazeRequired /\
     0 <= leftGazeFrames (detectLeftGaze s g) < leftGazeRequired /\
     0 <= rightGazeFrames (detectRightGaze s g) < rightGazeRequired) /\
  (0 <= leftGazeFrames s < leftGazeRequired ->
     0 <= leftGazeFrames (detectLeftGaze s g) < leftGazeRequired) /\
  (0 <= rightGazeFrames s < rightGazeRequired ->
     0 <= rightGazeFrames (detectRightGaze s g) < rightGazeRequired).
Proof.
  split; [|split].
  - intros Hreach.
    assert (Hs : countersInRange s).
    { apply (reachable_range newSession); [exact Hreach|].
      unfold countersInRange, leftGazeRequired, rightGazeRequired. cbn. lia. }
    pose proof (detectLeftGaze_range s g Hs) as [Hl _].
    pose proof (detectRightGaze_range s g Hs) as [_ Hr].
    destruct Hs as [Hl0 Hr0]. repeat split; lia.
  - unfold detectLeftGaze, leftGazeRequired. intros Hl.
    destruct (negb _ || _); [exact Hl|].
    destruct (PrimFloat.ltb _ _).
    + cbn [leftGazeFrames set_leftGazeFrames].
      destruct (Z.leb_spec 10 (leftGazeFrames s + 1)); cbn; lia.
    + destruct (Z.ltb_spec 0 (leftGazeFrames s)); cbn; lia.
  - unfold detectRightGaze, rightGazeRequired. intros Hr.
    destruct (negb _ || _); [exact Hr|].
    destruct (PrimFloat.ltb _ _).
    + cbn [rightGazeFrames set_rightGazeFrames].
      destruct (Z.leb_spec 10 (rightGazeFrames s + 1)); cbn; lia.
    + destruct (Z.ltb_spec 0 (rightGazeFrames s)); cbn; lia.
Qed.

(** One call on a new session, and the call after it. *)
Lemma sustain_counters_in_range_witness :
  (0 <= leftGazeFrames (detectLeftGaze newSession gazeLeft)
   < leftGazeRequired) /\
  (0 <= leftGazeFrames
          (detectLeftGaze (detectLeftGaze newSession gazeLeft)
             gazeLeft) < leftGazeRequired) /\
  (0 <= rightGazeFrames
          (detectRightGaze (detectLeftGaze newSession gazeLeft)
             gazeLeft) < rightGazeRequired).
Proof.
  destruct (sustain_counters_in_range
              (detectLeftGaze newSession gazeLeft)
              gazeLeft) as (Hreach & Hleft & Hright).
  destruct Hreach as (Hl & _ & _ & _).
  { eapply reach_step; [apply reach_refl | apply step_left]. }
  split; [exact Hl|]. split.
  - apply Hleft. vm_compute. split; [discriminate | reflexivity].
  - apply Hright. vm_compute. split; [discriminate | reflexivity].
Defined.

(** ** Blink detector *)

Lemma detectBlink_below s ear :
  belowThreshold ear = true ->
  detectBlink s ear = (false, set_blinkFrameCounter (blinkFrameCounter s + 1) s).
Proof. unfold detectBlink, belowThreshold. intros ->. reflexivity. Qed.

Lemma detectBlink_open s ear :
  belowThreshold ear = false ->
  fst (detectBlink s ear) = (2 <=? blinkFrameCounter s) /\
  blinkFrameCounter (snd (detectBlink s ear)) = 0 /\
  blinkCount (snd (detectBlink s ear))
  = blinkCount s + (if 2 <=? blinkFrameCounter s then 1 else 0).
Proof.
  unfold detectBlink, belowThreshold, BLINK_CONSEC_FRAMES. intros ->.
  destruct (2 <=? blinkFrameCounter s); cbn; repeat split; lia.
Qed.

Lemma feedBlink_cons s ear rest :
  feedBlink s (ear :: rest)
  = (fst (detectBlink s ear) :: fst (feedBlink (snd (detectBlink s ear)) rest),
     snd (feedBlink (snd (detectBlink s ear)) rest)).
Proof.
  cbn [feedBlink]. destruct (detectBlink s ear) as [flag s1]. cbn [fst snd].
  destruct (feedBlink s1 rest) as [flags s2]. reflexivity.
Qed.

Lemma feedBlink_app l1 : forall s l2,
  feedBlink s (l1 ++ l2)
  = (fst (feedBlink s l1) ++ fst (feedBlink (snd (feedBlink s l1)) l2),
     snd (feedBlink (snd (feedBlink s l1)) l2)).
Proof.
  induction l1 as [|ear l1 IH]; intros s l2.
  - cbn. destruct (feedBlink s l2). reflexivity.
  - rewrite <- app_comm_cons, !feedBlink_cons, IH. reflexivity.
Qed.

Lemma feedBlink_length l : forall s, length (fst (feedBlink s l)) = length l.
Proof.
  induction l as [|ear l IH]; intros s; [reflexivity|].
  rewrite feedBlink_cons. cbn. rewrite IH. reflexivity.
Qed.

Lemma maximalRuns_run n rest :
  maximalRuns (replicate (S n) true ++ false :: rest) = S n :: maximalRuns rest.
Proof.
  induction n as [|n IH]; [reflexivity|].
  change (replicate (S (S n)) true ++ false :: rest)
    with (true :: (replicate (S n) true ++ false :: rest)).
  cbn [maximalRuns]. rewrite IH. reflexivity.
Qed.

Lemma maximalRuns_open n : maximalRuns (replicate (S n) true) = [S n].
Proof.
  induction n as [|n IH]; [reflexivity|].
  change (replicate (S (S n)) true) with (true :: replicate (S n) true).
  cbn [maximalRuns]. rewrite IH. reflexivity.
Qed.

Lemma leadingRun_closed l rest : leadingRun (l ++ false :: rest) = leadingRun l.
Proof.
  induction l as [|[|] l IH]; cbn; [reflexivity| |reflexivity].
  rewrite IH. reflexivity.
Qed.

Lemma trailingRun_closed l rest : trailingRun (l ++ false :: rest) = trailingRun rest.
Proof.
  unfold trailingRun. rewrite rev_app_distr. cbn [rev].
  rewrite <- app_assoc. cbn [app]. apply leadingRun_closed.
Qed.

Lemma leadingRun_replicate n : leadingRun (replicate n true) = n.
Proof. induction n as [|n IH]; cbn; [|rewrite IH]; reflexivity. Qed.

Lemma rev_replicate_true n : rev (replicate n true) = replicate n true.
Proof.
  induction n as [|n IH]; [reflexivity|].
  cbn [replicate rev]. rewrite IH.
  clear IH. induction n as [|n IH]; [reflexivity|].
  cbn [replicate app]. rewrite IH. reflexivity.
Qed.

Lemma trailingRun_replicate n : trailingRun (replicate n true) = n.
Proof. unfold trailingRun. rewrite rev_replicate_true. apply leadingRun_replicate. Qed.

Lemma replicate_true_shift n (l : list bool) :
  replicate (S n) true ++ l = replicate n true ++ true :: l.
Proof.
  induction n as [|n IH]; [reflexivity|].
  change (replicate (S (S n)) true ++ l) with (true :: (replicate (S n) true ++ l)).
  rewrite IH. reflexivity.
Qed.

Lemma blinkEvents_cons flag flags :
  blinkEvents (flag :: flags) = ((if flag then 1 else 0) + blinkEvents flags)%nat.
Proof. unfold blinkEvents. destruct flag; reflexivity. Qed.

Lemma longRuns_cons n runs :
  longRuns (n :: runs) = ((if (2 <=? n)%nat then 1 else 0) + longRuns runs)%nat.
Proof. unfold longRuns. cbn [List.filter]. destruct (2 <=? n)%nat; reflexivity. Qed.

Lemma maximalRuns_prefix n rest :
  longRuns (maximalRuns (replicate n true ++ false :: rest))
  = ((if (2 <=? n)%nat then 1 else 0) + longRuns (maximalRuns rest))%nat.
Proof.
  destruct n as [|n]; [reflexivity|].
  rewrite maximalRuns_run. apply longRuns_cons.
Qed.

(** The detector started with [c] frames already counted behaves as if [c]
    samples below the threshold had come first. *)
Lemma feedBlink_runs ears : forall s,
  0 <= blinkFrameCounter s ->
  let below := replicate (Z.to_nat (blinkFrameCounter s)) true
               ++ map belowThreshold ears in
  blinkFrameCounter (snd (feedBlink s ears)) = Z.of_nat (trailingRun below) /\
  blinkCount (snd (feedBlink s ears))
  = blinkCount s + Z.of_nat (blinkEvents (fst (feedBlink s ears))) /\
  (blinkEvents (fst (feedBlink s ears))
   + (if (2 <=? trailingRun below)%nat then 1 else 0)
   = longRuns (maximalRuns below))%nat.
Proof.
  induction ears as [|ear rest IH]; intros s Hpos below.
  - subst below. cbn [map feedBlink fst snd]. rewrite app_nil_r, trailingRun_replicate.
    split; [lia|]. split; [cbn; lia|].
    destruct (Z.to_nat (blinkFrameCounter s)) as [|n]; [reflexivity|].
    rewrite maximalRuns_open, longRuns_cons. cbn. lia.
  - rewrite feedBlink_cons. cbn [fst snd]. subst below. cbn [map].
    destruct (belowThreshold ear) eqn:Hbelow.
    + rewrite detectBlink_below by exact Hbelow. cbn [fst snd].
      specialize (IH (set_blinkFrameCounter (blinkFrameCounter s + 1) s)).
      cbv zeta in IH.
      cbn [blinkFrameCounter blinkCount set_blinkFrameCounter] in IH.
      replace (Z.to_nat (blinkFrameCounter s + 1))
        with (S (Z.to_nat (blinkFrameCounter s))) in IH by lia.
      rewrite replicate_true_shift in IH.
      destruct IH as (Hcounter & Hcount & Hruns); [lia|].
      rewrite blinkEvents_cons. cbn [Nat.add].
      repeat split; assumption.
    + destruct (detectBlink_open s ear Hbelow) as (Hflag & Hzero & Hcount0).
      specialize (IH (snd (detectBlink s ear))).
      cbv zeta in IH. rewrite Hzero in IH.
      change (Z.to_nat 0) with 0%nat in IH. cbn [replicate app] in IH.
      destruct IH as (Hcounter & Hcount & Hruns); [lia|].
      rewrite trailingRun_closed, maximalRuns_prefix, blinkEvents_cons, Hflag.
      assert (Hnat : (2 <=? blinkFrameCounter s)
                     = (2 <=? Z.to_nat (blinkFrameCounter s))%nat).
      { destruct (Z.leb_spec 2 (blinkFrameCounter s));
          destruct (Nat.leb_spec 2 (Z.to_nat (blinkFrameCounter s))); (reflexivity || lia). }
      split; [exact Hcounter|]. split.
      * rewrite Hcount, Hcount0.
        destruct (2 <=? blinkFrameCounter s); lia.
      * rewrite <- Hnat, <- Hruns.
        destruct (2 <=? blinkFrameCounter s); lia.
Qed.

(** The open run has at least two samples exactly when the sequence ends
    with two samples below the threshold. *)
Lemma trailingRun_two (pre : list float) :
  (2 <= trailingRun (map belowThreshold pre))%nat <->
  exists p a b, pre = p ++ [a; b] /\
                belowThreshold a = true /\ belowThreshold b = true.
Proof.
  unfold trailingRun. rewrite <- map_rev. split.
  - intros Hrun.
    destruct (rev pre) as [|b [|a q]] eqn:Hrev.
    + cbn in Hrun. lia.
    + cbn [map leadingRun] in Hrun. destruct (belowThreshold b); lia.
    + exists (rev q), a, b.
      assert (Hpre : pre = rev q ++ [a; b]).
      { rewrite <- (rev_involutive pre), Hrev. cbn [rev].
        rewrite <- app_assoc. reflexivity. }
      cbn [map leadingRun] in Hrun.
      destruct (belowThreshold b); [|lia].
      destruct (belowThreshold a); [|lia].
      repeat split. exact Hpre.
  - intros (p & a & b & -> & Ha & Hb).
    rewrite rev_app_distr. cbn [rev app map leadingRun]. rewrite Ha, Hb. lia.
Qed.

(** C1, as stated, fails on a sequence that stops inside a run: after
    [0.3, 0.1, 0.1] there is one maximal run of length 2 below the
    threshold, and no blink has been counted. *)
Lemma blink_count_misses_open_run :
  blinkCount (snd (feedBlink newSession [0.3; 0.1; 0.1]%float))
  <> Z.of_nat (longRuns (maximalRuns (map belowThreshold [0.3; 0.1; 0.1]%float))).
Proof. vm_compute. discriminate. Qed.

(** C1 (amended): for every sequence of EAR samples fed to the detector of
    a new session (threshold 0.21, minimum run 2, counter 0), [blinkCount]
    is the number of frames on which a blink event was emitted, and that
    number, plus one if the sequence ends inside a run of at least 2 samples
    below the threshold, is the number of maximal runs of length at least 2.
    So every such run that has ended is counted exactly once, runs of length
    1 are never counted, and the run still open at the end is not counted
    yet.  An event is emitted on a frame exactly when its sample is not
    strictly below the threshold and the two samples before it are: on the
    first frame after a run of length at least 2. *)
Theorem blink_events_count_closed_runs (ears : list float) :
  blinkCount (snd (feedBlink newSession ears))
  = Z.of_nat (blinkEvents (fst (feedBlink newSession ears))) /\
  (blinkEvents (fst (feedBlink newSession ears))
   + (if (2 <=? trailingRun (map belowThreshold ears))%nat then 1 else 0)
   = longRuns (maximalRuns (map belowThreshold ears)))%nat /\
  (forall pre ear post, ears = pre ++ ear :: post ->
     (fst (feedBlink newSession ears) !! length pre = Some true <->
      belowThreshold ear = false /\
      exists p a b, pre = p ++ [a; b] /\
                    belowThreshold a = true /\ belowThreshold b = true)).
Proof.
  pose proof (feedBlink_runs ears newSession) as Hruns.
  cbv zeta in Hruns. cbn [blinkFrameCounter blinkCount newSession] in Hruns.
  change (Z.to_nat 0) with 0%nat in Hruns. cbn [replicate app] in Hruns.
  destruct Hruns as (_ & Hcount & Hlong); [lia|].
  split; [rewrite Hcount; lia|]. split; [exact Hlong|].
  intros pre ear post ->.
  rewrite feedBlink_app. cbn [fst].
  rewrite lookup_app_r by (rewrite feedBlink_length; lia).
  rewrite feedBlink_length, Nat.sub_diag, feedBlink_cons. cbn [fst lookup list_lookup].
  pose proof (feedBlink_runs pre newSession) as Hpre.
  cbv zeta in Hpre. cbn [blinkFrameCounter blinkCount newSession] in Hpre.
  change (Z.to_nat 0) with 0%nat in Hpre. cbn [replicate app] in Hpre.
  destruct Hpre as (Hcounter & _ & _); [lia|].
  rewrite <- trailingRun_two.
  destruct (belowThreshold ear) eqn:Hbelow.
  - rewrite detectBlink_below by exact Hbelow. cbn [fst].
    split; [discriminate | intros [Hno _]; discriminate].
  - destruct (detectBlink_open (snd (feedBlink newSession pre)) ear Hbelow)
      as (Hflag & _ & _).
    rewrite Hflag, Hcounter.
    destruct (Z.leb_spec 2 (Z.of_nat (trailingRun (map belowThreshold pre)))).
    + split; [intros _; split; [reflexivity | lia] | reflexivity].
    + split; [discriminate | intros [_ Hrun]; lia].
Qed.

(** The first scenario of the specification: the event is emitted on
    frame 5, where the EAR is back at 0.3 after three samples at 0.1. *)
Lemma blink_events_count_closed_runs_witness :
  fst (feedBlink newSession [0.3; 0.3; 0.1; 0.1; 0.1; 0.3; 0.3]%float) !! 5%nat
  = Some true.
Proof.
  destruct (blink_events_count_closed_runs
              [0.3; 0.3; 0.1; 0.1; 0.1; 0.3; 0.3]%float) as (_ & _ & Hframe).
  apply (Hframe [0.3; 0.3; 0.1; 0.1; 0.1]%float 0.3%float [0.3]%float).
  - reflexivity.
  - split; [reflexivity|].
    exists [0.3; 0.3; 0.1]%float, 0.1%float, 0.1%float.
    repeat split.
Defined.

(** The two scenarios of the specification. *)
Lemma blink_scenario_one_event :
  fst (feedBlink newSession [0.3; 0.3; 0.1; 0.1; 0.1; 0.3; 0.3]%float)
  = [false; false; false; false; false; true; false]
  /\ blinkCount (snd (feedBlink newSession [0.3; 0.3; 0.1; 0.1; 0.1; 0.3; 0.3]%float))
     = 1.
Proof. split; reflexivity. Qed.

Lemma blink_scenario_short_dip :
  fst (feedBlink newSession [0.3; 0.1; 0.3]%float) = [false; false; false]
  /\ blinkCount (snd (feedBlink newSession [0.3; 0.1; 0.3]%float)) = 0.
Proof. split; reflexivity. Qed.

(** A NaN sample (the EAR of an eye whose six landmarks coincide) is not
    below the threshold: it ends a run and carries the event. *)
Lemma blink_on_nan_sample :
  fst (feedBlink newSession [0.1; 0.1; nan]%float) = [false; false; true].
Proof. reflexivity. Qed.

(** ** Eye aspect ratio *)

(** C5: on every six-point eye input and every frame size, [calculateEAR]
    returns the closed form [(v1 + v2) / (2 * h)] of the scaled points, bit
    for bit: [v1] is the distance between scaled points 1 and 5, [v2]
    between 2 and 4, [h] between 0 and 3. *)
Theorem calculateEAR_closed_form (eyeLandmarks : list Landmark) (width height : float) :
  length eyeLandmarks = 6%nat ->
  exists p0 p1 p2 p3 p4 p5,
    eyeLandmarks = [p0; p1; p2; p3; p4; p5] /\
    calculateEAR eyeLandmarks width height
    = Some (closedFormEAR p0 p1 p2 p3 p4 p5 width height).
Proof.
  intros Hsix.
  destruct eyeLandmarks as [|p0 [|p1 [|p2 [|p3 [|p4 [|p5 [|p6 rest]]]]]]];
    try discriminate Hsix.
  exists p0, p1, p2, p3, p4, p5. split; reflexivity.
Qed.

Lemma calculateEAR_closed_form_witness :
  exists p0 p1 p2 p3 p4 p5,
    syntheticEye = [p0; p1; p2; p3; p4; p5] /\
    calculateEAR syntheticEye 1%float 1%float
    = Some (closedFormEAR p0 p1 p2 p3 p4 p5 1%float 1%float).
Proof.
  apply (calculateEAR_closed_form syntheticEye 1%float 1%float).
  reflexivity.
Defined.

(** On the synthetic geometry the EAR is (4 + 4) / (2 * 10) = 0.4. *)
Lemma calculateEAR_synthetic :
  calculateEAR syntheticEye 1%float 1%float = Some 0.4%float
  /\ (closedFormEAR (mkPoint 0 0) (mkPoint 3 (-2)) (mkPoint 7 (-2))
        (mkPoint 10 0) (mkPoint 7 2) (mkPoint 3 2) 1 1 = 0.4)%float.
Proof. split; reflexivity. Qed.

(** With fewer than six points a read past the end throws; points after
    the sixth are ignored. *)
Lemma calculateEAR_needs_six (eye : list Landmark) (width height : float) :
  (length eye < 6)%nat -> calculateEAR eye width height = None.
Proof.
  intros Hshort.
  destruct eye as [|p0 [|p1 [|p2 [|p3 [|p4 [|p5 rest]]]]]];
    try reflexivity.
  cbn in Hshort. lia.
Qed.

(** C8: [calculateEAR] divides without a guard.  On a six-point input
    whose scaled corner points 0 and 3 are at distance [h == 0], the result
    is returned as it comes out of the division: [+Infinity] when
    [v1 + v2 > 0] and NaN when [v1 + v2 == 0], and in every case a value
    that is [+Infinity] or NaN; nothing is clamped and nothing is thrown. *)
Theorem calculateEAR_zero_width (p0 p1 p2 p3 p4 p5 : Landmark) (width height : float) :
  (distance (toPixels width height p0) (toPixels width height p3) =? 0)%float = true ->
  ((0 <? distance (toPixels width height p1) (toPixels width height p5)
         + distance (toPixels width height p2) (toPixels width height p4))%float = true ->
     calculateEAR [p0; p1; p2; p3; p4; p5] width height = Some infinity) /\
  ((distance (toPixels width height p1) (toPixels width height p5)
    + distance (toPixels width height p2) (toPixels width height p4) =? 0)%float = true ->
     calculateEAR [p0; p1; p2; p3; p4; p5] width height = Some nan) /\
  (calculateEAR [p0; p1; p2; p3; p4; p5] width height = Some infinity \/
   calculateEAR [p0; p1; p2; p3; p4; p5] width height = Some nan).
Proof.
  intros Hzero.
  apply nonneg_zero in Hzero; [|apply distance_nonneg].
  unfold calculateEAR. cbn [map lookup list_lookup mbind option_bind].
  rewrite Hzero. change (2 * 0)%float with 0%float.
  split; [|split].
  - intros Hv. rewrite div_positive_by_zero by exact Hv. reflexivity.
  - intros Hv. rewrite div_zero_by_zero by exact Hv. reflexivity.
  - set (v1 := distance (toPixels width height p1) (toPixels width height p5)).
    set (v2 := distance (toPixels width height p2) (toPixels width height p4)).
    destruct (div_nonneg_by_zero (v1 + v2)%float) as [-> | ->]; auto.
    rewrite add_spec. apply SF64add_nonneg; apply distance_nonneg.
Qed.

(** Coincident corners at (0.5, 0.5) in a 640 x 480 frame: with the lids
    apart the EAR is [+Infinity], with all six points equal it is NaN. *)
Lemma calculateEAR_zero_width_witness :
  calculateEAR
    [mkPoint 0.5 0.5; mkPoint 0.5 0.25; mkPoint 0.5 0.25;
     mkPoint 0.5 0.5; mkPoint 0.5 0.75; mkPoint 0.5 0.75]%float 640 480
  = Some infinity
  /\ calculateEAR
       [mkPoint 0.5 0.5; mkPoint 0.5 0.5; mkPoint 0.5 0.5;
        mkPoint 0.5 0.5; mkPoint 0.5 0.5; mkPoint 0.5 0.5]%float 640 480
     = Some nan.
Proof.
  split.
  - apply (calculateEAR_zero_width
             (mkPoint 0.5 0.5) (mkPoint 0.5 0.25) (mkPoint 0.5 0.25)
             (mkPoint 0.5 0.5) (mkPoint 0.5 0.75) (mkPoint 0.5 0.75) 640 480)%float.
    + reflexivity.
    + reflexivity.
  - apply (calculateEAR_zero_width
             (mkPoint 0.5 0.5) (mkPoint 0.5 0.5) (mkPoint 0.5 0.5)
             (mkPoint 0.5 0.5) (mkPoint 0.5 0.5) (mkPoint 0.5 0.5) 640 480)%float.
    + reflexivity.
    + reflexivity.
Defined.

(** ** Iris centre *)


(** Multiplying by 1 changes no binary64 value: the product of the
    mantissas is shifted back by the 52 bits of the mantissa of 1, with
    nothing to round. *)
Section Binary64One.






End Binary64One.

(** The difference is not bounded either: two points at [x = 1e308] and a
    width of 0.5 make the sum of the normalized coordinates overflow, so
    that [getCenter] returns [+Infinity] where the centroid of the scaled
    points is 5e307. *)
Lemma getCenter_overflow_gap :
  (x (getCenter [mkPoint 1e308 0; mkPoint 1e308 0] 0.5 0.5) = infinity)%float /\
  (x (centroid (map (toPixels 0.5 0.5) [mkPoint 1e308 0; mkPoint 1e308 0]))
   = 5e307)%float.
Proof. split; reflexivity. Qed.



(** ** Gaze ratio *)

(** C4, as stated, fails in binary64: for an iris centred in an open eye of
    a 640 x 480 frame, the returned [h] is 0.49999999999999889, and the
    formula over the centroid of the scaled iris points gives
    0.49999999999999961. *)
Lemma calculateGazeRatio_not_scaled_centroid :
  calculateGazeRatio sampleIris sampleEye 640%float 480%float
  <> computeGazeRatio sampleIris sampleEye 640%float 480%float.
Proof.
  intros Heq.
  assert (Hlt : (h (calculateGazeRatio sampleIris sampleEye 640 480)
                 <? h (computeGazeRatio sampleIris sampleEye 640 480))%float
                = false).
  { rewrite Heq. reflexivity. }
  vm_compute in Hlt. discriminate.
Qed.

Lemma calculateGazeRatio_unfold irisLandmarks eyeLandmarks width height :
  calculateGazeRatio irisLandmarks eyeLandmarks width height
  = if (0 <? eyeWidth eyeLandmarks width height)%float
       && (0 <? eyeHeight eyeLandmarks width height)%float
    then {| h := ((x (getCenter irisLandmarks width height)
                   - eyeMinX eyeLandmarks width height)
                  / eyeWidth eyeLandmarks width height)%float;
            v := ((y (getCenter irisLandmarks width height)
                   - eyeMinY eyeLandmarks width height)
                  / eyeHeight eyeLandmarks width height)%float |}
    else {| h := 0.5; v := 0.5 |}.
Proof. reflexivity. Qed.

(** C4 (amended): [calculateGazeRatio] returns a value on every input.  It
    returns exactly [{h: 0.5, v: 0.5}] when [eyeWidth <= 0] or
    [eyeHeight <= 0], and also when one of the two is NaN.  When
    [eyeWidth > 0] and [eyeHeight > 0] it returns
    [h = (irisCenter.x - minX) / eyeWidth] and
    [v = (irisCenter.y - minY) / eyeHeight], where [minX], [minY] are the
    componentwise minima of the scaled eye points and [irisCenter] is the
    value of [getCenter]: the mean of the normalized iris coordinates,
    multiplied by the width (resp. height), which in binary64 can differ in
    the last bits from the centroid of the scaled iris points.  No other
    case exists. *)
Theorem calculateGazeRatio_cases
    (irisLandmarks eyeLandmarks : list Landmark) (width height : float) :
  ((eyeWidth eyeLandmarks width height <=? 0)%float = true \/
   (eyeHeight eyeLandmarks width height <=? 0)%float = true \/
   is_nan (eyeWidth eyeLandmarks width height) = true \/
   is_nan (eyeHeight eyeLandmarks width height) = true ->
     calculateGazeRatio irisLandmarks eyeLandmarks width height
     = {| h := 0.5; v := 0.5 |}) /\
  ((0 <? eyeWidth eyeLandmarks width height)%float = true ->
   (0 <? eyeHeight eyeLandmarks width height)%float = true ->
     calculateGazeRatio irisLandmarks eyeLandmarks width height
     = {| h := ((x (getCenter irisLandmarks width height)
                 - eyeMinX eyeLandmarks width height)
                / eyeWidth eyeLandmarks width height)%float;
          v := ((y (getCenter irisLandmarks width height)
                 - eyeMinY eyeLandmarks width height)
                / eyeHeight eyeLandmarks width height)%float |}) /\
  (((0 <? eyeWidth eyeLandmarks width height)%float = true /\
    (0 <? eyeHeight eyeLandmarks width height)%float = true) \/
   (eyeWidth eyeLandmarks width height <=? 0)%float = true \/
   (eyeHeight eyeLandmarks width height <=? 0)%float = true \/
   is_nan (eyeWidth eyeLandmarks width height) = true \/
   is_nan (eyeHeight eyeLandmarks width height) = true).
Proof.
  rewrite calculateGazeRatio_unfold.
  split; [|split].
  - intros [Hw|[Hh|[Hw|Hh]]].
    + rewrite (leb_zero_not_positive _ Hw). reflexivity.
    + rewrite (leb_zero_not_positive _ Hh), andb_false_r. reflexivity.
    + rewrite (nan_not_positive _ Hw). reflexivity.
    + rewrite (nan_not_positive _ Hh), andb_false_r. reflexivity.
  - intros -> ->. reflexivity.
  - destruct (positive_or_not (eyeWidth eyeLandmarks width height))
      as [Hw|[Hw|Hw]]; auto.
    destruct (positive_or_not (eyeHeight eyeLandmarks width height))
      as [Hh|[Hh|Hh]]; auto.
Qed.

(** An eye whose six landmarks coincide has a 0 x 0 bounding box and gets
    the neutral value; [sampleEye] is open and gets the ratio. *)
Lemma calculateGazeRatio_cases_witness :
  calculateGazeRatio sampleIris collapsedEye 640%float 480%float
  = {| h := 0.5; v := 0.5 |}
  /\ calculateGazeRatio sampleIris sampleEye 640%float 480%float
     = {| h := ((x (getCenter sampleIris 640 480) - eyeMinX sampleEye 640 480)
                / eyeWidth sampleEye 640 480)%float;
          v := ((y (getCenter sampleIris 640 480) - eyeMinY sampleEye 640 480)
                / eyeHeight sampleEye 640 480)%float |}.
Proof.
  split.
  - apply (calculateGazeRatio_cases sampleIris collapsedEye 640%float 480%float).
    left. reflexivity.
  - apply (calculateGazeRatio_cases sampleIris sampleEye 640%float 480%float);
      reflexivity.
Defined.

(** A NaN extent is neither positive nor at most zero: the code returns the
    neutral value, where the formula of the specification's "otherwise"
    would give NaN. *)
Lemma calculateGazeRatio_nan_extent :
  calculateGazeRatio sampleIris nanEye 640%float 480%float
  = {| h := 0.5; v := 0.5 |}
  /\ is_nan (h (computeGazeRatio sampleIris nanEye 640%float 480%float)) = true.
Proof. split; reflexivity. Qed.

(** * Further properties of the code *)

(** ** Binary64: signs and symmetry *)

Section Binary64Signs.
Local Open Scope float_scope.

Lemma binary_round_aux_abs sx sy mx ex lx :
  SFabs (binary_round_aux prec emax sx mx ex lx)
  = SFabs (binary_round_aux prec emax sy mx ex lx).
Proof.
  unfold binary_round_aux.
  destruct (shr_fexp prec emax mx ex lx) as [mrs e'].
  destruct (shr_fexp prec emax _ e' loc_Exact) as [mrs' e''].
  destruct (shr_m mrs'); [reflexivity| |reflexivity].
  destruct (Z.leb _ _); reflexivity.
Qed.

Lemma binary_normalize_opp_abs m e :
  SFabs (binary_normalize prec emax (- m) e false)
  = SFabs (binary_normalize prec emax m e false).
Proof.
  destruct m as [|p|p]; [reflexivity| |].
  - change (- Z.pos p)%Z with (Z.neg p).
    unfold binary_normalize, binary_round.
    destruct (shl_align _ _ _) as [mz ez]. apply binary_round_aux_abs.
  - change (- Z.neg p)%Z with (Z.pos p).
    unfold binary_normalize, binary_round.
    destruct (shl_align _ _ _) as [mz ez]. apply binary_round_aux_abs.
Qed.

(** Swapping the operands of a subtraction changes at most the sign. *)
Lemma SF64sub_swap_abs a b : SFabs (SF64sub a b) = SFabs (SF64sub b a).
Proof.
  destruct a as [sa|sa| |sa ma ea], b as [sb|sb| |sb mb eb];
    try (destruct sa, sb; reflexivity); try (destruct sa; reflexivity);
    try (destruct sb; reflexivity); try reflexivity.
  unfold SF64sub, SFsub. rewrite (Z.min_comm eb ea).
  set (A := cond_Zopp sa _). set (B := cond_Zopp sb _).
  replace (B - A)%Z with (- (A - B))%Z by lia.
  symmetry. apply binary_normalize_opp_abs.
Qed.

Lemma SF64mul_self_abs f g : SFabs f = SFabs g -> SF64mul f f = SF64mul g g.
Proof.
  destruct f as [s|s| |s m e], g as [t|t| |t n k]; cbn [SFabs];
    intros Habs; try discriminate; try reflexivity.
  - destruct s, t; reflexivity.
  - destruct s, t; reflexivity.
  - injection Habs as -> ->. destruct s, t; reflexivity.
Qed.

Lemma square_of_difference_sym (a b : float) :
  (a - b) * (a - b) = (b - a) * (b - a).
Proof.
  apply Prim2SF_inj. rewrite !mul_spec, !sub_spec.
  apply SF64mul_self_abs, SF64sub_swap_abs.
Qed.

Lemma SF64mul_nonneg a b :
  signNonneg a -> signNonneg b -> signNonneg (SF64mul a b).
Proof.
  destruct a as [sa|sa| |sa ma ea], b as [sb|sb| |sb mb eb]; cbn;
    intros Ha Hb; subst; try exact I; try reflexivity.
  pose proof (binary_round_aux_sign false (Z.pos (ma * mb)) (ea + eb) loc_Exact) as H.
  destruct (binary_round_aux _ _ _ _ _ _); try exact I; exact H.
Qed.

Lemma SF64div_nonneg a b :
  signNonneg a -> signNonneg b -> signNonneg (SF64div a b).
Proof.
  destruct a as [sa|sa| |sa ma ea], b as [sb|sb| |sb mb eb]; cbn;
    intros Ha Hb; subst; try exact I; try reflexivity.
  unfold SF64div, SFdiv.
  destruct (SFdiv_core_binary prec emax (Z.pos ma) ea (Z.pos mb) eb) as [[mz ez] lz].
  pose proof (binary_round_aux_sign false mz ez lz) as H.
  cbn [xorb].
  destruct (binary_round_aux _ _ _ _ _ _); try exact I; exact H.
Qed.

(** A number without sign bit is not below zero. *)
Lemma nonneg_not_negative (f : float) :
  signNonneg (Prim2SF f) -> (f <? 0) = false.
Proof.
  rewrite ltb_spec. change (Prim2SF 0) with (S754_zero false).
  destruct (Prim2SF f) as [s|s| |s m e]; cbn; intros Hs; subst; reflexivity.
Qed.

(** The difference of a number with itself is [+0] or NaN. *)
Lemma sub_self_zero_or_nan (a : float) : a - a = 0 \/ a - a = nan.
Proof.
  assert (Hsf : SF64sub (Prim2SF a) (Prim2SF a) = S754_zero false
                \/ SF64sub (Prim2SF a) (Prim2SF a) = S754_nan).
  { destruct (Prim2SF a) as [s|s| |s m e].
    - left. destruct s; reflexivity.
    - right. destruct s; reflexivity.
    - right. reflexivity.
    - left. unfold SF64sub, SFsub. rewrite Z.sub_diag. reflexivity. }
  destruct Hsf as [Hsf|Hsf]; [left|right];
    apply Prim2SF_inj; rewrite sub_spec; exact Hsf.
Qed.

End Binary64Signs.

Section Binary64Commutes.
Local Open Scope float_scope.

Lemma SF64add_comm a b : SF64add a b = SF64add b a.
Proof.
  destruct a as [sa|sa| |sa ma ea], b as [sb|sb| |sb mb eb];
    try (destruct sa, sb; reflexivity); try reflexivity.
  unfold SF64add, SFadd. rewrite (Z.min_comm eb ea), Z.add_comm. reflexivity.
Qed.

Lemma float_add_comm (a b : float) : a + b = b + a.
Proof. apply Prim2SF_inj. rewrite !add_spec. apply SF64add_comm. Qed.

End Binary64Commutes.

(** ** Distance *)

(** X1: [distance] is symmetric, bit for bit: the two differences differ at
    most in sign and are squared. *)
Theorem distance_symmetric (p q : Landmark) : distance p q = distance q p.
Proof.
  unfold distance, Math_sqrt, Math_pow2.
  rewrite (square_of_difference_sym (x q) (x p)).
  rewrite (square_of_difference_sym (y q) (y p)).
  reflexivity.
Qed.

(** X2: [distance] never returns a negative number, nor [-0]: its value is
    [+0], positive, [+Infinity] or NaN, whatever the coordinates. *)
Theorem distance_never_negative (p q : Landmark) :
  (distance p q <? 0)%float = false /\ distance p q <> neg_zero.
Proof.
  split.
  - apply nonneg_not_negative, distance_nonneg.
  - intros Hneg. pose proof (distance_nonneg p q) as Hsign.
    rewrite Hneg in Hsign. vm_compute in Hsign. discriminate.
Qed.

(** X3: the distance of a point to itself is [+0], or NaN when a
    coordinate is infinite or NaN; it is never positive. *)
Theorem distance_to_itself (p : Landmark) :
  distance p p = 0%float \/ distance p p = nan.
Proof.
  unfold distance, Math_sqrt, Math_pow2.
  destruct (sub_self_zero_or_nan (x p)) as [-> | ->],
           (sub_self_zero_or_nan (y p)) as [-> | ->];
    vm_compute; auto.
Qed.

(** ** Eye aspect ratio and pupil size *)

(** The two arguments of [distance] can be exchanged under any context. *)
Lemma distance_swap (p q : Landmark) : distance p q = distance q p.
Proof.
  unfold distance, Math_sqrt, Math_pow2.
  f_equal. f_equal; apply square_of_difference_sym.
Qed.

(** X4: [calculateEAR] throws (reads a field of [undefined]) exactly when
    it is given fewer than six landmarks; landmarks after the sixth are
    not read. *)
Theorem calculateEAR_throws_iff_short (eyeLandmarks : list Landmark) (width height : float) :
  (calculateEAR eyeLandmarks width height = None <-> (length eyeLandmarks < 6)%nat) /\
  (forall p0 p1 p2 p3 p4 p5 rest,
     eyeLandmarks = [p0; p1; p2; p3; p4; p5] ++ rest ->
     calculateEAR eyeLandmarks width height
     = calculateEAR [p0; p1; p2; p3; p4; p5] width height).
Proof.
  split.
  - destruct eyeLandmarks as [|p0 [|p1 [|p2 [|p3 [|p4 [|p5 rest]]]]]];
      cbn [length]; split; intros H; try reflexivity; try lia; discriminate H.
  - intros p0 p1 p2 p3 p4 p5 rest ->. reflexivity.
Qed.

Lemma calculateEAR_throws_iff_short_witness :
  calculateEAR (syntheticEye ++ sampleEye) 1%float 1%float
  = calculateEAR syntheticEye 1%float 1%float.
Proof.
  destruct (calculateEAR_throws_iff_short (syntheticEye ++ sampleEye) 1%float 1%float)
    as [_ Hrest].
  apply (Hrest _ _ _ _ _ _ sampleEye). reflexivity.
Defined.

(** X5: the EAR of six landmarks is never negative: it is zero, positive,
    [+Infinity] or NaN. *)
Theorem calculateEAR_never_negative (p0 p1 p2 p3 p4 p5 : Landmark) (width height : float) :
  exists ear,
    calculateEAR [p0; p1; p2; p3; p4; p5] width height = Some ear /\
    (ear <? 0)%float = false.
Proof.
  eexists. split; [reflexivity|].
  apply nonneg_not_negative.
  rewrite div_spec, add_spec, mul_spec.
  apply SF64div_nonneg.
  - apply SF64add_nonneg; apply distance_nonneg.
  - apply SF64mul_nonneg; [vm_compute; reflexivity | apply distance_nonneg].
Qed.

(** X6: the EAR does not depend on which corner of the eye comes first,
    nor on which lid is listed as the upper one: exchanging points 0 and 3,
    or exchanging 1 with 5 and 2 with 4, gives the same value. *)
Theorem calculateEAR_mirror (p0 p1 p2 p3 p4 p5 : Landmark) (width height : float) :
  calculateEAR [p3; p1; p2; p0; p4; p5] width height
  = calculateEAR [p0; p1; p2; p3; p4; p5] width height /\
  calculateEAR [p0; p5; p4; p3; p2; p1] width height
  = calculateEAR [p0; p1; p2; p3; p4; p5] width height.
Proof.
  unfold calculateEAR. cbn [map lookup list_lookup mbind option_bind].
  split.
  - rewrite (distance_swap (toPixels width height p3)). reflexivity.
  - rewrite (distance_swap (toPixels width height p5)).
    rewrite (distance_swap (toPixels width height p4)). reflexivity.
Qed.

(** X7: [calculatePupilSize] throws exactly when it is given fewer than four
    landmarks.  On four landmarks the diameter is never negative, and it is
    the same whichever of the four points comes first. *)
Theorem calculatePupilSize_four (irisLandmarks : list Landmark) (width height : float) :
  (calculatePupilSize irisLandmarks width height = None
   <-> (length irisLandmarks < 4)%nat) /\
  (forall p0 p1 p2 p3, irisLandmarks = [p0; p1; p2; p3] ->
     (exists diameter,
        calculatePupilSize irisLandmarks width height = Some diameter /\
        (diameter <? 0)%float = false) /\
     calculatePupilSize [p1; p2; p3; p0] width height
     = calculatePupilSize irisLandmarks width height).
Proof.
  split.
  - destruct irisLandmarks as [|p0 [|p1 [|p2 [|p3 rest]]]];
      cbn [length]; split; intros H; try reflexivity; try lia; discriminate H.
  - intros p0 p1 p2 p3 ->.
    unfold calculatePupilSize. cbn [map lookup list_lookup mbind option_bind].
    split.
    + eexists. split; [reflexivity|].
      apply nonneg_not_negative. rewrite div_spec, add_spec.
      apply SF64div_nonneg; [|vm_compute; reflexivity].
      apply SF64add_nonneg; apply distance_nonneg.
    + rewrite (distance_swap (toPixels width height p2)).
      rewrite float_add_comm. reflexivity.
Qed.

Lemma calculatePupilSize_four_witness :
  calculatePupilSize
    [mkPoint 0.36 0.44; mkPoint 0.35 0.45; mkPoint 0.36 0.46; mkPoint 0.37 0.45]%float
    640%float 480%float
  = calculatePupilSize sampleIris 640%float 480%float.
Proof.
  destruct (calculatePupilSize_four sampleIris 640%float 480%float) as [_ Hfour].
  destruct (Hfour _ _ _ _ eq_refl) as [_ Hrotated]. exact Hrotated.
Defined.

(** ** Gaze ratio on degenerate input *)

Section Binary64MinMax.
Local Open Scope float_scope.

Lemma is_nan_eq (b : float) : is_nan b = true -> b = nan.
Proof.
  unfold is_nan. rewrite FloatAxioms.eqb_spec. intros Hnan.
  apply Prim2SF_inj. change (Prim2SF nan) with S754_nan.
  destruct (Prim2SF b) as [s|s| |s m e]; [| |reflexivity|]; exfalso.
  - destruct s; discriminate.
  - destruct s; discriminate.
  - unfold SFeqb, SFcompare in Hnan.
    destruct s; rewrite Z.compare_refl, Pos.compare_cont_refl in Hnan; discriminate.
Qed.

Lemma not_below_infinity (b : float) :
  is_nan b = false -> (b <? infinity) = false -> b = infinity.
Proof.
  unfold is_nan. rewrite FloatAxioms.eqb_spec, ltb_spec.
  change (Prim2SF infinity) with (S754_infinity false).
  intros Hnan Hlt. apply Prim2SF_inj.
  change (Prim2SF infinity) with (S754_infinity false).
  destruct (Prim2SF b) as [s|s| |s m e]; try discriminate;
    destruct s; try discriminate; reflexivity.
Qed.

Lemma not_above_neg_infinity (b : float) :
  is_nan b = false -> (neg_infinity <? b) = false -> b = neg_infinity.
Proof.
  unfold is_nan. rewrite FloatAxioms.eqb_spec, ltb_spec.
  change (Prim2SF neg_infinity) with (S754_infinity true).
  intros Hnan Hlt. apply Prim2SF_inj.
  change (Prim2SF neg_infinity) with (S754_infinity true).
  destruct (Prim2SF b) as [s|s| |s m e]; try discriminate;
    destruct s; try discriminate; reflexivity.
Qed.

Lemma min_step_first (b : float) : min_step infinity b = b.
Proof.
  unfold min_step. change (is_nan infinity) with false.
  change (is_zero infinity) with false. cbn [orb]. rewrite andb_false_r. cbn [andb].
  destruct (is_nan b) eqn:Hnan; [symmetry; apply is_nan_eq, Hnan|].
  destruct (b <? infinity) eqn:Hlt; [reflexivity|].
  symmetry. apply not_below_infinity; assumption.
Qed.

Lemma max_step_first (b : float) : max_step neg_infinity b = b.
Proof.
  unfold max_step. change (is_nan neg_infinity) with false.
  change (is_zero neg_infinity) with false. cbn [orb]. rewrite andb_false_r. cbn [andb].
  destruct (is_nan b) eqn:Hnan; [symmetry; apply is_nan_eq, Hnan|].
  destruct (neg_infinity <? b) eqn:Hlt; [reflexivity|].
  symmetry. apply not_above_neg_infinity; assumption.
Qed.

Lemma min_step_same (b : float) : min_step b b = b.
Proof.
  unfold min_step. rewrite orb_diag.
  destruct (is_nan b) eqn:Hnan; [symmetry; apply is_nan_eq, Hnan|].
  destruct (is_zero b && is_zero b && get_sign b); [reflexivity|].
  destruct (b <? b); reflexivity.
Qed.

Lemma max_step_same (b : float) : max_step b b = b.
Proof.
  unfold max_step. rewrite orb_diag.
  destruct (is_nan b) eqn:Hnan; [symmetry; apply is_nan_eq, Hnan|].
  destruct (is_zero b && is_zero b && negb (get_sign b)); [reflexivity|].
  destruct (b <? b); reflexivity.
Qed.

(** The minimum and the maximum of a non-empty list of equal numbers is
    that number. *)
Lemma Math_min_repeat (b : float) (n : nat) : Math_min (repeat b (S n)) = b.
Proof.
  unfold Math_min. cbn [repeat fold_left]. rewrite min_step_first.
  induction n as [|n IH]; [reflexivity|].
  cbn [repeat fold_left]. rewrite min_step_same. exact IH.
Qed.

Lemma Math_max_repeat (b : float) (n : nat) : Math_max (repeat b (S n)) = b.
Proof.
  unfold Math_max. cbn [repeat fold_left]. rewrite max_step_first.
  induction n as [|n IH]; [reflexivity|].
  cbn [repeat fold_left]. rewrite max_step_same. exact IH.
Qed.

(** The extent of a list of equal numbers is not positive. *)
Lemma extent_of_repeat (b : float) (n : nat) :
  (0 <? Math_max (repeat b n) - Math_min (repeat b n)) = false.
Proof.
  destruct n as [|n]; [reflexivity|].
  rewrite Math_max_repeat, Math_min_repeat.
  destruct (sub_self_zero_or_nan b) as [-> | ->]; reflexivity.
Qed.

Lemma nan_absorbs (a : float) :
  nan * a = nan /\ nan - a = nan /\ nan / a = nan.
Proof.
  repeat split; apply Prim2SF_inj;
    rewrite ?mul_spec, ?sub_spec, ?div_spec;
    change (Prim2SF nan) with S754_nan; reflexivity.
Qed.

End Binary64MinMax.

Lemma map_constant {A B} (f : A -> B) (c : B) (l : list A) :
  Forall (fun a => f a = c) l -> map f l = repeat c (length l).
Proof.
  induction 1 as [|a l Ha _ IH]; [reflexivity|].
  cbn [map length repeat]. rewrite Ha, IH. reflexivity.
Qed.

(** X8: an eye whose landmarks all have the same [y] (lids closed onto one
    line), or all the same [x], gets the neutral gaze [{h: 0.5, v: 0.5}],
    whatever the iris, the frame size and the coordinates, NaN and the
    empty eye included. *)
Theorem calculateGazeRatio_flat_eye
    (irisLandmarks eyeLandmarks : list Landmark) (width height c : float) :
  Forall (fun q => y q = c) eyeLandmarks \/ Forall (fun q => x q = c) eyeLandmarks ->
  calculateGazeRatio irisLandmarks eyeLandmarks width height
  = {| h := 0.5; v := 0.5 |}.
Proof.
  intros Hflat. rewrite calculateGazeRatio_unfold.
  destruct Hflat as [Hy|Hx].
  - assert (Hzero : (0 <? eyeHeight eyeLandmarks width height)%float = false).
    { unfold eyeHeight, eyeMaxY, eyeMinY. rewrite map_map.
      rewrite (map_constant (fun q => y (toPixels width height q)) (c * height)%float).
      - apply extent_of_repeat.
      - eapply Forall_impl; [exact Hy|]. intros q Hq. cbn. rewrite Hq. reflexivity. }
    rewrite Hzero, andb_false_r. reflexivity.
  - assert (Hzero : (0 <? eyeWidth eyeLandmarks width height)%float = false).
    { unfold eyeWidth, eyeMaxX, eyeMinX. rewrite map_map.
      rewrite (map_constant (fun q => x (toPixels width height q)) (c * width)%float).
      - apply extent_of_repeat.
      - eapply Forall_impl; [exact Hx|]. intros q Hq. cbn. rewrite Hq. reflexivity. }
    rewrite Hzero. reflexivity.
Qed.

Lemma calculateGazeRatio_flat_eye_witness :
  calculateGazeRatio sampleIris collapsedEye 640%float 480%float
  = {| h := 0.5; v := 0.5 |}.
Proof.
  apply (calculateGazeRatio_flat_eye sampleIris collapsedEye 640 480 0.45)%float.
  left. repeat constructor.
Defined.

(** X9: [getCenter] of an empty list does not throw: both coordinates are
    NaN (0 / 0).  With an empty iris and an open eye the gaze ratio is NaN
    in both components. *)
Theorem getCenter_empty (eyeLandmarks : list Landmark) (width height : float) :
  getCenter [] width height = mkPoint nan nan /\
  ((0 <? eyeWidth eyeLandmarks width height)%float = true ->
   (0 <? eyeHeight eyeLandmarks width height)%float = true ->
   calculateGazeRatio [] eyeLandmarks width height = {| h := nan; v := nan |}).
Proof.
  assert (Hcenter : getCenter [] width height = mkPoint nan nan).
  { unfold getCenter. cbn [fold_left length zero add mul div of_nat float_arith].
    change (0 / of_uint63 (Uint63.of_Z (Z.of_nat 0)))%float with nan.
    destruct (nan_absorbs width) as [-> _], (nan_absorbs height) as [-> _].
    reflexivity. }
  split; [exact Hcenter|].
  intros Hw Hh. rewrite calculateGazeRatio_unfold, Hw, Hh, Hcenter. cbn [andb x y].
  destruct (nan_absorbs (eyeMinX eyeLandmarks width height)) as (_ & -> & _).
  destruct (nan_absorbs (eyeMinY eyeLandmarks width height)) as (_ & -> & _).
  destruct (nan_absorbs (eyeWidth eyeLandmarks width height)) as (_ & _ & ->).
  destruct (nan_absorbs (eyeHeight eyeLandmarks width height)) as (_ & _ & ->).
  reflexivity.
Qed.

Lemma getCenter_empty_witness :
  calculateGazeRatio [] sampleEye 640%float 480%float = {| h := nan; v := nan |}.
Proof.
  apply (getCenter_empty sampleEye 640%float 480%float); reflexivity.
Defined.

(** ** What a step can do to the gesture log *)

Lemma gestureEvents_emit e s :
  gestureEvents (emit e s)
  = gestureEvents s ++ (if isGestureEvent e then [e] else []).
Proof.
  unfold gestureEvents, emit. cbn [events].
  rewrite List.filter_app. cbn [List.filter].
  destruct (isGestureEvent e); reflexivity.
Qed.

Lemma trackView_eq s1 s2 :
  trackView s1 = trackView s2 ->
  phaseState s1 = phaseState s2 /\ gestureEvents s1 = gestureEvents s2.
Proof.
  intros Heq. split; [exact (f_equal fst Heq) | exact (f_equal snd Heq)].
Qed.

Lemma detectBlink_trackView s ear :
  trackView (snd (detectBlink s ear)) = trackView s.
Proof.
  unfold detectBlink.
  destruct (PrimFloat.ltb _ _); [reflexivity|].
  destruct (Z.leb _ _); reflexivity.
Qed.

Lemma estimateGazePoint_trackView s leftGaze rightGaze :
  trackView (snd (estimateGazePoint s leftGaze rightGaze)) = trackView s.
Proof.
  unfold estimateGazePoint.
  destruct (Nat.ltb _ _); reflexivity.
Qed.

(** The log after a detector call: the log before, followed by the flash
    and the advance when the call completes the phase. *)
Lemma detectLeftGaze_log s g :
  gestureEvents (detectLeftGaze s g) = gestureEvents s \/
  (gestureEvents (detectLeftGaze s g) = gestureEvents s ++ [Flash; PhaseAdvanced 1]
   /\ detectLeftGaze s g = leftCompleted s /\ leftActive s).
Proof.
  unfold detectLeftGaze.
  destruct (negb (currentPhase s =? 0)) eqn:Hphase; [left; reflexivity|].
  destruct (flagAt (phaseCompleted s) 0) eqn:Hflag; [left; reflexivity|].
  cbn [orb].
  destruct (PrimFloat.ltb _ _).
  - cbn [leftGazeFrames set_leftGazeFrames].
    destruct (Z.leb_spec leftGazeRequired (leftGazeFrames s + 1)); [|left; reflexivity].
    right. split; [|split].
    + unfold gestureEvents. cbn. rewrite !List.filter_app.
      cbn [List.filter isGestureEvent]. rewrite <- app_assoc. reflexivity.
    + session_eq.
    + split; [|exact Hflag]. apply negb_false_iff, Z.eqb_eq in Hphase. exact Hphase.
  - left. destruct (Z.ltb _ _); reflexivity.
Qed.

Lemma detectRightGaze_log s g :
  gestureEvents (detectRightGaze s g) = gestureEvents s \/
  (gestureEvents (detectRightGaze s g) = gestureEvents s ++ [Flash; PhaseAdvanced 2]
   /\ detectRightGaze s g = rightCompleted s /\ rightActive s).
Proof.
  unfold detectRightGaze.
  destruct (negb (currentPhase s =? 1)) eqn:Hphase; [left; reflexivity|].
  destruct (flagAt (phaseCompleted s) 1) eqn:Hflag; [left; reflexivity|].
  cbn [orb].
  destruct (PrimFloat.ltb _ _).
  - cbn [rightGazeFrames set_rightGazeFrames].
    destruct (Z.leb_spec rightGazeRequired (rightGazeFrames s + 1)); [|left; reflexivity].
    right. split; [|split].
    + unfold gestureEvents. cbn. rewrite !List.filter_app.
      cbn [List.filter isGestureEvent]. rewrite <- app_assoc. reflexivity.
    + session_eq.
    + split; [|exact Hflag]. apply negb_false_iff, Z.eqb_eq in Hphase. exact Hphase.
  - left. destruct (Z.ltb _ _); reflexivity.
Qed.

Lemma detectLeftGaze_trackView s1 s2 g :
  trackView s1 = trackView s2 ->
  trackView (detectLeftGaze s1 g) = trackView (detectLeftGaze s2 g).
Proof.
  intros Heq. apply trackView_eq in Heq as [Hps Hlog].
  unfold trackView. f_equal; [apply detectLeftGaze_phaseState, Hps|].
  apply phaseState_eq in Hps as (Hp & Hc & Hl & Hr).
  unfold detectLeftGaze. rewrite Hp, Hc.
  destruct (negb _ || _); [exact Hlog|].
  destruct (PrimFloat.ltb _ _).
  - cbn [leftGazeFrames set_leftGazeFrames]. rewrite Hl.
    destruct (Z.leb _ _); [|exact Hlog].
    unfold gestureEvents in *. cbn. rewrite !List.filter_app, Hlog. reflexivity.
  - rewrite Hl. destruct (Z.ltb _ _); exact Hlog.
Qed.

Lemma detectRightGaze_trackView s1 s2 g :
  trackView s1 = trackView s2 ->
  trackView (detectRightGaze s1 g) = trackView (detectRightGaze s2 g).
Proof.
  intros Heq. apply trackView_eq in Heq as [Hps Hlog].
  unfold trackView. f_equal; [apply detectRightGaze_phaseState, Hps|].
  apply phaseState_eq in Hps as (Hp & Hc & Hl & Hr).
  unfold detectRightGaze. rewrite Hp, Hc.
  destruct (negb _ || _); [exact Hlog|].
  destruct (PrimFloat.ltb _ _).
  - cbn [rightGazeFrames set_rightGazeFrames]. rewrite Hr.
    destruct (Z.leb _ _); [|exact Hlog].
    unfold gestureEvents in *. cbn. rewrite !List.filter_app, Hlog. reflexivity.
  - rewrite Hr. destruct (Z.ltb _ _); exact Hlog.
Qed.

(** A frame leaves phase state and gesture log alone, or passes them
    through the two detectors with one gaze point. *)
Lemma processEyeTracking_trackView s landmarks width height :
  trackView (sessionOf (processEyeTracking s landmarks width height)) = trackView s
  \/ exists g,
       trackView (sessionOf (processEyeTracking s landmarks width height))
       = trackView (detectGaze s g).
Proof.
  unfold processEyeTracking.
  destruct (pick LEFT_EYE landmarks) as [leftEye|]; [|left; reflexivity].
  destruct (pick RIGHT_EYE landmarks) as [rightEye|]; [|left; reflexivity].
  destruct (calculateEAR leftEye width height) as [earLeft|]; [|left; reflexivity].
  destruct (calculateEAR rightEye width height) as [earRight|]; [|left; reflexivity].
  set (s1 := set_earHistory _ s).
  pose proof (detectBlink_trackView s1 ((earLeft + earRight) / 2)%float) as Hblink.
  destruct (detectBlink s1 _) as [isBlinking s2]. cbn [snd] in Hblink.
  set (s3 := if isBlinking then emit BlinkAlert s2 else s2).
  assert (H3 : trackView s3 = trackView s).
  { subst s3. assert (Hs2 : trackView s2 = trackView s) by exact Hblink.
    destruct isBlinking; [|exact Hs2].
    rewrite <- Hs2. unfold trackView. rewrite gestureEvents_emit.
    cbn [isGestureEvent]. rewrite app_nil_r. reflexivity. }
  destruct (pick LEFT_IRIS landmarks) as [leftIris|]; [|left; exact H3].
  destruct (pick RIGHT_IRIS landmarks) as [rightIris|]; [|left; exact H3].
  set (leftGaze := calculateGazeRatio leftIris leftEye width height).
  set (rightGaze := calculateGazeRatio rightIris rightEye width height).
  pose proof (estimateGazePoint_trackView s3 leftGaze rightGaze) as Hgaze.
  destruct (estimateGazePoint s3 leftGaze rightGaze) as [gazePoint s4].
  cbn [snd] in Hgaze.
  right. exists gazePoint.
  assert (H4 : trackView (detectRightGaze (detectLeftGaze s4 gazePoint) gazePoint)
               = trackView (detectGaze s gazePoint)).
  { unfold detectGaze. apply detectRightGaze_trackView, detectLeftGaze_trackView.
    congruence. }
  destruct (calculatePupilSize leftIris width height); [|exact H4].
  destruct (calculatePupilSize rightIris width height); exact H4.
Qed.

Lemma step_track_invariant (P : (Z * list bool * Z * Z) * list Event -> Prop) :
  (forall s g, P (trackView s) -> P (trackView (detectLeftGaze s g))) ->
  (forall s g, P (trackView s) -> P (trackView (detectRightGaze s g))) ->
  (forall s, P (trackView s) -> P (trackView (showFinalMessage s))) ->
  forall s s', step s s' -> P (trackView s) -> P (trackView s').
Proof.
  intros Hleft Hright Hfinal s s' Hstep HP.
  destruct Hstep as [s landmarks width height|s|s ear|s g|s g].
  - destruct (processEyeTracking_trackView s landmarks width height) as [->|[g ->]].
    + exact HP.
    + unfold detectGaze. apply Hright, Hleft, HP.
  - apply Hfinal, HP.
  - rewrite detectBlink_trackView. exact HP.
  - apply Hleft, HP.
  - apply Hright, HP.
Qed.

Lemma reachable_track_invariant (P : (Z * list bool * Z * Z) * list Event -> Prop) :
  (forall s g, P (trackView s) -> P (trackView (detectLeftGaze s g))) ->
  (forall s g, P (trackView s) -> P (trackView (detectRightGaze s g))) ->
  (forall s, P (trackView s) -> P (trackView (showFinalMessage s))) ->
  forall s0 s, reachable s0 s -> P (trackView s0) -> P (trackView s).
Proof.
  intros Hleft Hright Hfinal s0 s Hreach HP.
  induction Hreach as [|s s' _ IH Hstep]; [exact HP|].
  eapply step_track_invariant; eassumption.
Qed.

(** ** The shape of a detector call *)

Lemma set_leftGazeFrames_same s : set_leftGazeFrames (leftGazeFrames s) s = s.
Proof. destruct s. reflexivity. Qed.

Lemma set_rightGazeFrames_same s : set_rightGazeFrames (rightGazeFrames s) s = s.
Proof. destruct s. reflexivity. Qed.

(** A call of the left detector completes the phase, or changes nothing but
    the left counter, and that only while the phase is active. *)
Lemma detectLeftGaze_shape s g :
  (detectLeftGaze s g = leftCompleted s /\ leftActive s) \/
  (exists c, detectLeftGaze s g = set_leftGazeFrames c s /\
             (c <> leftGazeFrames s -> leftActive s)).
Proof.
  unfold detectLeftGaze, leftActive.
  destruct (Z.eqb_spec (currentPhase s) 0) as [Hphase|Hphase]; cbn [negb orb];
    [|right; exists (leftGazeFrames s);
      rewrite set_leftGazeFrames_same; split; [reflexivity | congruence]].
  destruct (flagAt (phaseCompleted s) 0) eqn:Hflag;
    [right; exists (leftGazeFrames s);
     rewrite set_leftGazeFrames_same; split; [reflexivity | congruence]|].
  destruct (PrimFloat.ltb _ _).
  - cbn [leftGazeFrames set_leftGazeFrames].
    destruct (Z.leb _ _).
    + left. split; [session_eq | split; [exact Hphase | reflexivity]].
    + right. eexists. split; [reflexivity | intros _; split; [exact Hphase | reflexivity]].
  - right. destruct (Z.ltb _ _).
    + eexists. split; [reflexivity | intros _; split; [exact Hphase | reflexivity]].
    + exists (leftGazeFrames s). rewrite set_leftGazeFrames_same.
      split; [reflexivity | congruence].
Qed.

Lemma detectRightGaze_shape s g :
  (detectRightGaze s g = rightCompleted s /\ rightActive s) \/
  (exists c, detectRightGaze s g = set_rightGazeFrames c s /\
             (c <> rightGazeFrames s -> rightActive s)).
Proof.
  unfold detectRightGaze, rightActive.
  destruct (Z.eqb_spec (currentPhase s) 1) as [Hphase|Hphase]; cbn [negb orb];
    [|right; exists (rightGazeFrames s);
      rewrite set_rightGazeFrames_same; split; [reflexivity | congruence]].
  destruct (flagAt (phaseCompleted s) 1) eqn:Hflag;
    [right; exists (rightGazeFrames s);
     rewrite set_rightGazeFrames_same; split; [reflexivity | congruence]|].
  destruct (PrimFloat.ltb _ _).
  - cbn [rightGazeFrames set_rightGazeFrames].
    destruct (Z.leb _ _).
    + left. split; [session_eq | split; [exact Hphase | reflexivity]].
    + right. eexists. split; [reflexivity | intros _; split; [exact Hphase | reflexivity]].
  - right. destruct (Z.ltb _ _).
    + eexists. split; [reflexivity | intros _; split; [exact Hphase | reflexivity]].
    + exists (rightGazeFrames s). rewrite set_rightGazeFrames_same.
      split; [reflexivity | congruence].
Qed.

(** ** The gesture invariant *)

Lemma gestureEvents_leftCompleted s :
  gestureEvents (leftCompleted s) = gestureEvents s ++ [Flash; PhaseAdvanced 1].
Proof. unfold gestureEvents. cbn. rewrite List.filter_app. reflexivity. Qed.

Lemma gestureEvents_rightCompleted s :
  gestureEvents (rightCompleted s) = gestureEvents s ++ [Flash; PhaseAdvanced 2].
Proof. unfold gestureEvents. cbn. rewrite List.filter_app. reflexivity. Qed.

Lemma detectLeftGaze_invariant s g :
  gestureInvariant s -> gestureInvariant (detectLeftGaze s g).
Proof.
  unfold gestureInvariant, viewInvariant, trackView, phaseState.
  intros (f0 & f1 & Hflags & Hlog & Hleft & Hright & Hphase).
  destruct (detectLeftGaze_shape s g) as [[-> [Hp Hf]]|(c & -> & Hc)].
  - rewrite gestureEvents_leftCompleted, Hlog. cbn.
    rewrite Hflags in Hf |- *. cbn in Hf. subst f0.
    assert (Hf1 : f1 = false) by (destruct Hphase as [H|[H|[H|H]]]; intuition lia).
    subst f1. exists true, false. cbn. split_invariant.
    + reflexivity.
    + reflexivity.
    + congruence.
    + intros Hr. exfalso. destruct Hphase as [H|[H|[H|H]]]; intuition lia.
    + right. left. repeat split.
  - cbn. exists f0, f1. split_invariant.
    + exact Hflags.
    + exact Hlog.
    + intros Hnz. destruct (Z.eq_dec c (leftGazeFrames s)) as [->|Hne]; [auto|].
      destruct (Hc Hne) as [_ Hf]. rewrite Hflags in Hf. exact Hf.
    + exact Hright.
    + exact Hphase.
Qed.

Lemma detectRightGaze_invariant s g :
  gestureInvariant s -> gestureInvariant (detectRightGaze s g).
Proof.
  unfold gestureInvariant, viewInvariant, trackView, phaseState.
  intros (f0 & f1 & Hflags & Hlog & Hleft & Hright & Hphase).
  destruct (detectRightGaze_shape s g) as [[-> [Hp Hf]]|(c & -> & Hc)].
  - rewrite gestureEvents_rightCompleted, Hlog. cbn.
    rewrite Hflags in Hf |- *. cbn in Hf. subst f1.
    assert (Hf0 : f0 = true) by (destruct Hphase as [H|[H|[H|H]]]; intuition lia).
    subst f0. exists true, true. cbn. split_invariant.
    + reflexivity.
    + reflexivity.
    + intros Hl. apply Hleft in Hl. discriminate.
    + congruence.
    + right. right. left. repeat split.
  - cbn. exists f0, f1.
    assert (Hact : c <> rightGazeFrames s -> currentPhase s = 1 /\ f1 = false).
    { intros Hne. destruct (Hc Hne) as [Hp Hf]. rewrite Hflags in Hf. auto. }
    split_invariant.
    + exact Hflags.
    + exact Hlog.
    + exact Hleft.
    + intros Hnz. destruct (Z.eq_dec c (rightGazeFrames s)) as [->|Hne];
        [apply Hright, Hnz|].
      destruct (Hact Hne) as [Hp Hf1].
      destruct Hphase as [H|[H|[H|H]]]; intuition lia.
    + destruct Hphase as [H|[H|[H|H]]]; auto.
      left. destruct H as (Hp0 & Hf0 & Hf1 & Hr0).
      split; [exact Hp0|]. split; [exact Hf0|]. split; [exact Hf1|].
      destruct (Z.eq_dec c (rightGazeFrames s)) as [->|Hne]; [exact Hr0|].
      destruct (Hact Hne) as [Hp _]. lia.
Qed.

Lemma showFinalMessage_invariant s :
  gestureInvariant s -> gestureInvariant (showFinalMessage s).
Proof.
  unfold gestureInvariant, viewInvariant, trackView, phaseState.
  intros (f0 & f1 & Hflags & Hlog & Hleft & Hright & Hphase).
  cbn. exists f0, f1. split_invariant; try assumption.
  right. right. right. split; [reflexivity|].
  intros Hf1. destruct Hphase as [H|[H|[H|H]]]; intuition congruence.
Qed.

Lemma reachable_gestureInvariant s :
  reachable newSession s -> gestureInvariant s.
Proof.
  intros Hreach. unfold gestureInvariant.
  apply (reachable_track_invariant viewInvariant) with (s0 := newSession).
  - intros r g. apply detectLeftGaze_invariant.
  - intros r g. apply detectRightGaze_invariant.
  - intros r. apply showFinalMessage_invariant.
  - exact Hreach.
  - exists false, false. cbn. split_invariant; try reflexivity; try congruence.
    left. repeat split.
Qed.

Lemma flagAt_cases (f0 f1 : bool) :
  flagAt [f0; f1; false; false] 0 = f0 /\ flagAt [f0; f1; false; false] 1 = f1.
Proof. split; reflexivity. Qed.

(** X10: in every session reached from a new one, [phaseCompleted] still
    has its four entries, the flags of DrawCircle and of the final phase
    are false, and the current phase is 0, 1, 2 or 3 and agrees with the
    flags: no flag in phase 0, only the first in phase 1, both in phase 2. *)
Theorem phase_agrees_with_flags (s : Session) :
  reachable newSession s ->
  exists f0 f1 : bool,
    phaseCompleted s = [f0; f1; false; false] /\
    ((currentPhase s = 0 /\ f0 = false /\ f1 = false) \/
     (currentPhase s = 1 /\ f0 = true /\ f1 = false) \/
     (currentPhase s = 2 /\ f0 = true /\ f1 = true) \/
     (currentPhase s = 3 /\ (f1 = true -> f0 = true))).
Proof.
  intros Hreach.
  destruct (reachable_gestureInvariant s Hreach)
    as (f0 & f1 & Hflags & _ & _ & _ & Hphase).
  exists f0, f1. split; [exact Hflags|].
  destruct Hphase as [H|[H|[H|H]]]; intuition.
Qed.

Lemma phase_agrees_with_flags_witness :
  exists f0 f1 : bool,
    phaseCompleted (feedLeft newSession (repeat gazeLeft 10)) = [f0; f1; false; false] /\
    ((currentPhase (feedLeft newSession (repeat gazeLeft 10)) = 0
      /\ f0 = false /\ f1 = false) \/
     (currentPhase (feedLeft newSession (repeat gazeLeft 10)) = 1
      /\ f0 = true /\ f1 = false) \/
     (currentPhase (feedLeft newSession (repeat gazeLeft 10)) = 2
      /\ f0 = true /\ f1 = true) \/
     (currentPhase (feedLeft newSession (repeat gazeLeft 10)) = 3
      /\ (f1 = true -> f0 = true))).
Proof.
  apply (phase_agrees_with_flags (feedLeft newSession (repeat gazeLeft 10))).
  unfold feedLeft. cbn [repeat fold_left].
  repeat (eapply reach_step; [|apply step_left]). apply reach_refl.
Defined.

(** X11: in every session reached from a new one, the gesture events in
    the log are exactly the flash and the advance of each completed phase,
    in phase order: a phase fires its trigger once, and at most two flashes
    are ever emitted. *)
Theorem gesture_log_matches_flags (s : Session) :
  reachable newSession s ->
  gestureEvents s
  = (if flagAt (phaseCompleted s) 0 then [Flash; PhaseAdvanced 1] else [])
    ++ (if flagAt (phaseCompleted s) 1 then [Flash; PhaseAdvanced 2] else []).
Proof.
  intros Hreach.
  destruct (reachable_gestureInvariant s Hreach)
    as (f0 & f1 & Hflags & Hlog & _).
  cbn in Hflags. rewrite Hflags.
  destruct (flagAt_cases f0 f1) as [-> ->]. exact Hlog.
Qed.

Lemma gesture_log_matches_flags_witness :
  gestureEvents (feedLeft newSession (repeat gazeLeft 10))
  = [Flash; PhaseAdvanced 1].
Proof.
  apply (gesture_log_matches_flags (feedLeft newSession (repeat gazeLeft 10))).
  unfold feedLeft. cbn [repeat fold_left].
  repeat (eapply reach_step; [|apply step_left]). apply reach_refl.
Defined.

(** X12: in every session reached from a new one, a sustain counter is 0
    outside its phase: the right counter before LookRight starts, and
    either counter once its phase has completed. *)
Theorem idle_counters_are_zero (s : Session) :
  reachable newSession s ->
  (currentPhase s = 0 -> rightGazeFrames s = 0) /\
  (flagAt (phaseCompleted s) 0 = true -> leftGazeFrames s = 0) /\
  (flagAt (phaseCompleted s) 1 = true -> rightGazeFrames s = 0).
Proof.
  intros Hreach.
  destruct (reachable_gestureInvariant s Hreach)
    as (f0 & f1 & Hflags & _ & Hleft & Hright & Hphase).
  cbn in Hflags, Hleft, Hright, Hphase. rewrite Hflags.
  destruct (flagAt_cases f0 f1) as [-> ->].
  split; [|split].
  - intros Hp. destruct Hphase as [H|[H|[H|H]]]; intuition lia.
  - intros ->. destruct (Z.eq_dec (leftGazeFrames s) 0) as [Hz|Hnz]; [exact Hz|].
    apply Hleft in Hnz. discriminate.
  - intros ->. destruct (Z.eq_dec (rightGazeFrames s) 0) as [Hz|Hnz]; [exact Hz|].
    apply Hright in Hnz. destruct Hnz. discriminate.
Qed.

Lemma idle_counters_are_zero_witness :
  leftGazeFrames (feedLeft newSession (repeat gazeLeft 10)) = 0.
Proof.
  destruct (idle_counters_are_zero (feedLeft newSession (repeat gazeLeft 10)))
    as (_ & Hleft & _).
  - unfold feedLeft. cbn [repeat fold_left].
    repeat (eapply reach_step; [|apply step_left]). apply reach_refl.
  - apply Hleft. reflexivity.
Defined.

(** ** Phases only move forward *)

Lemma reachable_trans s0 s1 s2 :
  reachable s0 s1 -> reachable s1 s2 -> reachable s0 s2.
Proof.
  intros H01 H12. induction H12 as [|s s' _ IH Hstep]; [exact H01|].
  eapply reach_step; eassumption.
Qed.

(** X13: the current phase never goes back: along any run that continues
    a session reached from a new one, it can only grow, up to 3. *)
Theorem phase_never_goes_back (s s' : Session) :
  reachable newSession s -> reachable s s' ->
  currentPhase s <= currentPhase s' <= 3.
Proof.
  intros Hs Hs'.
  assert (Hupper : forall r, reachable newSession r -> 0 <= currentPhase r <= 3).
  { intros r Hr.
    destruct (reachable_gestureInvariant r Hr) as (f0 & f1 & _ & _ & _ & _ & H).
    cbn in H. destruct H as [H|[H|[H|H]]]; lia. }
  split; [|apply Hupper, (reachable_trans _ s); assumption].
  pose proof (Hupper s Hs) as Hrange.
  apply (reachable_phase_invariant
           (fun ps => currentPhase s <= fst (fst (fst ps)) <= 3)) with (s0 := s).
  - intros r g Hr. cbn in *.
    destruct (detectLeftGaze_shape r g) as [[-> [Hp _]]|(c & -> & _)]; cbn; lia.
  - intros r g Hr. cbn in *.
    destruct (detectRightGaze_shape r g) as [[-> [Hp _]]|(c & -> & _)]; cbn; lia.
  - intros r Hr. cbn in *. lia.
  - exact Hs'.
  - cbn. lia.
Qed.

Lemma phase_never_goes_back_witness :
  currentPhase newSession
  <= currentPhase (detectLeftGaze newSession gazeLeft) <= 3.
Proof.
  apply (phase_never_goes_back newSession (detectLeftGaze newSession gazeLeft)).
  - apply reach_refl.
  - eapply reach_step; [apply reach_refl | apply step_left].
Defined.

(** X14: once DrawCircle (phase 2) or the final phase (phase 3) is
    current, no step changes a completion flag, a sustain counter or the
    gesture log any more; the only change left to the phase is the final
    message setting it to 3.  In phase 3 the whole phase state is frozen. *)
Theorem late_phases_are_inert (s s' : Session) :
  2 <= currentPhase s -> step s s' ->
  phaseCompleted s' = phaseCompleted s /\
  leftGazeFrames s' = leftGazeFrames s /\
  rightGazeFrames s' = rightGazeFrames s /\
  gestureEvents s' = gestureEvents s /\
  (currentPhase s' = currentPhase s \/ currentPhase s' = 3).
Proof.
  intros Hlate Hstep.
  pose (P := fun view : (Z * list bool * Z * Z) * list Event =>
               snd (fst (fst (fst view))) = phaseCompleted s /\
               snd (fst (fst view)) = leftGazeFrames s /\
               snd (fst view) = rightGazeFrames s /\
               snd view = gestureEvents s /\
               (fst (fst (fst (fst view))) = currentPhase s \/
                fst (fst (fst (fst view))) = 3)).
  assert (HP : P (trackView s')).
  { apply (step_track_invariant P) with (s := s); [| | |exact Hstep|]; subst P; cbn.
    - intros r g (Hf & Hl & Hr & Hlog & Hp).
      rewrite detectLeftGaze_inert by (left; lia). auto.
    - intros r g (Hf & Hl & Hr & Hlog & Hp).
      rewrite detectRightGaze_inert by (left; lia). auto.
    - intros r (Hf & Hl & Hr & Hlog & Hp).
      split; [exact Hf|]. split; [exact Hl|]. split; [exact Hr|].
      split; [exact Hlog|]. right. reflexivity.
    - repeat split. left. reflexivity. }
  exact HP.
Qed.

Lemma late_phases_are_inert_witness :
  gestureEvents
    (detectRightGaze (rightCompleted (leftCompleted newSession)) gazeRight)
  = gestureEvents (rightCompleted (leftCompleted newSession)).
Proof.
  apply (late_phases_are_inert (rightCompleted (leftCompleted newSession))).
  - vm_compute. discriminate.
  - apply step_right.
Defined.

(** ** The right phase and the whole sequence *)

(** X15: phase LookRight active, sustain counter 0, and every fed frame has
    [h < rightGazeThreshold] (0.35): before the 10th frame the right
    detector only counts; on the 10th frame it fires the flash, sets the
    flag of phase 1, resets the counter and makes DrawCircle (phase 2)
    current. *)
Theorem look_right_completes_on_tenth_frame (s : Session) (gs : list GazeRatio) :
  currentPhase s = 1 ->
  flagAt (phaseCompleted s) 1 = false ->
  rightGazeFrames s = 0 ->
  Forall (fun g => (h g <? rightGazeThreshold)%float = true) gs ->
  ((length gs < 10)%nat ->
     feedRight s gs = set_rightGazeFrames (Z.of_nat (length gs)) s) /\
  (length gs = 10%nat ->
     currentPhase (feedRight s gs) = 2 /\
     flagAt (phaseCompleted (feedRight s gs)) 1 = true /\
     rightGazeFrames (feedRight s gs) = 0 /\
     events (feedRight s gs) = events s ++ [Flash; PhaseAdvanced 2]).
Proof.
  intros Hphase Hflag Hzero Hall.
  assert (Hact : rightActive s) by (split; assumption).
  split; intros Hlen.
  - rewrite feedRight_counting
      by (try assumption; rewrite Hzero; unfold rightGazeRequired; lia).
    rewrite Hzero. reflexivity.
  - rewrite feedRight_completes; try assumption.
    + split; [reflexivity|]. split; [apply flagAt_assignAt_same|].
      split; reflexivity.
    + intros ->. discriminate.
    + rewrite Hzero, Hlen. reflexivity.
Qed.

Lemma look_right_completes_on_tenth_frame_witness :
  currentPhase (feedRight (leftCompleted newSession) (repeat gazeRight 10)) = 2.
Proof.
  destruct (look_right_completes_on_tenth_frame (leftCompleted newSession)
              (repeat gazeRight 10)) as [_ Hten].
  - reflexivity.
  - reflexivity.
  - reflexivity.
  - repeat constructor.
  - destruct Hten as [Hphase _]; [reflexivity | exact Hphase].
Defined.

(** Outside phase 0 the left detector is inert, so the two calls of a frame
    amount to the right one. *)
Lemma feedGaze_after_left gs : forall s,
  currentPhase s <> 0 -> feedGaze s gs = feedRight s gs.
Proof.
  induction gs as [|g gs IH]; intros s Hphase; [reflexivity|].
  unfold feedGaze, feedRight. cbn [fold_left].
  unfold detectGaze at 2. rewrite detectLeftGaze_inert by (left; exact Hphase).
  apply IH.
  destruct (detectRightGaze_shape s g) as [[-> _]|(c & -> & _)]; cbn;
    [discriminate | exact Hphase].
Qed.

Lemma flagAt_assignAt_first (a : list bool) :
  flagAt (assignAt a 0 true) 1 = flagAt a 1.
Proof. destruct a as [|a0 [|a1 l]]; reflexivity. Qed.

(** X16: the whole gesture sequence, frame by frame (both detectors called
    on every frame, as [processEyeTracking] does): from a session in phase
    0 with no flag set and both counters at 0, ten frames looking left
    followed by ten frames looking right leave the session in phase 2 with
    both flags set, both counters at 0, and exactly the events flash,
    advance to 1, flash, advance to 2 added to the log. *)
Theorem gesture_sequence_completes (s : Session) (lefts rights : list GazeRatio) :
  leftActive s -> flagAt (phaseCompleted s) 1 = false ->
  leftGazeFrames s = 0 -> rightGazeFrames s = 0 ->
  Forall (fun g => lookingLeft g = true) lefts -> length lefts = 10%nat ->
  Forall (fun g => lookingRight g = true) rights -> length rights = 10%nat ->
  feedGaze s (lefts ++ rights) = rightCompleted (leftCompleted s) /\
  currentPhase (feedGaze s (lefts ++ rights)) = 2 /\
  events (feedGaze s (lefts ++ rights))
  = events s ++ [Flash; PhaseAdvanced 1; Flash; PhaseAdvanced 2].
Proof.
  intros Hact Hflag1 Hleft Hright Hlefts Hl Hrights Hr.
  assert (Hrun : feedGaze s (lefts ++ rights) = rightCompleted (leftCompleted s)).
  { unfold feedGaze. rewrite fold_left_app. fold (feedGaze s lefts).
    rewrite feedGaze_looking_left by (try assumption; lia).
    rewrite feedLeft_completes; try assumption.
    - fold (feedGaze (leftCompleted s) rights).
      rewrite feedGaze_after_left by (cbn; discriminate).
      apply feedRight_completes; try assumption.
      + split; [reflexivity|]. cbn. rewrite flagAt_assignAt_first. exact Hflag1.
      + intros ->. discriminate.
      + cbn. rewrite Hright, Hr. reflexivity.
    - intros ->. discriminate.
    - rewrite Hleft, Hl. reflexivity. }
  rewrite Hrun. split; [reflexivity|]. split; [reflexivity|].
  cbn. rewrite <- app_assoc. reflexivity.
Qed.

Lemma gesture_sequence_completes_witness :
  feedGaze newSession (repeat gazeLeft 10 ++ repeat gazeRight 10)
  = rightCompleted (leftCompleted newSession).
Proof.
  apply (gesture_sequence_completes newSession
           (repeat gazeLeft 10) (repeat gazeRight 10)).
  - split; reflexivity.
  - reflexivity.
  - reflexivity.
  - reflexivity.
  - repeat constructor.
  - reflexivity.
  - repeat constructor.
  - reflexivity.
Defined.

(** A right detector call that cannot reach the required count leaves the
    gesture log alone. *)
Lemma detectRightGaze_below_required s g :
  rightGazeFrames s + 1 < rightGazeRequired ->
  gestureEvents (detectRightGaze s g) = gestureEvents s.
Proof.
  intros Hfew. unfold detectRightGaze.
  destruct (negb _ || _); [reflexivity|].
  destruct (PrimFloat.ltb _ _).
  - cbn [rightGazeFrames set_rightGazeFrames].
    destruct (Z.leb_spec rightGazeRequired (rightGazeFrames s + 1)); [lia|reflexivity].
  - destruct (Z.ltb _ _); reflexivity.
Qed.

(** X17: one frame completes at most one phase: in a session reached from
    a new one, the two detector calls of a frame add nothing to the gesture
    log, or the flash and advance of one phase, never those of both. *)
Theorem one_completion_per_frame (s : Session) (g : GazeRatio) :
  reachable newSession s ->
  gestureEvents (detectGaze s g) = gestureEvents s \/
  gestureEvents (detectGaze s g) = gestureEvents s ++ [Flash; PhaseAdvanced 1] \/
  gestureEvents (detectGaze s g) = gestureEvents s ++ [Flash; PhaseAdvanced 2].
Proof.
  intros Hreach. unfold detectGaze.
  destruct (detectLeftGaze_log s g) as [Hsame|(Hlog & Hdone & Hact)].
  - destruct (detectRightGaze_log (detectLeftGaze s g) g) as [Hr|(Hr & _)];
      rewrite Hr, Hsame; auto.
  - right. left. rewrite <- Hlog. apply detectRightGaze_below_required.
    rewrite Hdone. cbn.
    destruct (reachable_gestureInvariant s Hreach)
      as (f0 & f1 & _ & _ & _ & _ & Hphase).
    cbn in Hphase. destruct Hact as [Hp _].
    assert (Hzero : rightGazeFrames s = 0)
      by (destruct Hphase as [H|[H|[H|H]]]; intuition lia).
    rewrite Hzero. unfold rightGazeRequired. lia.
Qed.

Lemma one_completion_per_frame_witness :
  gestureEvents (detectGaze newSession gazeLeft) = gestureEvents newSession \/
  gestureEvents (detectGaze newSession gazeLeft)
  = gestureEvents newSession ++ [Flash; PhaseAdvanced 1] \/
  gestureEvents (detectGaze newSession gazeLeft)
  = gestureEvents newSession ++ [Flash; PhaseAdvanced 2].
Proof.
  apply (one_completion_per_frame newSession gazeLeft). apply reach_refl.
Defined.

(** ** The histories along a session *)

Lemma pushBounded_exact_length {A} (max : nat) (hist : list A) (value : A) :
  (length hist <= max)%nat ->
  length (pushBounded max hist value) = Nat.min max (length hist + 1).
Proof.
  intros Hle. rewrite pushBounded_drop by exact Hle.
  rewrite length_drop, length_app. cbn [length]. lia.
Qed.

(** How far a frame gets: it throws before anything is stored, or after
    the EAR is stored, or it stores a gaze ratio too, and a pupil size
    only when it ends normally. *)
Lemma processEyeTracking_history_steps s landmarks width height :
  histories (sessionOf (processEyeTracking s landmarks width height)) = histories s
  \/ exists earAvg,
       earHistory (sessionOf (processEyeTracking s landmarks width height))
       = pushBounded maxEarHistory (earHistory s) earAvg /\
       ((gazeHistory (sessionOf (processEyeTracking s landmarks width height))
         = gazeHistory s /\
         pupilSizeHistory (sessionOf (processEyeTracking s landmarks width height))
         = pupilSizeHistory s)
        \/ exists gazeAvg,
             gazeHistory (sessionOf (processEyeTracking s landmarks width height))
             = pushBounded maxGazeHistory (gazeHistory s) gazeAvg /\
             historyStep maxPupilHistory (pupilSizeHistory s)
               (pupilSizeHistory (sessionOf (processEyeTracking s landmarks width height)))).
Proof.
  unfold processEyeTracking.
  destruct (pick LEFT_EYE landmarks) as [leftEye|]; [|left; reflexivity].
  destruct (pick RIGHT_EYE landmarks) as [rightEye|]; [|left; reflexivity].
  destruct (calculateEAR leftEye width height) as [earLeft|]; [|left; reflexivity].
  destruct (calculateEAR rightEye width height) as [earRight|]; [|left; reflexivity].
  set (earAvg := ((earLeft + earRight) / 2)%float).
  set (s1 := set_earHistory _ s).
  pose proof (detectBlink_histories s1 earAvg) as Hblink.
  destruct (detectBlink s1 earAvg) as [isBlinking s2]. cbn [snd] in Hblink.
  set (s3 := if isBlinking then emit BlinkAlert s2 else s2).
  assert (H3 : histories s3 = histories s1).
  { subst s3. destruct isBlinking; exact Hblink. }
  unfold histories in H3. injection H3 as He3 Hg3 Hp3.
  cbn [earHistory gazeHistory pupilSizeHistory set_earHistory s1] in He3, Hg3, Hp3.
  right. exists earAvg.
  destruct (pick LEFT_IRIS landmarks) as [leftIris|]; [|cbn [sessionOf]; auto].
  destruct (pick RIGHT_IRIS landmarks) as [rightIris|]; [|cbn [sessionOf]; auto].
  set (leftGaze := calculateGazeRatio leftIris leftEye width height).
  set (rightGaze := calculateGazeRatio rightIris rightEye width height).
  pose proof (estimateGazePoint_history s3 leftGaze rightGaze) as Hgaze.
  assert (Hother : earHistory (snd (estimateGazePoint s3 leftGaze rightGaze))
                   = earHistory s3 /\
                   pupilSizeHistory (snd (estimateGazePoint s3 leftGaze rightGaze))
                   = pupilSizeHistory s3).
  { unfold estimateGazePoint. destruct (Nat.ltb _ _); split; reflexivity. }
  destruct (estimateGazePoint s3 leftGaze rightGaze) as [gazePoint s4].
  cbn [snd] in Hgaze, Hother. destruct Hother as [Hear Hpupil].
  pose proof (detectLeftGaze_histories s4 gazePoint) as Hleft.
  pose proof (detectRightGaze_histories (detectLeftGaze s4 gazePoint) gazePoint)
    as Hright.
  set (s6 := detectRightGaze (detectLeftGaze s4 gazePoint) gazePoint) in *.
  unfold histories in Hleft, Hright.
  injection Hleft as He5 Hg5 Hp5. injection Hright as He6 Hg6 Hp6.
  assert (He : earHistory s6 = pushBounded maxEarHistory (earHistory s) earAvg)
    by congruence.
  assert (Hg : gazeHistory s6
               = pushBounded maxGazeHistory (gazeHistory s)
                   {| h := (h leftGaze + h rightGaze) / 2;
                      v := (v leftGaze + v rightGaze) / 2 |}) by congruence.
  assert (Hp : pupilSizeHistory s6 = pupilSizeHistory s) by congruence.
  destruct (calculatePupilSize leftIris width height) as [leftPupilSize|];
    [|cbn [sessionOf]; split; [exact He|]; right; eexists; split; [exact Hg|];
      left; exact Hp].
  destruct (calculatePupilSize rightIris width height) as [rightPupilSize|];
    [|cbn [sessionOf]; split; [exact He|]; right; eexists; split; [exact Hg|];
      left; exact Hp].
  cbn [sessionOf earHistory gazeHistory pupilSizeHistory set_pupilSizeHistory].
  split; [exact He|]. right. eexists. split; [exact Hg|].
  right. eexists. rewrite Hp. reflexivity.
Qed.

(** X18: the three histories never outgrow their capacities: in every
    session reached from a new one the EAR history holds at most 100
    values, the gaze history at most 5 and the pupil-size history at most
    30; and the EAR history, stored first in a frame, is never shorter
    than either of the other two. *)
Theorem histories_stay_bounded (s : Session) :
  reachable newSession s ->
  (length (earHistory s) <= 100)%nat /\
  (length (gazeHistory s) <= 5)%nat /\
  (length (pupilSizeHistory s) <= 30)%nat /\
  (length (gazeHistory s) <= length (earHistory s))%nat /\
  (length (pupilSizeHistory s) <= length (earHistory s))%nat.
Proof.
  intros Hreach.
  induction Hreach as [|s s' _ IH Hstep]; [cbn; lia|].
  destruct IH as (He & Hg & Hp & Hge & Hpe).
  assert (Hsame : histories s' = histories s ->
                  (length (earHistory s') <= 100)%nat /\
                  (length (gazeHistory s') <= 5)%nat /\
                  (length (pupilSizeHistory s') <= 30)%nat /\
                  (length (gazeHistory s') <= length (earHistory s'))%nat /\
                  (length (pupilSizeHistory s') <= length (earHistory s'))%nat).
  { unfold histories. intros [= -> -> ->]. auto. }
  destruct Hstep as [s landmarks width height|s|s ear|s g|s g].
  - destruct (processEyeTracking_history_steps s landmarks width height)
      as [Hkept|(earAvg & Hear & Hrest)]; [apply Hsame, Hkept|].
    set (s' := sessionOf (processEyeTracking s landmarks width height)) in *.
    assert (He' : length (earHistory s') = Nat.min 100 (length (earHistory s) + 1))
      by (rewrite Hear; apply pushBounded_exact_length; exact He).
    destruct Hrest as [[-> ->]|(gazeAvg & Hgaze & Hpupil)]; [lia|].
    assert (Hg' : length (gazeHistory s') = Nat.min 5 (length (gazeHistory s) + 1))
      by (rewrite Hgaze; apply pushBounded_exact_length; exact Hg).
    destruct Hpupil as [->|[value ->]]; [lia|].
    rewrite (pushBounded_exact_length maxPupilHistory) by exact Hp.
    unfold maxPupilHistory. lia.
  - apply Hsame. reflexivity.
  - apply Hsame, detectBlink_histories.
  - apply Hsame, detectLeftGaze_histories.
  - apply Hsame, detectRightGaze_histories.
Qed.

Lemma histories_stay_bounded_witness :
  (length (earHistory
             (sessionOf (processEyeTracking newSession (flatFrame 478)
                           640%float 480%float))) <= 100)%nat.
Proof.
  apply (histories_stay_bounded
           (sessionOf (processEyeTracking newSession (flatFrame 478)
                         640%float 480%float))).
  eapply reach_step; [apply reach_refl | apply step_frame].
Defined.

(** ** The landmarks a frame needs *)

(** [indices.map(idx => landmarks[idx])] has an [undefined] entry exactly
    when an index is past the end of [landmarks]. *)
Lemma pick_spec (indices : list nat) (landmarks : list Landmark) :
  match pick indices landmarks with
  | Some picked =>
      length picked = length indices /\
      Forall (fun idx => (idx < length landmarks)%nat) indices
  | None => Exists (fun idx => (length landmarks <= idx)%nat) indices
  end.
Proof.
  unfold pick.
  destruct (mapM (fun idx => landmarks !! idx) indices) as [picked|] eqn:Hpick.
  - split; [symmetry; eapply length_mapM; exact Hpick|].
    assert (Hsome : is_Some (mapM (fun idx => landmarks !! idx) indices))
      by (rewrite Hpick; eauto).
    apply mapM_is_Some in Hsome.
    eapply Forall_impl; [exact Hsome|].
    intros idx Hidx. apply lookup_lt_is_Some. exact Hidx.
  - apply mapM_None in Hpick.
    eapply Exists_impl; [exact Hpick|].
    intros idx Hidx. cbn in Hidx. apply lookup_ge_None. exact Hidx.
Qed.

Lemma calculateEAR_six (eye : list Landmark) (width height : float) :
  length eye = 6%nat -> exists ear, calculateEAR eye width height = Some ear.
Proof.
  intros Hlen.
  destruct eye as [|p0 [|p1 [|p2 [|p3 [|p4 [|p5 [|p6 rest]]]]]]]; try discriminate Hlen.
  eexists. reflexivity.
Qed.

Lemma calculatePupilSize_of_four (iris : list Landmark) (width height : float) :
  length iris = 4%nat ->
  exists diameter, calculatePupilSize iris width height = Some diameter.
Proof.
  intros Hlen.
  destruct iris as [|p0 [|p1 [|p2 [|p3 [|p4 rest]]]]]; try discriminate Hlen.
  eexists. reflexivity.
Qed.

Lemma pick_eyes (landmarks : list Landmark) :
  ((387 < length landmarks)%nat /\
   exists leftEye rightEye,
     pick LEFT_EYE landmarks = Some leftEye /\ length leftEye = 6%nat /\
     pick RIGHT_EYE landmarks = Some rightEye /\ length rightEye = 6%nat)
  \/ ((length landmarks <= 387)%nat /\
      (pick LEFT_EYE landmarks = None \/ pick RIGHT_EYE landmarks = None)).
Proof.
  pose proof (pick_spec LEFT_EYE landmarks) as Hleft.
  pose proof (pick_spec RIGHT_EYE landmarks) as Hright.
  destruct (pick LEFT_EYE landmarks) as [leftEye|];
    destruct (pick RIGHT_EYE landmarks) as [rightEye|];
    unfold LEFT_EYE, RIGHT_EYE in Hleft, Hright; cbn [length] in Hleft, Hright.
  - left. index_bounds. split; [lia|]. eauto 10.
  - right. index_bounds; (split; [lia | auto]).
  - right. index_bounds; (split; [lia | auto]).
  - right. index_bounds; (split; [lia | auto]).
Qed.

Lemma pick_irises (landmarks : list Landmark) :
  ((477 < length landmarks)%nat /\
   exists leftIris rightIris,
     pick LEFT_IRIS landmarks = Some leftIris /\ length leftIris = 4%nat /\
     pick RIGHT_IRIS landmarks = Some rightIris /\ length rightIris = 4%nat)
  \/ ((length landmarks <= 477)%nat /\
      (pick LEFT_IRIS landmarks = None \/ pick RIGHT_IRIS landmarks = None)).
Proof.
  pose proof (pick_spec LEFT_IRIS landmarks) as Hleft.
  pose proof (pick_spec RIGHT_IRIS landmarks) as Hright.
  destruct (pick LEFT_IRIS landmarks) as [leftIris|];
    destruct (pick RIGHT_IRIS landmarks) as [rightIris|];
    unfold LEFT_IRIS, RIGHT_IRIS in Hleft, Hright; cbn [length] in Hleft, Hright.
  - left. index_bounds. split; [lia|]. eauto 10.
  - right. index_bounds; (split; [lia | auto]).
  - right. index_bounds; (split; [lia | auto]).
  - right. index_bounds; (split; [lia | auto]).
Qed.

(** X19: a frame is processed to its end exactly when it has at least 478
    landmarks (the iris landmarks 469..477 come with the refined model
    only).  With 387 landmarks or fewer it throws before anything is
    stored and the session is unchanged.  With 388 to 477 landmarks it
    throws at the iris landmarks: the EAR is already in its history and the
    blink detector has run, while the gaze and pupil histories and the
    phase state are untouched. *)
Theorem processEyeTracking_needs_478 (s : Session) (landmarks : list Landmark)
    (width height : float) :
  ((exists s', processEyeTracking s landmarks width height = Done s')
   <-> (478 <= length landmarks)%nat) /\
  ((length landmarks <= 387)%nat ->
   processEyeTracking s landmarks width height = Thrown s) /\
  ((388 <= length landmarks <= 477)%nat ->
   exists earAvg s',
     processEyeTracking s landmarks width height = Thrown s' /\
     earHistory s' = pushBounded maxEarHistory (earHistory s) earAvg /\
     gazeHistory s' = gazeHistory s /\
     pupilSizeHistory s' = pupilSizeHistory s /\
     phaseState s' = phaseState s /\
     blinkFrameCounter s' = blinkFrameCounter (snd (detectBlink s earAvg)) /\
     blinkCount s' = blinkCount (snd (detectBlink s earAvg))).
Proof.
  assert (Hshort : (length landmarks <= 387)%nat ->
                   processEyeTracking s landmarks width height = Thrown s).
  { intros Hlen. unfold processEyeTracking.
    destruct (pick_eyes landmarks) as [[Hge _]|[_ [-> | ->]]]; [lia|reflexivity|].
    destruct (pick LEFT_EYE landmarks); reflexivity. }
  assert (Hlong : (388 <= length landmarks)%nat ->
     exists leftEye rightEye earLeft earRight,
       pick LEFT_EYE landmarks = Some leftEye /\
       pick RIGHT_EYE landmarks = Some rightEye /\
       calculateEAR leftEye width height = Some earLeft /\
       calculateEAR rightEye width height = Some earRight).
  { intros Hlen.
    destruct (pick_eyes landmarks)
      as [[_ (leftEye & rightEye & Hl & Hl6 & Hr & Hr6)]|[Hle _]]; [|lia].
    destruct (calculateEAR_six leftEye width height Hl6) as [earLeft HearL].
    destruct (calculateEAR_six rightEye width height Hr6) as [earRight HearR].
    eauto 10. }
  assert (Hmid : (388 <= length landmarks <= 477)%nat ->
   exists earAvg s',
     processEyeTracking s landmarks width height = Thrown s' /\
     earHistory s' = pushBounded maxEarHistory (earHistory s) earAvg /\
     gazeHistory s' = gazeHistory s /\
     pupilSizeHistory s' = pupilSizeHistory s /\
     phaseState s' = phaseState s /\
     blinkFrameCounter s' = blinkFrameCounter (snd (detectBlink s earAvg)) /\
     blinkCount s' = blinkCount (snd (detectBlink s earAvg))).
  { intros [Hge Hle].
    destruct (Hlong Hge) as (leftEye & rightEye & earLeft & earRight
                             & Hl & Hr & HearL & HearR).
    exists ((earLeft + earRight) / 2)%float.
    unfold processEyeTracking. rewrite Hl, Hr, HearL, HearR.
    set (earAvg := ((earLeft + earRight) / 2)%float).
    assert (Hiris : pick LEFT_IRIS landmarks = None \/ pick RIGHT_IRIS landmarks = None).
    { destruct (pick_irises landmarks) as [[Hlt _]|[_ Hnone]]; [lia | exact Hnone]. }
    unfold detectBlink. cbn [blinkFrameCounter earHistory set_earHistory].
    destruct (PrimFloat.ltb earAvg EAR_THRESHOLD);
      [|destruct (Z.leb BLINK_CONSEC_FRAMES (blinkFrameCounter s))];
      (destruct Hiris as [-> | ->];
       [|destruct (pick LEFT_IRIS landmarks)]);
      eexists; (split; [reflexivity|]); cbn; repeat split. }
  split; [|split; [exact Hshort | exact Hmid]].
  split.
  - intros [s' Hdone].
    destruct (Nat.le_gt_cases 478 (length landmarks)) as [Hok|Hfew]; [exact Hok|].
    destruct (Nat.le_gt_cases (length landmarks) 387) as [Hle|Hgt].
    + rewrite (Hshort Hle) in Hdone. discriminate.
    + destruct Hmid as (earAvg & s'' & Hthrown & _); [lia|].
      rewrite Hthrown in Hdone. discriminate.
  - intros Hlen.
    destruct Hlong as (leftEye & rightEye & earLeft & earRight
                       & Hl & Hr & HearL & HearR); [lia|].
    destruct (pick_irises landmarks)
      as [[_ (leftIris & rightIris & Hli & Hl4 & Hri & Hr4)]|[Hle _]]; [|lia].
    destruct (calculatePupilSize_of_four leftIris width height Hl4) as [dl Hdl].
    destruct (calculatePupilSize_of_four rightIris width height Hr4) as [dr Hdr].
    unfold processEyeTracking. rewrite Hl, Hr, HearL, HearR, Hli, Hri.
    destruct (detectBlink _ _) as [isBlinking s2].
    destruct (estimateGazePoint _ _ _) as [gazePoint s4].
    rewrite Hdl, Hdr. eexists. reflexivity.
Qed.

Lemma processEyeTracking_needs_478_witness :
  processEyeTracking newSession (flatFrame 300) 640%float 480%float
  = Thrown newSession.
Proof.
  destruct (processEyeTracking_needs_478 newSession (flatFrame 300)
              640%float 480%float) as (_ & Hshort & _).
  apply Hshort. vm_compute. lia.
Defined.

(** ** Blink count and blink alerts *)

Lemma detectBlink_cases s ear :
  (fst (detectBlink s ear) = false /\
   blinkCount (snd (detectBlink s ear)) = blinkCount s /\
   (blinkFrameCounter (snd (detectBlink s ear)) = blinkFrameCounter s + 1 \/
    blinkFrameCounter (snd (detectBlink s ear)) = 0)) \/
  (fst (detectBlink s ear) = true /\
   blinkCount (snd (detectBlink s ear)) = blinkCount s + 1 /\
   blinkFrameCounter (snd (detectBlink s ear)) = 0 /\
   BLINK_CONSEC_FRAMES <= blinkFrameCounter s).
Proof.
  unfold detectBlink.
  destruct (PrimFloat.ltb _ _); [left; cbn; auto|].
  destruct (Z.leb_spec BLINK_CONSEC_FRAMES (blinkFrameCounter s)).
  - right. cbn. auto.
  - left. cbn. auto.
Qed.

Lemma blinkAlerts_emit e s :
  blinkAlerts (emit e s) = (blinkAlerts s + if isBlinkAlert e then 1 else 0)%nat.
Proof.
  unfold blinkAlerts. cbn. rewrite List.filter_app, length_app. cbn.
  destruct (isBlinkAlert e); reflexivity.
Qed.

Lemma detectLeftGaze_blinkView s g : blinkView (detectLeftGaze s g) = blinkView s.
Proof.
  unfold detectLeftGaze.
  destruct (negb _ || _); [reflexivity|].
  destruct (PrimFloat.ltb _ _).
  - destruct (Z.leb _ _); [|reflexivity].
    unfold blinkView, blinkAlerts. cbn. rewrite !List.filter_app, !length_app. cbn.
    f_equal. lia.
  - destruct (Z.ltb _ _); reflexivity.
Qed.

Lemma detectRightGaze_blinkView s g : blinkView (detectRightGaze s g) = blinkView s.
Proof.
  unfold detectRightGaze.
  destruct (negb _ || _); [reflexivity|].
  destruct (PrimFloat.ltb _ _).
  - destruct (Z.leb _ _); [|reflexivity].
    unfold blinkView, blinkAlerts. cbn. rewrite !List.filter_app, !length_app. cbn.
    f_equal. lia.
  - destruct (Z.ltb _ _); reflexivity.
Qed.

Lemma estimateGazePoint_blinkView s leftGaze rightGaze :
  blinkView (snd (estimateGazePoint s leftGaze rightGaze)) = blinkView s.
Proof.
  unfold estimateGazePoint.
  destruct (Nat.ltb _ _); reflexivity.
Qed.

(** A frame leaves the blink state alone, or passes it through the blink
    detector once and calls [showBlinkAlert] when the detector says so. *)
Lemma processEyeTracking_blinkView s landmarks width height :
  blinkView (afterFrame s landmarks width height) = blinkView s
  \/ exists earAvg,
       blinkView (afterFrame s landmarks width height)
       = (blinkCount (snd (detectBlink s earAvg)),
          blinkFrameCounter (snd (detectBlink s earAvg)),
          (blinkAlerts s + if fst (detectBlink s earAvg) then 1 else 0)%nat).
Proof.
  unfold afterFrame, processEyeTracking.
  destruct (pick LEFT_EYE landmarks) as [leftEye|]; [|left; reflexivity].
  destruct (pick RIGHT_EYE landmarks) as [rightEye|]; [|left; reflexivity].
  destruct (calculateEAR leftEye width height) as [earLeft|]; [|left; reflexivity].
  destruct (calculateEAR rightEye width height) as [earRight|]; [|left; reflexivity].
  set (earAvg := ((earLeft + earRight) / 2)%float).
  set (s1 := set_earHistory _ s).
  right. exists earAvg.
  assert (H3 : blinkView (if fst (detectBlink s1 earAvg)
                          then emit BlinkAlert (snd (detectBlink s1 earAvg))
                          else snd (detectBlink s1 earAvg))
               = (blinkCount (snd (detectBlink s earAvg)),
                  blinkFrameCounter (snd (detectBlink s earAvg)),
                  (blinkAlerts s + if fst (detectBlink s earAvg) then 1 else 0)%nat)).
  { unfold detectBlink, s1. cbn [blinkFrameCounter set_earHistory].
    destruct (PrimFloat.ltb earAvg EAR_THRESHOLD);
      [|destruct (Z.leb BLINK_CONSEC_FRAMES (blinkFrameCounter s))];
      cbn [fst snd]; unfold blinkView;
      rewrite ?blinkAlerts_emit; cbn; rewrite ?Nat.add_0_r; reflexivity. }
  destruct (detectBlink s1 earAvg) as [isBlinking s2]. cbn [fst snd] in H3.
  set (s3 := if isBlinking then emit BlinkAlert s2 else s2) in *.
  destruct (pick LEFT_IRIS landmarks) as [leftIris|]; [|exact H3].
  destruct (pick RIGHT_IRIS landmarks) as [rightIris|]; [|exact H3].
  set (leftGaze := calculateGazeRatio leftIris leftEye width height).
  set (rightGaze := calculateGazeRatio rightIris rightEye width height).
  pose proof (estimateGazePoint_blinkView s3 leftGaze rightGaze) as Hgaze.
  destruct (estimateGazePoint s3 leftGaze rightGaze) as [gazePoint s4].
  cbn [snd] in Hgaze.
  assert (H6 : blinkView (detectRightGaze (detectLeftGaze s4 gazePoint) gazePoint)
               = blinkView s3).
  { rewrite detectRightGaze_blinkView, detectLeftGaze_blinkView. exact Hgaze. }
  destruct (calculatePupilSize leftIris width height); [|cbn [sessionOf]; congruence].
  destruct (calculatePupilSize rightIris width height); cbn [sessionOf]; [|congruence].
  rewrite <- H3, <- H6. reflexivity.
Qed.

(** X20: [showBlinkAlert] is called on exactly the frames on which the
    blink count goes up: a frame leaves blink count and alert count as
    they were, or raises each by one; the count is raised only when the
    closed-eye frame counter had reached [BLINK_CONSEC_FRAMES] (2), and the
    counter is then back at 0. *)
Theorem blink_alert_with_every_count (s : Session) (landmarks : list Landmark)
    (width height : float) :
  (blinkCount (afterFrame s landmarks width height) = blinkCount s /\
   blinkAlerts (afterFrame s landmarks width height) = blinkAlerts s) \/
  (blinkCount (afterFrame s landmarks width height) = blinkCount s + 1 /\
   blinkAlerts (afterFrame s landmarks width height) = S (blinkAlerts s) /\
   2 <= blinkFrameCounter s /\
   blinkFrameCounter (afterFrame s landmarks width height) = 0).
Proof.
  destruct (processEyeTracking_blinkView s landmarks width height)
    as [Hkept|[earAvg Hview]].
  - left. unfold blinkView in Hkept. injection Hkept as Hc _ Ha. auto.
  - unfold blinkView in Hview. injection Hview as Hc Hf Ha.
    destruct (detectBlink_cases s earAvg)
      as [(Hflag & Hcount & _)|(Hflag & Hcount & Hzero & Hreached)];
      rewrite Hflag in Ha.
    + left. split; [congruence | lia].
    + right. unfold BLINK_CONSEC_FRAMES in Hreached.
      split; [congruence|]. split; [lia|]. split; [exact Hreached | congruence].
Qed.

Lemma step_blinkView s s' :
  step s s' ->
  blinkCount s <= blinkCount s' /\
  (0 <= blinkFrameCounter s -> 0 <= blinkFrameCounter s') /\
  Z.of_nat (blinkAlerts s') - Z.of_nat (blinkAlerts s) <= blinkCount s' - blinkCount s.
Proof.
  assert (Hsame : forall r r', blinkView r' = blinkView r ->
            blinkCount r <= blinkCount r' /\
            (0 <= blinkFrameCounter r -> 0 <= blinkFrameCounter r') /\
            Z.of_nat (blinkAlerts r') - Z.of_nat (blinkAlerts r)
            <= blinkCount r' - blinkCount r).
  { intros r r' Hview. unfold blinkView in Hview. injection Hview as -> -> ->. lia. }
  assert (Hblink : forall r ear,
            blinkCount r <= blinkCount (snd (detectBlink r ear)) /\
            (0 <= blinkFrameCounter r -> 0 <= blinkFrameCounter (snd (detectBlink r ear))) /\
            (Z.of_nat (if fst (detectBlink r ear) then 1 else 0)
             <= blinkCount (snd (detectBlink r ear)) - blinkCount r)).
  { intros r ear.
    destruct (detectBlink_cases r ear)
      as [(-> & -> & [-> | ->])|(-> & -> & -> & _)]; cbn; lia. }
  intros Hstep. destruct Hstep as [s landmarks width height|s|s ear|s g|s g].
  - fold (afterFrame s landmarks width height).
    destruct (processEyeTracking_blinkView s landmarks width height)
      as [Hkept|[earAvg Hview]]; [apply Hsame, Hkept|].
    unfold blinkView in Hview. injection Hview as -> -> ->.
    destruct (Hblink s earAvg) as (Hc & Hf & Ha).
    split; [exact Hc|]. split; [exact Hf|]. lia.
  - apply Hsame. reflexivity.
  - destruct (Hblink s ear) as (Hc & Hf & Ha).
    split; [exact Hc|]. split; [exact Hf|].
    assert (Halerts : blinkAlerts (snd (detectBlink s ear)) = blinkAlerts s).
    { unfold detectBlink. destruct (PrimFloat.ltb _ _); [reflexivity|].
      destruct (Z.leb _ _); reflexivity. }
    rewrite Halerts. lia.
  - apply Hsame, detectLeftGaze_blinkView.
  - apply Hsame, detectRightGaze_blinkView.
Qed.

(** X21: the blink count never goes down, and in every session reached
    from a new one the closed-eye frame counter and the blink count are
    not negative and there are never more blink alerts than counted
    blinks. *)
Theorem blink_count_never_decreases (s s' : Session) :
  reachable newSession s -> reachable s s' ->
  0 <= blinkCount s <= blinkCount s' /\
  0 <= blinkFrameCounter s' /\
  Z.of_nat (blinkAlerts s') <= blinkCount s'.
Proof.
  intros Hs Hs'.
  assert (Hfrom : forall r0 r, reachable r0 r ->
            blinkCount r0 <= blinkCount r /\
            (0 <= blinkFrameCounter r0 -> 0 <= blinkFrameCounter r) /\
            Z.of_nat (blinkAlerts r) - Z.of_nat (blinkAlerts r0)
            <= blinkCount r - blinkCount r0).
  { intros r0 r Hreach. induction Hreach as [|r r' _ IH Hstep]; [lia|].
    destruct (step_blinkView r r' Hstep) as (Hc & Hf & Ha). lia. }
  destruct (Hfrom newSession s Hs) as (Hc & Hf & Ha).
  destruct (Hfrom s s' Hs') as (Hc' & Hf' & Ha').
  cbn in Hc, Hf, Ha. lia.
Qed.

Lemma blink_count_never_decreases_witness :
  0 <= blinkCount newSession
  <= blinkCount (snd (detectBlink newSession 0.1%float)).
Proof.
  apply (blink_count_never_decreases newSession
           (snd (detectBlink newSession 0.1%float))).
  - apply reach_refl.
  - eapply reach_step; [apply reach_refl | apply step_blink].
Defined.

(** ** Gaze smoothing *)




(** ** The circle trail *)

Lemma addTrailPoint_drawn (t : Trail) (p : Point float) :
  trailCtx t = true ->
  addTrailPoint t p
  = mkTrail true (Some p) (strokes t ++ polyline (lastTrailPoint t) [p]).
Proof.
  intros Hctx. unfold addTrailPoint. rewrite Hctx. cbn [negb].
  destruct p as [px py]. cbn [x y].
  destruct (lastTrailPoint t) as [q|]; cbn [polyline segmentsFrom];
    [reflexivity | rewrite app_nil_r; reflexivity].
Qed.

Lemma polyline_cons (start : option (Point float)) p ps :
  polyline start (p :: ps) = polyline start [p] ++ polyline (Some p) ps.
Proof. destruct start; reflexivity. Qed.

Lemma segmentsFrom_length p ps : length (segmentsFrom p ps) = length ps.
Proof.
  revert p. induction ps as [|q rest IH]; intros p; [reflexivity|].
  cbn. rewrite IH. reflexivity.
Qed.

(** X23: the circle trail is one connected polyline: with the trail canvas
    set, feeding the gaze points of successive frames adds to the strokes
    the segments joining each point to the next, starting from the last
    point of the trail before (none for the very first point), and
    remembers the last point fed; from a fresh trail canvas [n] points give
    [n - 1] segments.  Without the trail canvas nothing is drawn and no
    point is remembered. *)
Theorem trail_is_connected_polyline (t : Trail) (gazePoints : list (Point float)) :
  (trailCtx t = true ->
   feedTrail t gazePoints
   = mkTrail true
       (match last gazePoints with Some p => Some p | None => lastTrailPoint t end)
       (strokes t ++ polyline (lastTrailPoint t) gazePoints)) /\
  (trailCtx t = false -> feedTrail t gazePoints = t) /\
  length (strokes (feedTrail (initTrailCanvas newTrail) gazePoints))
  = (length gazePoints - 1)%nat.
Proof.
  assert (Hdrawn : forall ps r, trailCtx r = true ->
            feedTrail r ps
            = mkTrail true
                (match last ps with Some p => Some p | None => lastTrailPoint r end)
                (strokes r ++ polyline (lastTrailPoint r) ps)).
  { induction ps as [|p ps IH]; intros r Hctx.
    - destruct r as [ctx lastPoint drawn]. cbn in Hctx. subst ctx. cbn.
      destruct lastPoint; cbn; rewrite app_nil_r; reflexivity.
    - change (feedTrail r (p :: ps)) with (feedTrail (addTrailPoint r p) ps).
      rewrite (addTrailPoint_drawn r p Hctx).
      rewrite IH by reflexivity.
      cbn [lastTrailPoint strokes].
      rewrite (polyline_cons (lastTrailPoint r) p ps), app_assoc.
      f_equal. rewrite (last_cons p ps).
      destruct (last ps); reflexivity. }
  split; [apply Hdrawn|]. split.
  - intros Hctx. induction gazePoints as [|p ps IH]; [reflexivity|].
    change (feedTrail t (p :: ps)) with (feedTrail (addTrailPoint t p) ps).
    unfold addTrailPoint. rewrite Hctx. exact IH.
  - rewrite Hdrawn by reflexivity. cbn.
    destruct gazePoints as [|p ps]; [reflexivity|].
    cbn. rewrite segmentsFrom_length. lia.
Qed.

Lemma trail_is_connected_polyline_witness :
  (feedTrail (initTrailCanvas newTrail)
     [mkPoint 1 1; mkPoint 2 3; mkPoint 4 3]
   = mkTrail true (Some (mkPoint 4 3))
       [(mkPoint 1 1, mkPoint 2 3); (mkPoint 2 3, mkPoint 4 3)])%float.
Proof.
  destruct (trail_is_connected_polyline (initTrailCanvas newTrail)
              [mkPoint 1 1; mkPoint 2 3; mkPoint 4 3]%float) as [Hdrawn _].
  apply Hdrawn. reflexivity.
Defined.

(** ** NaN in the eye contour *)

Section Binary64NaN.
Local Open Scope float_scope.

Lemma sub_nan (a : float) : a - nan = nan.
Proof.
  apply Prim2SF_inj. rewrite sub_spec. change (Prim2SF nan) with S754_nan.
  destruct (Prim2SF a) as [[]|[]| |[] m e]; reflexivity.
Qed.

Lemma min_step_nan (a b : float) :
  is_nan a = true \/ is_nan b = true -> min_step a b = nan.
Proof.
  intros Hnan. unfold min_step.
  destruct Hnan as [-> | ->]; [reflexivity | rewrite orb_true_r; reflexivity].
Qed.

Lemma max_step_nan (a b : float) :
  is_nan a = true \/ is_nan b = true -> max_step a b = nan.
Proof.
  intros Hnan. unfold max_step.
  destruct Hnan as [-> | ->]; [reflexivity | rewrite orb_true_r; reflexivity].
Qed.

Lemma fold_min_step_nan (args : list float) : fold_left min_step args nan = nan.
Proof.
  induction args as [|a rest IH]; [reflexivity|].
  cbn [fold_left]. rewrite min_step_nan by (left; reflexivity). exact IH.
Qed.

Lemma fold_max_step_nan (args : list float) : fold_left max_step args nan = nan.
Proof.
  induction args as [|a rest IH]; [reflexivity|].
  cbn [fold_left]. rewrite max_step_nan by (left; reflexivity). exact IH.
Qed.

Lemma Math_min_nan (args : list float) :
  Exists (fun a => is_nan a = true) args -> Math_min args = nan.
Proof.
  unfold Math_min. generalize infinity.
  induction args as [|a rest IH]; intros init Hnan.
  - apply Exists_nil in Hnan. destruct Hnan.
  - cbn [fold_left]. apply Exists_cons in Hnan as [Ha|Hrest].
    + rewrite min_step_nan by (right; exact Ha). apply fold_min_step_nan.
    + apply IH, Hrest.
Qed.

Lemma Math_max_nan (args : list float) :
  Exists (fun a => is_nan a = true) args -> Math_max args = nan.
Proof.
  unfold Math_max. generalize neg_infinity.
  induction args as [|a rest IH]; intros init Hnan.
  - apply Exists_nil in Hnan. destruct Hnan.
  - cbn [fold_left]. apply Exists_cons in Hnan as [Ha|Hrest].
    + rewrite max_step_nan by (right; exact Ha). apply fold_max_step_nan.
    + apply IH, Hrest.
Qed.

End Binary64NaN.

(** X24: a NaN in the eye contour never reaches the gaze ratio: when some
    eye landmark has a scaled [x] or [y] coordinate that is NaN, the
    bounding box has a NaN extent, the guard [eyeWidth > 0 && eyeHeight > 0]
    fails and [calculateGazeRatio] returns the neutral ratio
    [{h: 0.5, v: 0.5}], whatever the iris landmarks are. *)
Theorem calculateGazeRatio_nan_eye (irisLandmarks eyeLandmarks : list Landmark)
    (width height : float) :
  Exists (fun lm => is_nan (x lm * width) = true \/ is_nan (y lm * height) = true)
    eyeLandmarks ->
  calculateGazeRatio irisLandmarks eyeLandmarks width height = {| h := 0.5; v := 0.5 |}.
Proof.
  intros Hnan.
  assert (Hxy : Exists (fun a => is_nan a = true)
                  (map x (map (toPixels width height) eyeLandmarks))
                \/ Exists (fun a => is_nan a = true)
                     (map y (map (toPixels width height) eyeLandmarks))).
  { induction Hnan as [lm rest [Hx|Hy]|lm rest _ IH].
    - left. apply Exists_cons_hd. exact Hx.
    - right. apply Exists_cons_hd. exact Hy.
    - destruct IH as [IH|IH]; [left|right]; apply Exists_cons_tl; exact IH. }
  unfold calculateGazeRatio.
  destruct Hxy as [Hx|Hy].
  - rewrite (Math_min_nan _ Hx), sub_nan. reflexivity.
  - rewrite (Math_min_nan _ Hy), sub_nan.
    change (0 <? nan)%float with false. rewrite andb_false_r. reflexivity.
Qed.

Lemma calculateGazeRatio_nan_eye_witness :
  calculateGazeRatio sampleIris nanEye 640%float 480%float
  = {| h := 0.5; v := 0.5 |}.
Proof.
  apply (calculateGazeRatio_nan_eye sampleIris nanEye 640%float 480%float).
  unfold nanEye. repeat first [apply Exists_cons_hd; left; reflexivity
                              | apply Exists_cons_hd; right; reflexivity
                              | apply Exists_cons_tl].
Defined.

(** ** No completion before the required count *)

Lemma detectLeftGaze_slow s g :
  leftActive s -> 0 <= leftGazeFrames s ->
  leftGazeFrames s + 1 < leftGazeRequired ->
  exists c, detectLeftGaze s g = set_leftGazeFrames c s /\
            0 <= c <= leftGazeFrames s + 1.
Proof.
  intros [Hphase Hflag] Hpos Hfew. unfold detectLeftGaze.
  rewrite Hphase, Hflag. cbn [Z.eqb negb orb].
  destruct (PrimFloat.ltb _ _).
  - cbn [leftGazeFrames set_leftGazeFrames].
    destruct (Z.leb_spec leftGazeRequired (leftGazeFrames s + 1)); [lia|].
    eexists. split; [reflexivity | lia].
  - destruct (Z.ltb _ _).
    + eexists. split; [reflexivity | lia].
    + exists (leftGazeFrames s). rewrite set_leftGazeFrames_same.
      split; [reflexivity | lia].
Qed.

Lemma detectRightGaze_slow s g :
  rightActive s -> 0 <= rightGazeFrames s ->
  rightGazeFrames s + 1 < rightGazeRequired ->
  exists c, detectRightGaze s g = set_rightGazeFrames c s /\
            0 <= c <= rightGazeFrames s + 1.
Proof.
  intros [Hphase Hflag] Hpos Hfew. unfold detectRightGaze.
  rewrite Hphase, Hflag. cbn [Z.eqb Pos.eqb negb orb].
  destruct (PrimFloat.ltb _ _).
  - cbn [rightGazeFrames set_rightGazeFrames].
    destruct (Z.leb_spec rightGazeRequired (rightGazeFrames s + 1)); [lia|].
    eexists. split; [reflexivity | lia].
  - destruct (Z.ltb _ _).
    + eexists. split; [reflexivity | lia].
    + exists (rightGazeFrames s). rewrite set_rightGazeFrames_same.
      split; [reflexivity | lia].
Qed.

Lemma feedGaze_left_slow gs : forall s,
  leftActive s -> 0 <= leftGazeFrames s ->
  leftGazeFrames s + Z.of_nat (length gs) < leftGazeRequired ->
  exists c, feedGaze s gs = set_leftGazeFrames c s /\
            0 <= c <= leftGazeFrames s + Z.of_nat (length gs).
Proof.
  induction gs as [|g gs IH]; intros s Hact Hpos Hfew.
  - exists (leftGazeFrames s). rewrite set_leftGazeFrames_same.
    cbn. split; [reflexivity | lia].
  - cbn [length] in Hfew. rewrite Nat2Z.inj_succ in Hfew.
    destruct (detectLeftGaze_slow s g Hact Hpos) as (c & Hleft & Hc); [lia|].
    change (feedGaze s (g :: gs)) with (feedGaze (detectGaze s g) gs).
    assert (Hframe : detectGaze s g = set_leftGazeFrames c s).
    { unfold detectGaze. rewrite Hleft.
      apply detectRightGaze_inert. left. destruct Hact as [Hphase _].
      cbn. rewrite Hphase. discriminate. }
    rewrite Hframe.
    destruct (IH (set_leftGazeFrames c s)) as (c' & Hrest & Hc').
    + exact Hact.
    + cbn. lia.
    + cbn. lia.
    + exists c'. rewrite Hrest. cbn in Hc'. cbn [length]. rewrite Nat2Z.inj_succ.
      split; [destruct s; reflexivity | lia].
Qed.

Lemma feedGaze_right_slow gs : forall s,
  rightActive s -> 0 <= rightGazeFrames s ->
  rightGazeFrames s + Z.of_nat (length gs) < rightGazeRequired ->
  exists c, feedGaze s gs = set_rightGazeFrames c s /\
            0 <= c <= rightGazeFrames s + Z.of_nat (length gs).
Proof.
  induction gs as [|g gs IH]; intros s Hact Hpos Hfew.
  - exists (rightGazeFrames s). rewrite set_rightGazeFrames_same.
    cbn. split; [reflexivity | lia].
  - cbn [length] in Hfew. rewrite Nat2Z.inj_succ in Hfew.
    destruct (detectRightGaze_slow s g Hact Hpos) as (c & Hright & Hc); [lia|].
    change (feedGaze s (g :: gs)) with (feedGaze (detectGaze s g) gs).
    assert (Hframe : detectGaze s g = set_rightGazeFrames c s).
    { unfold detectGaze. rewrite detectLeftGaze_inert; [exact Hright|].
      left. destruct Hact as [Hphase _]. rewrite Hphase. discriminate. }
    rewrite Hframe.
    destruct (IH (set_rightGazeFrames c s)) as (c' & Hrest & Hc').
    + exact Hact.
    + cbn. lia.
    + cbn. lia.
    + exists c'. rewrite Hrest. cbn in Hc'. cbn [length]. rewrite Nat2Z.inj_succ.
      split; [destruct s; reflexivity | lia].
Qed.

(** X25: no phase completes early, whatever the gaze does: while LookLeft
    is active with the left sustain counter at [c >= 0], any sequence of
    fewer than [10 - c] frames (both detectors called on each) leaves the
    phase, the flags and the event log as they were and only moves the
    left counter, which stays between 0 and [c] plus the number of frames;
    the same holds for LookRight and the right counter.  From counter 0 a
    phase therefore needs at least ten frames. *)
Theorem no_completion_before_required (s : Session) (gs : list GazeRatio) :
  (leftActive s -> 0 <= leftGazeFrames s ->
   leftGazeFrames s + Z.of_nat (length gs) < leftGazeRequired ->
   currentPhase (feedGaze s gs) = 0 /\
   phaseCompleted (feedGaze s gs) = phaseCompleted s /\
   events (feedGaze s gs) = events s /\
   rightGazeFrames (feedGaze s gs) = rightGazeFrames s /\
   0 <= leftGazeFrames (feedGaze s gs) <= leftGazeFrames s + Z.of_nat (length gs)) /\
  (rightActive s -> 0 <= rightGazeFrames s ->
   rightGazeFrames s + Z.of_nat (length gs) < rightGazeRequired ->
   currentPhase (feedGaze s gs) = 1 /\
   phaseCompleted (feedGaze s gs) = phaseCompleted s /\
   events (feedGaze s gs) = events s /\
   leftGazeFrames (feedGaze s gs) = leftGazeFrames s /\
   0 <= rightGazeFrames (feedGaze s gs) <= rightGazeFrames s + Z.of_nat (length gs)).
Proof.
  split; intros Hact Hpos Hfew.
  - destruct (feedGaze_left_slow gs s Hact Hpos Hfew) as (c & -> & Hc).
    destruct Hact as [Hphase _]. cbn. auto.
  - destruct (feedGaze_right_slow gs s Hact Hpos Hfew) as (c & -> & Hc).
    destruct Hact as [Hphase _]. cbn. auto.
Qed.

Lemma no_completion_before_required_witness :
  currentPhase (feedGaze newSession (repeat gazeLeft 9)) = 0.
Proof.
  destruct (no_completion_before_required newSession (repeat gazeLeft 9))
    as [Hleft _].
  apply Hleft.
  - split; reflexivity.
  - cbn. lia.
  - unfold leftGazeRequired. cbn. lia.
Defined.

(** ** The histories over a run of frames *)

(** A frame with all its landmarks pushes its three values, each through
    push and shift-when-over-capacity. *)
Lemma afterFrame_pushes (s : Session) (frame : Frame) :
  (478 <= length (frameLandmarks frame))%nat ->
  exists ear gaze pupil,
    earOfFrame frame = Some ear /\
    gazeOfFrame frame = Some gaze /\
    pupilOfFrame frame = Some pupil /\
    earHistory (afterFrame s (frameLandmarks frame) (frameWidth frame)
                  (frameHeight frame))
    = pushBounded maxEarHistory (earHistory s) ear /\
    gazeHistory (afterFrame s (frameLandmarks frame) (frameWidth frame)
                   (frameHeight frame))
    = pushBounded maxGazeHistory (gazeHistory s) gaze /\
    pupilSizeHistory (afterFrame s (frameLandmarks frame) (frameWidth frame)
                        (frameHeight frame))
    = pushBounded maxPupilHistory (pupilSizeHistory s) pupil.
Proof.
  destruct frame as [landmarks width height]. cbn [frameLandmarks frameWidth frameHeight].
  intros Hlen.
  destruct (pick_eyes landmarks)
    as [[_ (leftEye & rightEye & Hl & Hl6 & Hr & Hr6)]|[Hle _]]; [|lia].
  destruct (pick_irises landmarks)
    as [[_ (leftIris & rightIris & Hli & Hl4 & Hri & Hr4)]|[Hle _]]; [|lia].
  destruct (calculateEAR_six leftEye width height Hl6) as [earLeft HearL].
  destruct (calculateEAR_six rightEye width height Hr6) as [earRight HearR].
  destruct (calculatePupilSize_of_four leftIris width height Hl4) as [dl Hdl].
  destruct (calculatePupilSize_of_four rightIris width height Hr4) as [dr Hdr].
  set (leftGaze := calculateGazeRatio leftIris leftEye width height).
  set (rightGaze := calculateGazeRatio rightIris rightEye width height).
  exists ((earLeft + earRight) / 2)%float,
         {| h := (h leftGaze + h rightGaze) / 2;
            v := (v leftGaze + v rightGaze) / 2 |}%float,
         ((dl + dr) / 2)%float.
  unfold earOfFrame, gazeOfFrame, pupilOfFrame.
  cbn [frameLandmarks frameWidth frameHeight].
  rewrite Hl, Hr, Hli, Hri. cbn [mbind option_bind].
  rewrite HearL, HearR, Hdl, Hdr. cbn [mbind option_bind].
  split; [reflexivity|]. split; [reflexivity|]. split; [reflexivity|].
  unfold afterFrame, processEyeTracking. rewrite Hl, Hr, HearL, HearR, Hli, Hri.
  set (earAvg := ((earLeft + earRight) / 2)%float).
  set (s1 := set_earHistory _ s).
  pose proof (detectBlink_histories s1 earAvg) as Hblink.
  destruct (detectBlink s1 earAvg) as [isBlinking s2]. cbn [snd] in Hblink.
  set (s3 := if isBlinking then emit BlinkAlert s2 else s2).
  assert (H3 : histories s3 = histories s1).
  { subst s3. destruct isBlinking; exact Hblink. }
  fold leftGaze rightGaze.
  pose proof (estimateGazePoint_history s3 leftGaze rightGaze) as Hgaze.
  assert (Hother : earHistory (snd (estimateGazePoint s3 leftGaze rightGaze))
                   = earHistory s3 /\
                   pupilSizeHistory (snd (estimateGazePoint s3 leftGaze rightGaze))
                   = pupilSizeHistory s3).
  { unfold estimateGazePoint. destruct (Nat.ltb _ _); split; reflexivity. }
  destruct (estimateGazePoint s3 leftGaze rightGaze) as [gazePoint s4].
  cbn [snd] in Hgaze, Hother. destruct Hother as [Hear Hpupil].
  pose proof (detectLeftGaze_histories s4 gazePoint) as Hleft.
  pose proof (detectRightGaze_histories (detectLeftGaze s4 gazePoint) gazePoint)
    as Hright.
  set (s6 := detectRightGaze (detectLeftGaze s4 gazePoint) gazePoint) in *.
  rewrite Hdl, Hdr.
  unfold histories in H3, Hleft, Hright.
  injection H3 as He3 Hg3 Hp3. injection Hleft as He5 Hg5 Hp5.
  injection Hright as He6 Hg6 Hp6.
  cbn [sessionOf earHistory gazeHistory pupilSizeHistory set_pupilSizeHistory].
  subst s1. cbn [earHistory gazeHistory pupilSizeHistory set_earHistory] in He3, Hg3, Hp3.
  split; [congruence|]. split; congruence.
Qed.

(** Whatever the frame, each history is left alone or gets the value of
    the frame pushed: the EAR when the frame has its eye landmarks, the
    gaze ratio and the pupil size when it has its iris landmarks too. *)
Lemma afterFrame_histories (s : Session) (frame : Frame) :
  earHistory (afterFrame s (frameLandmarks frame) (frameWidth frame)
                (frameHeight frame))
  = match earOfFrame frame with
    | Some ear => pushBounded maxEarHistory (earHistory s) ear
    | None => earHistory s
    end /\
  gazeHistory (afterFrame s (frameLandmarks frame) (frameWidth frame)
                 (frameHeight frame))
  = match gazeOfFrame frame with
    | Some gaze => pushBounded maxGazeHistory (gazeHistory s) gaze
    | None => gazeHistory s
    end /\
  pupilSizeHistory (afterFrame s (frameLandmarks frame) (frameWidth frame)
                      (frameHeight frame))
  = match pupilOfFrame frame with
    | Some pupil => pushBounded maxPupilHistory (pupilSizeHistory s) pupil
    | None => pupilSizeHistory s
    end.
Proof.
  destruct (Nat.le_gt_cases 478 (length (frameLandmarks frame))) as [Hfull|Hfew].
  { destruct (afterFrame_pushes s frame Hfull)
      as (ear & gaze & pupil & -> & -> & -> & He & Hg & Hp).
    auto. }
  destruct frame as [landmarks width height].
  cbn [frameLandmarks frameWidth frameHeight] in *.
  assert (Hiris : pick LEFT_IRIS landmarks = None \/ pick RIGHT_IRIS landmarks = None).
  { destruct (pick_irises landmarks) as [[Hlt _]|[_ Hnone]]; [lia | exact Hnone]. }
  assert (Hgaze : gazeOfFrame (mkFrame landmarks width height) = None).
  { unfold gazeOfFrame. cbn [frameLandmarks].
    destruct (pick LEFT_EYE landmarks); [|reflexivity].
    destruct (pick RIGHT_EYE landmarks); [|reflexivity].
    destruct Hiris as [-> | ->]; [reflexivity|].
    destruct (pick LEFT_IRIS landmarks); reflexivity. }
  assert (Hpupil : pupilOfFrame (mkFrame landmarks width height) = None).
  { unfold pupilOfFrame. cbn [frameLandmarks].
    destruct Hiris as [-> | ->]; [reflexivity|].
    destruct (pick LEFT_IRIS landmarks); reflexivity. }
  rewrite Hgaze, Hpupil.
  unfold afterFrame, processEyeTracking, earOfFrame.
  cbn [frameLandmarks frameWidth frameHeight].
  destruct (pick LEFT_EYE landmarks) as [leftEye|]; [|repeat split].
  destruct (pick RIGHT_EYE landmarks) as [rightEye|]; [|repeat split].
  cbn [mbind option_bind].
  destruct (calculateEAR leftEye width height) as [earLeft|]; [|repeat split].
  destruct (calculateEAR rightEye width height) as [earRight|]; [|repeat split].
  cbn [mbind option_bind].
  set (earAvg := ((earLeft + earRight) / 2)%float).
  set (s1 := set_earHistory _ s).
  pose proof (detectBlink_histories s1 earAvg) as Hblink.
  destruct (detectBlink s1 earAvg) as [isBlinking s2]. cbn [snd] in Hblink.
  set (s3 := if isBlinking then emit BlinkAlert s2 else s2).
  assert (H3 : histories s3 = histories s1).
  { subst s3. destruct isBlinking; exact Hblink. }
  unfold histories in H3. injection H3 as He3 Hg3 Hp3.
  subst s1. cbn [earHistory gazeHistory pupilSizeHistory set_earHistory] in He3, Hg3, Hp3.
  destruct Hiris as [-> | ->]; [|destruct (pick LEFT_IRIS landmarks)];
    cbn [sessionOf]; auto.
Qed.

(** Over a run of frames each history is its earlier content with the
    values of the frames pushed one by one, in frame order. *)
Lemma processFrames_pushes (frames : list Frame) : forall s : Session,
  earHistory (processFrames s frames)
  = pushAll maxEarHistory (earHistory s) (omap earOfFrame frames) /\
  gazeHistory (processFrames s frames)
  = pushAll maxGazeHistory (gazeHistory s) (omap gazeOfFrame frames) /\
  pupilSizeHistory (processFrames s frames)
  = pushAll maxPupilHistory (pupilSizeHistory s) (omap pupilOfFrame frames).
Proof.
  induction frames as [|frame rest IH]; intros s; [repeat split|].
  change (processFrames s (frame :: rest))
    with (processFrames (afterFrame s (frameLandmarks frame) (frameWidth frame)
                           (frameHeight frame)) rest).
  destruct (IH (afterFrame s (frameLandmarks frame) (frameWidth frame)
                  (frameHeight frame))) as (-> & -> & ->).
  destruct (afterFrame_histories s frame) as (-> & -> & ->).
  cbn [omap list_omap].
  destruct (earOfFrame frame), (gazeOfFrame frame), (pupilOfFrame frame);
    repeat split.
Qed.

Lemma pushAll_keepsLast {A} (capacity : nat) (pushed : list A) :
  keepsLast capacity pushed (pushAll capacity [] pushed).
Proof.
  pose proof (pushAll_drop capacity pushed [] (Nat.le_0_l capacity)) as Hdrop.
  cbn [app] in Hdrop. unfold keepsLast.
  split; intros Hlen; rewrite Hdrop.
  - split; [|reflexivity]. rewrite length_drop. lia.
  - replace (length pushed - capacity)%nat with 0%nat by lia. reflexivity.
Qed.

(** C7: the three histories of the tracker are bounded buffers that keep
    the last values pushed.  Let [processEyeTracking] run on any sequence
    of frames from a session whose histories are empty.  The values pushed
    on the EAR history are the [earAvg] of the frames that have their eye
    landmarks, in frame order; those pushed on the gaze history (by
    [estimateGazePoint]) and on the pupil-size history are the unsmoothed
    gaze ratio and the [avgPupilSize] of the frames that have their iris
    landmarks too.  Then for the EAR history with capacity 100, the gaze
    history with capacity 5 and the pupil-size history with capacity 30:
    once more values than the capacity have been pushed, the history has
    exactly as many entries as its capacity, the last pushed values in push
    order (the oldest evicted first); before, it holds all pushed values in
    push order. *)
Theorem histories_keep_last_values (s : Session) (frames : list Frame) :
  earHistory s = [] -> gazeHistory s = [] -> pupilSizeHistory s = [] ->
  keepsLast 100 (omap earOfFrame frames) (earHistory (processFrames s frames)) /\
  keepsLast 5 (omap gazeOfFrame frames) (gazeHistory (processFrames s frames)) /\
  keepsLast 30 (omap pupilOfFrame frames)
    (pupilSizeHistory (processFrames s frames)).
Proof.
  intros Hear Hgaze Hpupil.
  destruct (processFrames_pushes frames s) as (-> & -> & ->).
  rewrite Hear, Hgaze, Hpupil.
  split; [|split]; apply pushAll_keepsLast.
Qed.

(** Seven full frames from a new session: the gaze history, of capacity 5,
    holds the gaze ratios of the last five. *)
Lemma histories_keep_last_values_witness :
  length (gazeHistory (processFrames newSession (repeat flatFullFrame 7))) = 5%nat
  /\ gazeHistory (processFrames newSession (repeat flatFullFrame 7))
     = drop 2 (omap gazeOfFrame (repeat flatFullFrame 7)).
Proof.
  destruct (histories_keep_last_values newSession (repeat flatFullFrame 7))
    as (_ & [Hover _] & _).
  - reflexivity.
  - reflexivity.
  - reflexivity.
  - apply Hover. vm_compute. lia.
Defined.
